(** * novo_muta: trio mutation model, simulator and binning tools

    A shallow embedding of the C++ sources ([utilities.cc],
    [simulation_model.cc], [bin_driver.cc], [count_bin_trio.cc]) and the
    properties of them that the specification states.

    Conventions of the embedding.
    - C++ [int] values are [Z]; loop counters of the fixed-bound [for] loops
      are [nat].  The conversions that can leave the range of [int] are
      written out ([pow_to_int], [to_int], [extract_int], [int_add]);
      counters of loop iterations and of input lines stay far below the
      bound.
    - [uint16_t] stores are written out as reduction modulo 2^16.
    - [double] is an interface ([DoubleArith]) with two instances: IEEE
      binary64 ([float], the arithmetic the program runs) and the reals
      ([R], exact arithmetic).  A statement proved for every instance holds
      for the program; one that needs the laws of exact arithmetic says so.
    - An Eigen object declared without initialiser is a list of cells
      [option _] that starts as [None]; reading [None] is reading an
      indeterminate value.  A scalar declared without initialiser that is
      only incremented and printed is [option _] in the same way
      ([probability_count] of [count_bin_trio.cc]); one that the program
      computes with is a parameter, the value that the variable holds
      ([probability] of [CountBinTrio]).
    - A function returns [None] when the C++ has no defined result
      (out-of-range index or conversion, a recursion that never ends, or an
      exhausted random source of the model).
    - The variables that a reading loop declares before the loop are part
      of its state: [str >> x] leaves [x] as it is when the stream has
      failed or holds nothing more, so that a line can be counted with the
      values of the line before. *)

From Stdlib Require Import ZArith List Lia Bool String Ascii Floats Reals.
From stdpp Require Import base list option.
Import ListNotations.

Set Warnings "-inexact-float".
Local Open Scope Z_scope.

(** ** Arithmetic of [double] *)

Class DoubleArith (D : Type) := {
  dzero : D;
  dunit : D;
  dadd : D -> D -> D;
  dsub : D -> D -> D;
  dmul : D -> D -> D;
  (** the comparison [a < b] *)
  dltb : D -> D -> bool;
  (** the comparison [a <= b] *)
  dleb : D -> D -> bool;
  (** conversion of an integer value to [double] *)
  dof_Z : Z -> D
}.

(** IEEE 754 binary64, round to nearest even: C++ [double]. *)
#[export] Instance binary64 : DoubleArith float := {
  dzero := 0%float;
  dunit := 1%float;
  dadd := PrimFloat.add;
  dsub := PrimFloat.sub;
  dmul := PrimFloat.mul;
  dltb := PrimFloat.ltb;
  dleb := PrimFloat.leb;
  dof_Z := fun z => SF2Prim (binary_normalize prec emax z 0 false)
}.

(** Exact arithmetic on the reals. *)
#[export] Instance exact_real : DoubleArith R := {
  dzero := 0%R;
  dunit := 1%R;
  dadd := Rplus;
  dsub := Rminus;
  dmul := Rmult;
  dltb := fun a b => if Rlt_dec a b then true else false;
  dleb := fun a b => if Rle_dec a b then true else false;
  dof_Z := IZR
}.

#[export] Instance double_inhabited `{DoubleArith D} : Inhabited D :=
  populate dzero.

(** The laws of exact arithmetic that the algebraic identities of the
    specification rest on.  [exact_real] has them, [binary64] does not. *)
Class ExactArith `(DA : DoubleArith D) : Prop := {
  dadd_comm : forall a b : D, dadd a b = dadd b a;
  dadd_assoc : forall a b c : D, dadd a (dadd b c) = dadd (dadd a b) c;
  dadd_0_l : forall a : D, dadd dzero a = a;
  dmul_0_l : forall a : D, dmul dzero a = dzero;
  dmul_0_r : forall a : D, dmul a dzero = dzero;
  dmul_add_distr_l : forall a b c : D, dmul a (dadd b c) = dadd (dmul a b) (dmul a c);
  dmul_add_distr_r : forall a b c : D, dmul (dadd a b) c = dadd (dmul a c) (dmul b c)
}.

(** Eigen's [sum()] of a vector, accumulated from zero in index order.
    Eigen may associate the additions differently; that changes the result
    only through rounding. *)
Definition vsum `{DoubleArith D} (l : list D) : D := fold_left dadd l dzero.

(** ** Loops and storage *)

(** [for (int i = 0; i < n; ++i) body], as a state transformer. *)
Definition for_loop {S : Type} (n : nat) (body : nat -> S -> S) (s : S) : S :=
  fold_left (fun s i => body i s) (seq 0 n) s.

(** The cells of an object declared without initialiser. *)
Definition uninitialized {B : Type} (n : nat) : list (option B) :=
  replicate n None.

(** The content of a storage whose every cell has been written. *)
Fixpoint defined {B : Type} (cells : list (option B)) : option (list B) :=
  match cells with
  | [] => Some []
  | None :: _ => None
  | Some b :: rest =>
      match defined rest with
      | Some l => Some (b :: l)
      | None => None
      end
  end.

(** ** Kronecker products ([utilities.cc], lines 340-394) *)

(** [RowVector256d KroneckerProduct(const RowVector16d &, const RowVector16d &)] *)
Definition KroneckerProduct_RowVector16d `{DoubleArith D}
    (vec1 vec2 : list D) : list (option D) :=
  for_loop 16 (fun i kronecker_product =>
    for_loop 16 (fun j kronecker_product =>
      <[(i * 16 + j)%nat := Some (dmul (vec1 !!! i) (vec2 !!! j))]> kronecker_product)
      kronecker_product)
    (uninitialized 256).

(** Coefficient [(r, c)] of a row-major matrix with [cols] columns. *)
Definition coeff {B : Type} (cols : nat) (m : list B) (r c : nat) : option B :=
  m !! (r * cols + c)%nat.

(** [Matrix16_256d KroneckerProduct(const Matrix4_16d &)]; [mat] is row-major,
    4 x 16, the result 16 x 256. *)
Definition KroneckerProduct_Matrix4_16d `{DoubleArith D}
    (mat : list D) : list (option D) :=
  for_loop 4 (fun i kp =>
    for_loop 16 (fun j kp =>
      for_loop 4 (fun k kp =>
        for_loop 16 (fun l kp =>
          <[((i * 4 + k) * 256 + (j * 16 + l))%nat :=
              Some (dmul (mat !!! (i * 16 + j)%nat) (mat !!! (k * 16 + l)%nat))]> kp)
          kp) kp) kp)
    (uninitialized (16 * 256)).

(** [Matrix16_16d KroneckerProduct(const Matrix4d &)]; [mat] is row-major,
    4 x 4, the result 16 x 16. *)
Definition KroneckerProduct_Matrix4d `{DoubleArith D}
    (mat : list D) : list (option D) :=
  for_loop 4 (fun i kp =>
    for_loop 4 (fun j kp =>
      for_loop 4 (fun k kp =>
        for_loop 4 (fun l kp =>
          <[((i * 4 + k) * 16 + (j * 4 + l))%nat :=
              Some (dmul (mat !!! (i * 4 + j)%nat) (mat !!! (k * 4 + l)%nat))]> kp)
          kp) kp) kp)
    (uninitialized (16 * 16)).

(** ** Constants and tables ([utilities.cc], lines 60-159) *)

Definition kGenotypeCount : Z := 16.
Definition kNucleotideCount : Z := 4.
Definition kTrioCount : Z := 42875.

(** [Matrix16_2i GenotypeNumIndex()]: the comma initialiser fills the 16 x 2
    matrix row by row. *)
Definition GenotypeNumIndex : list Z :=
  [0; 0; 0; 1; 0; 2; 0; 3;
   1; 0; 1; 1; 1; 2; 1; 3;
   2; 0; 2; 1; 2; 2; 2; 3;
   3; 0; 3; 1; 3; 2; 3; 3].

(** [kGenotypeNumIndex(genotype, allele)]; [None] outside the 16 x 2 table. *)
Definition kGenotypeNumIndex (genotype allele : Z) : option Z :=
  if (0 <=? genotype) && (genotype <? kGenotypeCount)
     && (0 <=? allele) && (allele <? 2)
  then GenotypeNumIndex !! Z.to_nat (genotype * 2 + allele)
  else None.

(** [while (cond) body]; [None] when [fuel] iterations do not reach the exit. *)
Fixpoint while_loop {S : Type} (fuel : nat) (cond : S -> bool)
    (body : S -> S) (s : S) : option S :=
  match fuel with
  | O => None
  | Datatypes.S fuel' =>
      if cond s then while_loop fuel' cond body (body s) else Some s
  end.

(** A cell of [Matrix16_16_4d]: a [RowVector4d], [None] until it is assigned. *)
Definition Cell4 (D : Type) : Type := option (list D).

(** [RowVector4d::Zero()] *)
Definition RowVector4d_Zero `{DoubleArith D} : list D :=
  [dzero; dzero; dzero; dzero].

(** [Matrix16_16_4d ZeroMatrix16_16_4d()].  The inner loop is written
    [for (int j = 0; i < kGenotypeCount; ++i)]: it tests and advances [i],
    and [j] stays 0.  The loop state is [(i, mat)]. *)
Definition ZeroMatrix16_16_4d_inner `{DoubleArith D} (fuel : nat)
    (s : Z * list (Cell4 D)) : option (Z * list (Cell4 D)) :=
  let j := 0 in
  while_loop fuel
    (fun '(i, mat) => i <? kGenotypeCount)
    (fun '(i, mat) =>
       (i + 1, <[Z.to_nat (i * 16 + j) := Some RowVector4d_Zero]> mat))
    s.

Fixpoint ZeroMatrix16_16_4d_outer `{DoubleArith D} (fuel : nat)
    (s : Z * list (Cell4 D)) : option (Z * list (Cell4 D)) :=
  match fuel with
  | O => None
  | Datatypes.S fuel' =>
      let '(i, mat) := s in
      if i <? kGenotypeCount then
        match ZeroMatrix16_16_4d_inner fuel (i, mat) with
        | Some (i', mat') => ZeroMatrix16_16_4d_outer fuel' (i' + 1, mat')
        | None => None
        end
      else Some s
  end.

Definition ZeroMatrix16_16_4d `{DoubleArith D} : option (list (Cell4 D)) :=
  match ZeroMatrix16_16_4d_outer 32 (0, uninitialized 256) with
  | Some (_, mat) => Some mat
  | None => None
  end.

(** [cell(nucleotide_idx)++]; an unassigned cell stays indeterminate. *)
Definition increment `{DoubleArith D} (nucleotide_idx : nat)
    (cell : Cell4 D) : Cell4 D :=
  match cell with
  | Some v => Some (alter (fun x => dadd x dunit) nucleotide_idx v)
  | None => None
  end.

(** The loop nest of [TwoParentCounts], run on a given [genotype_count]. *)
Definition TwoParentCounts_loops `{DoubleArith D}
    (genotype_count : list (Cell4 D)) : list (Cell4 D) :=
  for_loop 4 (fun nucleotide_idx genotype_count =>
    for_loop 16 (fun genotype_idx genotype_count =>
      for_loop 2 (fun allele genotype_count =>
        if decide (kGenotypeNumIndex (Z.of_nat genotype_idx) (Z.of_nat allele)
                   = Some (Z.of_nat nucleotide_idx))
        then
          let after_row :=
            for_loop 16 (fun i gc =>
              alter (increment nucleotide_idx) (genotype_idx * 16 + i)%nat gc)
              genotype_count in
          for_loop 16 (fun i gc =>
            alter (increment nucleotide_idx) (i * 16 + genotype_idx)%nat gc)
            after_row
        else genotype_count)
        genotype_count)
      genotype_count)
    genotype_count.

(** [Matrix16_16_4d TwoParentCounts()] *)
Definition TwoParentCounts `{DoubleArith D} : option (list (Cell4 D)) :=
  match ZeroMatrix16_16_4d with
  | Some genotype_count => Some (TwoParentCounts_loops genotype_count)
  | None => None
  end.

(** [kTwoParentCounts(i, j)(k)]: [None] when the constant was not produced,
    the index is out of range or the cell is indeterminate. *)
Definition kTwoParentCounts `{DoubleArith D} (i j k : nat) : option D :=
  match TwoParentCounts with
  | Some m =>
      match m !! (i * 16 + j)%nat with
      | Some (Some v) => v !! k
      | _ => None
      end
  | None => None
  end.

(** Occurrences of nucleotide [k] among the two alleles of [genotype]. *)
Definition allele_count (genotype k : nat) : Z :=
  (if decide (kGenotypeNumIndex (Z.of_nat genotype) 0 = Some (Z.of_nat k)) then 1 else 0)
  + (if decide (kGenotypeNumIndex (Z.of_nat genotype) 1 = Some (Z.of_nat k)) then 1 else 0).

(** ** Read counts ([utilities.cc], lines 23-26 and 169-191) *)

(** [union ReadData { uint16_t reads[4]; uint64_t key; }]: the four counts. *)
Record ReadData : Type := mkReadData {
  reads0 : Z;
  reads1 : Z;
  reads2 : Z;
  reads3 : Z
}.

#[export] Instance ReadData_eq_dec : EqDecision ReadData.
Proof. solve_decision. Defined.

#[export] Instance ReadData_inhabited : Inhabited ReadData :=
  populate (mkReadData 0 0 0 0).

(** [data.reads[i]] *)
Definition reads (data : ReadData) (i : nat) : Z :=
  match i with
  | 0%nat => reads0 data
  | 1%nat => reads1 data
  | 2%nat => reads2 data
  | _ => reads3 data
  end.

(** The value a [uint16_t] holds after an [int] is stored in it. *)
Definition to_uint16 (x : Z) : Z := x mod 65536.

(** [typedef vector<ReadData> ReadDataVector; typedef vector<ReadDataVector> TrioVector;] *)
Abbreviation ReadDataVector := (list ReadData) (only parsing).
Abbreviation TrioVector := (list (list ReadData)) (only parsing).

(** [bool EqualsReadData(const ReadData &, const ReadData &)]: [std::equal]
    over the four reads. *)
Definition EqualsReadData (data1 data2 : ReadData) : bool :=
  (reads0 data1 =? reads0 data2) && (reads1 data1 =? reads1 data2)
  && (reads2 data1 =? reads2 data2) && (reads3 data1 =? reads3 data2).

(** [bool EqualsReadDataVector(const ReadDataVector &, const ReadDataVector &)]:
    elements 0, 1 and 2 of both vectors are read unchecked. *)
Definition EqualsReadDataVector (data_vec1 data_vec2 : ReadDataVector) : option bool :=
  match data_vec1 !! 0%nat, data_vec1 !! 1%nat, data_vec1 !! 2%nat,
        data_vec2 !! 0%nat, data_vec2 !! 1%nat, data_vec2 !! 2%nat with
  | Some a0, Some a1, Some a2, Some b0, Some b1, Some b2 =>
      let table := [EqualsReadData a0 b0; EqualsReadData a1 b1; EqualsReadData a2 b2] in
      Some (if forallb (fun i => i) table then true else false)
  | _, _, _, _, _, _ => None
  end.

(** ** Enumeration of read counts ([utilities.cc], lines 222-307) *)

(** A row of a [MatrixXi] with [kNucleotideCount] columns. *)
Record RowVector4i : Type := mkRow {
  col0 : Z;
  col1 : Z;
  col2 : Z;
  col3 : Z
}.

#[export] Instance RowVector4i_inhabited : Inhabited RowVector4i :=
  populate (mkRow 0 0 0 0).

Definition row_add (a b : RowVector4i) : RowVector4i :=
  mkRow (col0 a + col0 b) (col1 a + col1 b) (col2 a + col2 b) (col3 a + col3 b).

(** [Matrix4i::Identity()] *)
Definition identity_mat : list RowVector4i :=
  [mkRow 1 0 0 0; mkRow 0 1 0 0; mkRow 0 0 1 0; mkRow 0 0 0 1].

(** [(int) pow(kNucleotideCount, coverage)]: the power is below 1 for a
    negative exponent, and the conversion is defined only below 2^31, that is
    up to 4^15. *)
Definition pow_to_int (coverage : Z) : option Z :=
  if coverage <? 0 then Some 0
  else if coverage <=? 15 then Some (kNucleotideCount ^ coverage)
  else None.

(** The two loops of [EnumerateNucleotideCounts] over [counts]. *)
Definition EnumerateNucleotideCounts_fill (recursive : list RowVector4i)
    (counts : list (option RowVector4i)) : list (option RowVector4i) :=
  for_loop (length recursive) (fun j counts =>
    for_loop 4 (fun i counts =>
      <[(i + j * 4)%nat := Some (row_add (identity_mat !!! i) (recursive !!! j))]> counts)
      counts)
    counts.

(** [MatrixXi EnumerateNucleotideCounts(int coverage)], with [depth] bounding
    the nesting of the recursive calls. *)
Fixpoint EnumerateNucleotideCounts_rec (depth : nat) (coverage : Z)
    : option (list RowVector4i) :=
  match depth with
  | O => None
  | S depth' =>
      if coverage =? 1 then Some identity_mat
      else
        match pow_to_int coverage with
        | None => None
        | Some rows =>
            match EnumerateNucleotideCounts_rec depth' (coverage - 1) with
            | None => None
            | Some recursive =>
                defined (EnumerateNucleotideCounts_fill recursive
                           (uninitialized (Z.to_nat rows)))
            end
        end
  end.

(** The call for [coverage] nests [coverage] deep when it returns at all. *)
Definition EnumerateNucleotideCounts (coverage : Z) : option (list RowVector4i) :=
  EnumerateNucleotideCounts_rec (Z.to_nat coverage) coverage.

(** The test [data.reads[0] == mat(i, 0) && ...] of [GetUniqueReadDataVector]. *)
Definition same_counts (data : ReadData) (row : RowVector4i) : bool :=
  (reads0 data =? col0 row) && (reads1 data =? col1 row)
  && (reads2 data =? col2 row) && (reads3 data =? col3 row).

(** [ReadData data = {0}; data.reads[j] = mat(i, j);] *)
Definition ReadData_of_row (row : RowVector4i) : ReadData :=
  mkReadData (to_uint16 (col0 row)) (to_uint16 (col1 row))
             (to_uint16 (col2 row)) (to_uint16 (col3 row)).

(** The body of the loop of [GetUniqueReadDataVector] over the rows of
    [mat]: the inner loop looks for [row] in [data_vec], without leaving
    early. *)
Definition GetUniqueReadDataVector_step (data_vec : ReadDataVector)
    (row : RowVector4i) : ReadDataVector :=
  let is_in_vec :=
    fold_left (fun is_in_vec data =>
                 if same_counts data row then true else is_in_vec)
              data_vec false in
  if negb is_in_vec then data_vec ++ [ReadData_of_row row] else data_vec.

(** [ReadDataVector GetUniqueReadDataVector(const MatrixXi &mat)] *)
Definition GetUniqueReadDataVector (mat : list RowVector4i) : ReadDataVector :=
  fold_left GetUniqueReadDataVector_step mat [].

(** [TrioVector GetTrioVector(int coverage)] *)
Definition GetTrioVector (coverage : Z) : option TrioVector :=
  match EnumerateNucleotideCounts coverage with
  | None => None
  | Some mat =>
      let data_vec := GetUniqueReadDataVector mat in
      Some (flat_map (fun data1 =>
              flat_map (fun data2 =>
                map (fun data3 => [data1; data2; data3]) data_vec)
                data_vec)
              data_vec)
  end.

(** The loop of [IndexOfReadDataVector]: [n] iterations are left, the
    counter stands at [i]. *)
Fixpoint IndexOfReadDataVector_loop (n : nat) (i : Z)
    (data_vec : ReadDataVector) (trio_vec : TrioVector) : option Z :=
  match n with
  | O => Some (-1)
  | S n' =>
      match trio_vec !! Z.to_nat i with
      | None => None
      | Some trio =>
          match EqualsReadDataVector data_vec trio with
          | None => None
          | Some true => Some i
          | Some false => IndexOfReadDataVector_loop n' (i + 1) data_vec trio_vec
          end
      end
  end.

(** [int IndexOfReadDataVector(const ReadDataVector &data_vec)] *)
Definition IndexOfReadDataVector (data_vec : ReadDataVector) : option Z :=
  match GetTrioVector kNucleotideCount with
  | None => None
  | Some trio_vec =>
      IndexOfReadDataVector_loop (Z.to_nat kTrioCount) 0 data_vec trio_vec
  end.

(** The binomial coefficient, by Pascal's rule. *)
Fixpoint binomial (n k : nat) : nat :=
  match k, n with
  | O, _ => 1
  | S _, O => 0
  | S k', S n' => binomial n' k' + binomial n' k
  end.

(** ** Dirichlet-multinomial log-likelihood ([utilities.cc], lines 321-330) *)

(** [double DirichletMultinomialLog(const RowVector4d &alpha, const ReadData &data)];
    [lgamma] is the C library function. *)
Definition DirichletMultinomialLog `{DoubleArith D} (lgamma : D -> D)
    (alpha : list D) (data : ReadData) : D :=
  let a := vsum alpha in
  let n := reads data 0 + reads data 1 + reads data 2 + reads data 3 in
  let constant_term := dsub (lgamma a) (lgamma (dadd (dof_Z n) a)) in
  let product_term :=
    for_loop 4 (fun i product_term =>
      dadd product_term
           (dsub (lgamma (dadd (alpha !!! i) (dof_Z (reads data i))))
                 (lgamma (alpha !!! i))))
      dzero in
  dadd constant_term product_term.

(** The closed form of the specification, written out term by term. *)
Definition DirichletMultinomialLog_spec `{DoubleArith D} (lgamma : D -> D)
    (alpha0 alpha1 alpha2 alpha3 : D) (n0 n1 n2 n3 : Z) : D :=
  let sum_alpha := vsum [alpha0; alpha1; alpha2; alpha3] in
  let n := n0 + n1 + n2 + n3 in
  let term alpha_i n_i :=
    dsub (lgamma (dadd alpha_i (dof_Z n_i))) (lgamma alpha_i) in
  dadd (dsub (lgamma sum_alpha) (lgamma (dadd (dof_Z n) sum_alpha)))
       (vsum [term alpha0 n0; term alpha1 n1; term alpha2 n2; term alpha3 n3]).

(** ** The simulator ([simulation_model.cc]) *)

(** The members of [TrioModel] that the simulator reads and writes through
    its accessors ([trio_model.h] is not among the sources); matrices are
    row-major. *)
Record TrioModel (D : Type) : Type := mkTrioModel {
  germline_mutation_rate : D;
  somatic_mutation_rate : D;
  population_priors : list D;          (* 1 x 256 *)
  germline_probability_mat : list D;   (* 16 x 256 *)
  somatic_probability_mat : list D;    (* 16 x 16 *)
  alphas : list D;                     (* 16 x 4 *)
  has_mutation : bool
}.
Arguments mkTrioModel {D}.
Arguments germline_mutation_rate {D}.
Arguments somatic_mutation_rate {D}.
Arguments population_priors {D}.
Arguments germline_probability_mat {D}.
Arguments somatic_probability_mat {D}.
Arguments alphas {D}.
Arguments has_mutation {D}.

(** What the random number generators return, in the order of the calls:
    [gsl_ran_discrete], [rand] and the [reads] array that
    [gsl_ran_dirichlet] followed by [gsl_ran_multinomial] fills. *)
Record RandomSource : Type := mkRandomSource {
  discrete_draws : list Z;
  rand_draws : list Z;
  multinomial_draws : list RowVector4i
}.

(** The members of [SimulationModel] that the code uses. *)
Record SimulationModel (D : Type) : Type := mkSimulationModel {
  params_ : TrioModel D;
  coverage_ : Z;
  r : RandomSource
}.
Arguments mkSimulationModel {D}.
Arguments params_ {D}.
Arguments coverage_ {D}.
Arguments r {D}.

(** A member function of the simulator: it reads and updates the object,
    and has no result when the C++ has none. *)
Definition Sim (D A : Type) : Type :=
  SimulationModel D -> option (A * SimulationModel D).

#[export] Instance Sim_ret {D} : MRet (Sim D) :=
  fun A a s => Some (a, s).
#[export] Instance Sim_bind {D} : MBind (Sim D) :=
  fun A B k m s =>
    match m s with
    | Some (a, s') => k a s'
    | None => None
    end.

(** A value that exists only when the access is in range. *)
Definition lift {D A} (o : option A) : Sim D A :=
  fun s => match o with Some a => Some (a, s) | None => None end.

(** [params_.set_has_mutation(b)] *)
Definition set_has_mutation {D} (b : bool) : Sim D unit :=
  fun s =>
    let p := params_ s in
    Some (tt, mkSimulationModel
                (mkTrioModel (germline_mutation_rate p) (somatic_mutation_rate p)
                   (population_priors p) (germline_probability_mat p)
                   (somatic_probability_mat p) (alphas p) b)
                (coverage_ s) (r s)).

(** [params_.has_mutation()] *)
Definition get_has_mutation {D} : Sim D bool :=
  fun s => Some (has_mutation (params_ s), s).

(** [m.row(i)] and [m.col(j)] of a row-major [rows] x [cols] matrix. *)
Definition mat_row {B} (rows cols : nat) (m : list B) (i : Z) : option (list B) :=
  if (0 <=? i) && (i <? Z.of_nat rows)
  then mapM (fun c => coeff cols m (Z.to_nat i) c) (seq 0 cols)
  else None.

Definition mat_col {B} (rows cols : nat) (m : list B) (j : Z) : option (list B) :=
  if (0 <=? j) && (j <? Z.of_nat cols)
  then mapM (fun row => coeff cols m row (Z.to_nat j)) (seq 0 rows)
  else None.

Section Simulator.
Context `{DA : DoubleArith D}.

(** [int RandomDiscreteChoice(size_t K, const RowVectorXd &probabilities)]:
    [gsl_ran_discrete] reads [K] weights and returns a category in
    [[0, K)] whose weight is positive. *)
Definition RandomDiscreteChoice (K : Z) (probabilities : list D) : Sim D Z :=
  fun s =>
    match discrete_draws (r s) with
    | [] => None
    | random :: rest =>
        if (K <=? Z.of_nat (length probabilities))
           && (0 <=? random) && (random <? K)
           && match probabilities !! Z.to_nat random with
              | Some weight => dltb dzero weight
              | None => false
              end
        then Some (random,
                   mkSimulationModel (params_ s) (coverage_ s)
                     (mkRandomSource rest (rand_draws (r s))
                        (multinomial_draws (r s))))
        else None
    end.

(** [RowVectorXi RandomDiscreteChoice(size_t K, const RowVectorXd &, int size)] *)
Fixpoint RandomDiscreteChoice_samples (K : Z) (probabilities : list D)
    (size : nat) : Sim D (list Z) :=
  match size with
  | O => mret []
  | S size' =>
      random ← RandomDiscreteChoice K probabilities;
      random_samples ← RandomDiscreteChoice_samples K probabilities size';
      mret (random :: random_samples)
  end.

(** [rand()] *)
Definition rand : Sim D Z :=
  fun s =>
    match rand_draws (r s) with
    | [] => None
    | x :: rest =>
        if 0 <=? x
        then Some (x, mkSimulationModel (params_ s) (coverage_ s)
                        (mkRandomSource (discrete_draws (r s)) rest
                           (multinomial_draws (r s))))
        else None
    end.

(** [int SimulationModel::Mutate(int genotype_idx, bool is_germline,
    int parent_genotype_idx)] *)
Definition Mutate (genotype_idx : Z) (is_germline : bool)
    (parent_genotype_idx : Z) : Sim D Z :=
  mat ← (fun s =>
           lift (if negb is_germline
                 then mat_row 16 16 (somatic_probability_mat (params_ s)) genotype_idx
                 else mat_col 16 256 (germline_probability_mat (params_ s))
                        parent_genotype_idx) s);
  mutated_genotype_idx ← RandomDiscreteChoice kGenotypeCount mat;
  _ ← (if negb (mutated_genotype_idx =? genotype_idx)
       then set_has_mutation true
       else mret tt);
  mret mutated_genotype_idx.

(** The search loop of [GetChildGenotype]: [n] iterations are left, the
    counter stands at [i]. *)
Fixpoint GetChildGenotype_loop (n : nat) (i : Z)
    (child_allele1 child_allele2 : Z) : option Z :=
  match n with
  | O => Some (-1)
  | S n' =>
      match kGenotypeNumIndex i 0, kGenotypeNumIndex i 1 with
      | Some a, Some b =>
          if (child_allele1 =? a) && (child_allele2 =? b) then Some i
          else GetChildGenotype_loop n' (i + 1) child_allele1 child_allele2
      | _, _ => None
      end
  end.

(** [int SimulationModel::GetChildGenotype(int mother_genotype, int father_genotype)] *)
Definition GetChildGenotype (mother_genotype father_genotype : Z) : Sim D Z :=
  r1 ← rand;
  child_allele1 ← lift (kGenotypeNumIndex mother_genotype (Z.rem r1 2));
  r2 ← rand;
  child_allele2 ← lift (kGenotypeNumIndex father_genotype (Z.rem r2 2));
  lift (GetChildGenotype_loop (Z.to_nat kGenotypeCount) 0 child_allele1 child_allele2).

(** [ReadData SimulationModel::DirichletMultinomialSample(int genotype_idx)]:
    the multinomial draw distributes [coverage_] reads. *)
Definition DirichletMultinomialSample (genotype_idx : Z) : Sim D ReadData :=
  fun s =>
    match mat_row 16 4 (alphas (params_ s)) genotype_idx,
          multinomial_draws (r s) with
    | Some alpha, reads :: rest =>
        if (0 <=? col0 reads) && (0 <=? col1 reads) && (0 <=? col2 reads)
           && (0 <=? col3 reads)
           && (col0 reads + col1 reads + col2 reads + col3 reads =? coverage_ s)
        then Some (ReadData_of_row reads,
                   mkSimulationModel (params_ s) (coverage_ s)
                     (mkRandomSource (discrete_draws (r s)) (rand_draws (r s)) rest))
        else None
    | _, _ => None
    end.

(** A line [<probability> \t <has_mutation> \n] of the output file. *)
Record Line : Type := mkLine {
  probability : D;
  flag : bool
}.

(** [TrioModel::MutationProbability], the probability engine
    ([trio_model.cc] is not among the sources): a function of the
    parameters and the reads. *)
Variable MutationProbability : TrioModel D -> ReadDataVector -> D.

(** The body of the loop of [WriteProbability] for site [i]. *)
Definition WriteProbability_site (parent_genotypes father_genotypes : list Z)
    (i : nat) (fout : list Line) : Sim D (list Line) :=
  parent_genotype ← lift (parent_genotypes !! i);
  let mother_genotype := Z.rem parent_genotype kGenotypeCount in
  father_genotype ← lift (father_genotypes !! i);
  child_genotype ← GetChildGenotype mother_genotype father_genotype;
  child_germline_genotype ←
    Mutate child_genotype true (mother_genotype * kGenotypeCount + father_genotype);
  child_somatic_genotype ← Mutate child_germline_genotype false (-1);
  mother_somatic_genotype ← Mutate mother_genotype false (-1);
  father_somatic_genotype ← Mutate father_genotype false (-1);
  child_read ← DirichletMultinomialSample child_somatic_genotype;
  mother_read ← DirichletMultinomialSample mother_somatic_genotype;
  father_read ← DirichletMultinomialSample father_somatic_genotype;
  let data_vec := [child_read; mother_read; father_read] in
  probability ← (fun s => Some (MutationProbability (params_ s) data_vec, s));
  has_mutation ← get_has_mutation;
  _ ← set_has_mutation false;
  mret (fout ++ [mkLine probability has_mutation]).

(** The loop [for (int i = 0; i < experiment_count; ++i)], from site [i]
    with [n] sites left. *)
Fixpoint WriteProbability_loop (parent_genotypes father_genotypes : list Z)
    (n i : nat) (fout : list Line) : Sim D (list Line) :=
  match n with
  | O => mret fout
  | S n' =>
      fout' ← WriteProbability_site parent_genotypes father_genotypes i fout;
      WriteProbability_loop parent_genotypes father_genotypes n' (S i) fout'
  end.

(** [void SimulationModel::WriteProbability(const string &file_name,
    int experiment_count)]; the result is the content of the file. *)
Definition WriteProbability (experiment_count : Z) : Sim D (list Line) :=
  if experiment_count <? 0 then (fun _ => None)
  else
    parent_genotypes ←
      (fun s => RandomDiscreteChoice_samples (kGenotypeCount * kGenotypeCount)
                  (population_priors (params_ s)) (Z.to_nat experiment_count) s);
    let father_genotypes := map (fun g => Z.quot g kGenotypeCount) parent_genotypes in
    WriteProbability_loop parent_genotypes father_genotypes
      (Z.to_nat experiment_count) 0 [].
End Simulator.
Arguments Line : clear implicits.
Arguments mkLine {D}.
Arguments probability {D}.
Arguments flag {D}.


(** ** Rate setters ([simulation_model.cc], lines 22-29 and 249-263) *)

(** The outcome of an operation that may end the run through [Die]. *)
Inductive Outcome (A : Type) : Type :=
  | Completed (a : A)
  | Fatal (msg : string).
Arguments Completed {A}.
Arguments Fatal {A}.

Section RateSetters.
Context `{DA : DoubleArith D}.

(** The builders of the transition matrices in [trio_model.cc] (not among
    the sources), from a rate to a row-major matrix. *)
Variable GermlineProbabilityMat : D -> list D.
Variable SomaticProbabilityMat : D -> list D.

Definition rate_in_range (rate : D) : bool :=
  dleb dzero rate && dleb rate dunit.

(** Modelled from the spec: [TrioModel::set_germline_mutation_rate]
    ([trio_model.cc] is not among the sources).  Sections 4.2 and 7: a rate
    outside [0,1] is rejected before any matrix is built and no partial
    state is produced; a valid rate is stored and the germline transition
    rebuilt from it. *)
Definition TrioModel_set_germline_mutation_rate (rate : D)
    (p : TrioModel D) : Outcome (TrioModel D) :=
  if rate_in_range rate
  then Completed (mkTrioModel rate (somatic_mutation_rate p)
                    (population_priors p) (GermlineProbabilityMat rate)
                    (somatic_probability_mat p) (alphas p) (has_mutation p))
  else Fatal "germline mutation rate outside [0, 1]".

(** Modelled from the spec: [TrioModel::set_somatic_mutation_rate]
    ([trio_model.cc] is not among the sources), as the germline setter. *)
Definition TrioModel_set_somatic_mutation_rate (rate : D)
    (p : TrioModel D) : Outcome (TrioModel D) :=
  if rate_in_range rate
  then Completed (mkTrioModel (germline_mutation_rate p) rate
                    (population_priors p) (germline_probability_mat p)
                    (SomaticProbabilityMat rate) (alphas p) (has_mutation p))
  else Fatal "somatic mutation rate outside [0, 1]".

(** [void SimulationModel::set_germline_mutation_rate(double rate)] *)
Definition set_germline_mutation_rate (rate : D)
    (s : SimulationModel D) : Outcome (SimulationModel D) :=
  match TrioModel_set_germline_mutation_rate rate (params_ s) with
  | Completed p => Completed (mkSimulationModel p (coverage_ s) (r s))
  | Fatal msg => Fatal msg
  end.

(** [void SimulationModel::set_somatic_mutation_rate(double rate)] *)
Definition set_somatic_mutation_rate (rate : D)
    (s : SimulationModel D) : Outcome (SimulationModel D) :=
  match TrioModel_set_somatic_mutation_rate rate (params_ s) with
  | Completed p => Completed (mkSimulationModel p (coverage_ s) (r s))
  | Fatal msg => Fatal msg
  end.

(** [SimulationModel::SimulationModel(coverage, germline_mutation_rate,
    somatic_mutation_rate)]: [default_params] is the default-initialised
    [params_], [seed] the generator that [Seed] allocates. *)
Definition SimulationModel_new (default_params : TrioModel D)
    (seed : RandomSource) (coverage : Z)
    (germline_mutation_rate somatic_mutation_rate : D)
    : Outcome (SimulationModel D) :=
  match TrioModel_set_germline_mutation_rate germline_mutation_rate default_params with
  | Fatal msg => Fatal msg
  | Completed p =>
      match TrioModel_set_somatic_mutation_rate somatic_mutation_rate p with
      | Fatal msg => Fatal msg
      | Completed p' => Completed (mkSimulationModel p' coverage seed)
      end
  end.
End RateSetters.

(** ** Transition matrices at rate zero *)

(** Modelled from the spec: the 4 x 16 germline transition of
    [trio_model.cc] (not among the sources) at rate 0.  Section 4.2: the
    "distribution over a single inherited allele given a parental genotype,
    perturbed by rate g"; unperturbed, each of the parent's two alleles has
    weight 1/2. *)
Definition GermlineProbabilityMatSingle_rate0 : list float :=
  flat_map (fun nucleotide =>
    map (fun genotype =>
           PrimFloat.mul (dof_Z (allele_count genotype nucleotide)) 0.5%float)
        (seq 0 16))
    (seq 0 4).

(** Modelled from the spec: the 4 x 4 nucleotide substitution matrix of
    somatic mutation at rate 0 (section 4.2: "off-diagonal mass proportional
    to s"): the identity. *)
Definition SomaticNucleotideMat_rate0 : list float :=
  flat_map (fun i =>
    map (fun j => if decide (i = j) then 1%float else 0%float) (seq 0 4))
    (seq 0 4).

(** Section 4.2: both are Kronecker-expanded, to 16 x 256 and to 16 x 16,
    by the functions of [utilities.cc]; the products are evaluated here. *)
Definition GermlineProbabilityMat_rate0 : list float :=
  Eval vm_compute in
    default [] (defined (KroneckerProduct_Matrix4_16d GermlineProbabilityMatSingle_rate0)).

Definition SomaticProbabilityMat_rate0 : list float :=
  Eval vm_compute in
    default [] (defined (KroneckerProduct_Matrix4d SomaticNucleotideMat_rate0)).

(** A parameter object with both rates 0; [priors] and [alpha] are free. *)
Definition params_rate0 (priors alpha : list float) : TrioModel float :=
  mkTrioModel 0%float 0%float priors
    GermlineProbabilityMat_rate0 SomaticProbabilityMat_rate0 alpha false.

(** ** Binning ([bin_driver.cc], lines 65-103; [count_bin_trio.cc], lines 39-64) *)

Definition kNumBins : Z := 10.

(** The value of a [double] that holds an integer, an infinity or a NaN. *)
Inductive IntegralDouble : Type :=
  | XNaN
  | XInf (negative : bool)
  | XInt (z : Z).

(** [floor(x)]: the finite value [(-1)^s * m * 2^e] rounded down. *)
Definition floor (x : float) : IntegralDouble :=
  match Prim2SF x with
  | S754_zero _ => XInt 0
  | S754_infinity s => XInf s
  | S754_nan => XNaN
  | S754_finite s m e => XInt (Z.shiftl (if s then Z.neg m else Z.pos m) e)
  end.

(** [fmin(x, k)] for an integer [k]: a NaN argument is ignored. *)
Definition fmin (x : IntegralDouble) (k : Z) : IntegralDouble :=
  match x with
  | XNaN => XInt k
  | XInf false => XInt k
  | XInf true => XInf true
  | XInt z => XInt (Z.min z k)
  end.

(** [(int) x]: defined for a value in the range of [int]. *)
Definition to_int (x : IntegralDouble) : option Z :=
  match x with
  | XInt z => if (- 2 ^ 31 <=? z) && (z <? 2 ^ 31) then Some z else None
  | _ => None
  end.

(** [bin = (int) fmin(floor(probability * kNumBins), kNumBins - 1)] *)
Definition bin_of (probability : float) : option Z :=
  to_int (fmin (floor (PrimFloat.mul probability (dof_Z kNumBins))) (kNumBins - 1)).

(** *** Formatted extraction from a [stringstream]

    [str >> x] as the C++11 library defines it for the classic locale: the
    sentry, the characters that [num_get] accumulates for the type of [x],
    their conversion, and the state of the stream afterwards. *)

(** A [stringstream] that is only read: the characters not yet extracted,
    and whether the stream is good (neither [eofbit] nor [failbit] is
    set). *)
Record stringstream : Type := mkStream {
  unread : string;
  good : bool
}.

(** [stringstream str(line)] *)
Definition stringstream_of (line : string) : stringstream := mkStream line true.

(** What [str >> x] does to the variable [x]: it stores a value, or it
    leaves [x] as it is. *)
Inductive Extracted (A : Type) : Type :=
  | Stored (value : A)
  | Untouched.
Arguments Stored {A}.
Arguments Untouched {A}.

(** The variable [x] after [str >> x]. *)
Definition assigned {A : Type} (read : Extracted A) (x : A) : A :=
  match read with
  | Stored value => value
  | Untouched => x
  end.

Definition is_space (c : ascii) : bool :=
  let n := N_of_ascii c in
  ((9 <=? n) && (n <=? 13))%N || (n =? 32)%N.

Fixpoint skip_space (s : string) : string :=
  match s with
  | String c s' => if is_space c then skip_space s' else s
  | EmptyString => s
  end.

Definition is_empty (s : string) : bool :=
  match s with
  | EmptyString => true
  | String _ _ => false
  end.

(** The sentry of a formatted input function.  A stream that is not good
    fails.  Otherwise the white space is skipped; at the end of the
    characters the stream fails with [eofbit] and [failbit], else the
    characters from the first that is no white space are handed on. *)
Definition sentry (str : stringstream) : option string :=
  if good str then
    match skip_space (unread str) with
    | EmptyString => None
    | s => Some s
    end
  else None.

(** The stream after its sentry failed. *)
Definition failed_sentry (str : stringstream) : stringstream :=
  mkStream (if good str then EmptyString else unread str) false.

Definition digit (c : ascii) : option Z :=
  let n := Z.of_N (N_of_ascii c) in
  if (48 <=? n) && (n <=? 57) then Some (n - 48) else None.

(** Reads digits: the number read so far, the count of digits, the rest. *)
Fixpoint read_digits (s : string) (acc : Z) (count : nat) : Z * nat * string :=
  match s with
  | String c s' =>
      match digit c with
      | Some d => read_digits s' (acc * 10 + d) (S count)
      | None => (acc, count, s)
      end
  | EmptyString => (acc, count, s)
  end.

Definition read_sign (s : string) : bool * string :=
  match s with
  | String "-"%char s' => (true, s')
  | String "+"%char s' => (false, s')
  | _ => (false, s)
  end.

(** The conversion of [strtod]: the double nearest to [m * 10^e], ties to
    even, for [m >= 0]; the quotient or the product of two integers,
    rounded once.  The result is an infinity when the value is too large. *)
Definition nearest_double (negative : bool) (m e : Z) : spec_float :=
  match m with
  | Zpos p =>
      let scale := Z.to_pos (10 ^ Z.abs e) in
      if 0 <=? e
      then SFdiv prec emax (S754_finite negative (p * scale) 0)
                           (S754_finite false 1 0)
      else SFdiv prec emax (S754_finite negative p 0)
                           (S754_finite false scale 0)
  | _ => S754_zero negative
  end.

(** [numeric_limits<double>::max()] *)
Definition DBL_MAX : float := 0x1.fffffffffffffp+1023%float.

(** [str >> x] for a [double x].  After the sentry, the characters of a
    number are accumulated: a sign, digits, a decimal point with digits,
    and, when a digit has been read, [e] or [E] with a sign and digits; the
    first character that does not continue the number ends it.  Characters
    that are no number (no digit, or an exponent without digit) store 0 and
    set [failbit]; a value too large stores the largest double with its
    sign and sets [failbit]; else the nearest double is stored.  [eofbit]
    is set when the number ends with the characters. *)
Definition extract_double (str : stringstream)
    : Extracted float * stringstream :=
  match sentry str with
  | None => (Untouched, failed_sentry str)
  | Some s =>
      let '(negative, s1) := read_sign s in
      let '(int_part, n1, s2) := read_digits s1 0 0 in
      let '(m, n2, s3) :=
        match s2 with
        | String "."%char s' => read_digits s' int_part 0
        | _ => (int_part, 0%nat, s2)
        end in
      let has_mantissa := negb (n1 + n2 =? 0)%nat in
      let '(exponent, has_exponent, s4) :=
        match s3 with
        | String c s' =>
            if has_mantissa && ((c =? "e")%char || (c =? "E")%char) then
              let '(minus, s5) := read_sign s' in
              let '(e, n3, s6) := read_digits s5 0 0 in
              (if minus then - e else e, negb (n3 =? 0)%nat, s6)
            else (0, true, s3)
        | EmptyString => (0, true, s3)
        end in
      if has_mantissa && has_exponent then
        match nearest_double negative m (exponent - Z.of_nat n2) with
        | S754_infinity _ =>
            (Stored (if negative then PrimFloat.opp DBL_MAX else DBL_MAX),
             mkStream s4 false)
        | value => (Stored (SF2Prim value), mkStream s4 (negb (is_empty s4)))
        end
      else (Stored 0%float, mkStream s4 false)
  end.

(** [str >> x] for an [int x]: a sign and decimal digits.  No digit stores
    0 and sets [failbit]; a value outside the range of [int] stores the
    nearest limit and sets [failbit]. *)
Definition extract_int (str : stringstream) : Extracted Z * stringstream :=
  match sentry str with
  | None => (Untouched, failed_sentry str)
  | Some s =>
      let '(negative, s1) := read_sign s in
      let '(magnitude, n, s2) := read_digits s1 0 0 in
      let value := if negative then - magnitude else magnitude in
      if (n =? 0)%nat then (Stored 0, mkStream s2 false)
      else if value <? - 2 ^ 31 then (Stored (- 2 ^ 31), mkStream s2 false)
      else if 2 ^ 31 <=? value then (Stored (2 ^ 31 - 1), mkStream s2 false)
      else (Stored value, mkStream s2 (negb (is_empty s2)))
  end.

(** [line.erase(remove(line.begin(), line.end(), '\n'), line.end())] *)
Fixpoint remove_newlines (line : string) : string :=
  match line with
  | String c rest =>
      if (N_of_ascii c =? 10)%N then remove_newlines rest
      else String c (remove_newlines rest)
  | EmptyString => EmptyString
  end.

(** *** [CountBin] and the loop of [count_bin_trio.cc] *)

(** A call of [printf] in the report loop of [CountBin]. *)
Inductive BinReport : Type :=
  | SitesInBin (has_mutation_percent : float) (count total bin : Z)
  | NoSitesInBin (bin : Z).

(** The body of the reading loop of [CountBin] for one line.  The state is
    [(probability, has_mutation, counts, totals)]: the two variables are
    declared before the loop, so that an extraction that fails at its
    sentry leaves the value of the line before. *)
Definition CountBin_line (line : string) (st : float * Z * list Z * list Z)
    : option (float * Z * list Z * list Z) :=
  let '(probability, has_mutation, counts, totals) := st in
  let str := stringstream_of (remove_newlines line) in
  let '(read, str) := extract_double str in
  let probability := assigned read probability in
  let '(read, str) := extract_int str in
  let has_mutation := assigned read has_mutation in
  match bin_of probability with
  | None => None
  | Some bin =>
      if (0 <=? bin) && (bin <? kNumBins) then
        let totals' := alter Z.succ (Z.to_nat bin) totals in
        let counts' :=
          if has_mutation =? 1 then alter Z.succ (Z.to_nat bin) counts
          else counts in
        Some (probability, has_mutation, counts', totals')
      else None
  end.

Fixpoint CountBin_read (lines : list string) (st : float * Z * list Z * list Z)
    : option (float * Z * list Z * list Z) :=
  match lines with
  | [] => Some st
  | line :: rest =>
      match CountBin_line line st with
      | Some st' => CountBin_read rest st'
      | None => None
      end
  end.

(** [void CountBin(ifstream &fin)]: [lines] are the lines [getline] returns,
    the result the calls of [printf] in order. *)
Definition CountBin (lines : list string) : option (list BinReport) :=
  match CountBin_read lines (0%float, 0, replicate 10 0, replicate 10 0) with
  | None => None
  | Some (_, _, counts, totals) =>
      Some (map (fun i =>
                   let c := counts !!! i in
                   let t := totals !!! i in
                   if 0 <? t
                   then SitesInBin
                          (PrimFloat.mul (PrimFloat.div (dof_Z c) (dof_Z t)) (dof_Z 100))
                          c t (Z.of_nat i)
                   else NoSitesInBin (Z.of_nat i))
                (seq 0 (Z.to_nat kNumBins)))
  end.

(** The body of the reading loop of [main] in [count_bin_trio.cc] for one
    line.  The state is [(probability, neg_bin, total, counts,
    probability_count)]; [probability] starts at 0.0, and
    [probability_count] is declared without initialiser, so it is
    indeterminate ([None]) from the start. *)
Definition count_bin_trio_line (line : string)
    (st : float * Z * Z * list Z * option Z)
    : option (float * Z * Z * list Z * option Z) :=
  let '(probability, neg_bin, total, counts, probability_count) := st in
  let probability_cut := 0.1%float in
  let str := stringstream_of (remove_newlines line) in
  let '(read, str) := extract_double str in
  let probability := assigned read probability in
  match bin_of probability with
  | None => None
  | Some bin =>
      let probability_count' :=
        if PrimFloat.ltb probability_cut probability
        then option_map Z.succ probability_count
        else probability_count in
      if bin <? 0
      then Some (probability, neg_bin + 1, total + 1, counts, probability_count')
      else Some (probability, neg_bin, total + 1,
                 alter Z.succ (Z.to_nat bin) counts, probability_count')
  end.

(** ** Printing and comparison ([utilities.cc], lines 115-121 and 404-406) *)

#[export] Instance Cell4_inhabited {D : Type} : Inhabited (Cell4 D) :=
  populate None.

(** [void PrintMatrix16_16_4d(const Matrix16_16_4d &mat)].  The inner loop
    is written as in [ZeroMatrix16_16_4d]: it tests and advances [i], and
    [j] stays 0.  The loop state is [(i, out)], [out] the cells sent to
    [cout] so far. *)
Definition PrintMatrix16_16_4d_inner {D : Type} (fuel : nat)
    (mat : list (Cell4 D)) (s : Z * list (Cell4 D))
    : option (Z * list (Cell4 D)) :=
  let j := 0 in
  while_loop fuel
    (fun '(i, out) => i <? kGenotypeCount)
    (fun '(i, out) => (i + 1, out ++ [mat !!! Z.to_nat (i * 16 + j)]))
    s.

Fixpoint PrintMatrix16_16_4d_outer {D : Type} (fuel : nat)
    (mat : list (Cell4 D)) (s : Z * list (Cell4 D))
    : option (Z * list (Cell4 D)) :=
  match fuel with
  | O => None
  | Datatypes.S fuel' =>
      let '(i, out) := s in
      if i <? kGenotypeCount then
        match PrintMatrix16_16_4d_inner fuel mat (i, out) with
        | Some (i', out') => PrintMatrix16_16_4d_outer fuel' mat (i' + 1, out')
        | None => None
        end
      else Some s
  end.

Definition PrintMatrix16_16_4d {D : Type} (mat : list (Cell4 D))
    : option (list (Cell4 D)) :=
  match PrintMatrix16_16_4d_outer 32 mat (0, []) with
  | Some (_, out) => Some out
  | None => None
  end.

(** [const double kEpsilon = numeric_limits<double>::epsilon()]: 2^-52. *)
Definition kEpsilon : float := 0x1p-52%float.

(** [bool Equal(double a, double b)] *)
Definition Equal (a b : float) : bool :=
  PrimFloat.ltb (PrimFloat.abs (PrimFloat.sub a b)) kEpsilon.

(** ** The other cases of [bin_driver.cc] and [count_bin_trio.cc] *)

(** [a + b] on [int]: defined when the sum is in the range of [int]. *)
Definition int_add (a b : Z) : option Z :=
  if (- 2 ^ 31 <=? a + b) && (a + b <? 2 ^ 31) then Some (a + b) else None.

(** A call of [printf] in the reports of [CountBinTrio] and of
    [count_bin_trio.cc]; a value that was never assigned prints as [None]. *)
Inductive TrioReport : Type :=
  | SitesAboveCut (percent : option float) (probability_count : option Z)
                  (total : Z) (probability_cut : float)
  | SitesInTrioBin (percent : float) (count total bin : Z)
  | NoSitesInTrioBin (bin : Z).

(** The body of the reading loop of [CountBinTrio] for one line; the state
    is [(probability, total, probability_count, counts)].  [Die] ends the
    run. *)
Definition CountBinTrio_line (line : string) (st : float * Z * Z * list Z)
    : option (Outcome (float * Z * Z * list Z)) :=
  let '(probability, total, probability_count, counts) := st in
  let probability_cut := 0.1%float in
  let str := stringstream_of (remove_newlines line) in
  let '(read, str) := extract_double str in
  let probability := assigned read probability in
  match bin_of probability with
  | None => None
  | Some bin =>
      let total' := total + 1 in
      let probability_count' :=
        if PrimFloat.ltb probability_cut probability
        then probability_count + 1
        else probability_count in
      if bin <? 0 then Some (Fatal "Negative probability.")
      else if bin <? kNumBins
      then Some (Completed (probability, total', probability_count',
                            alter Z.succ (Z.to_nat bin) counts))
      else None
  end.

Fixpoint CountBinTrio_read (lines : list string) (st : float * Z * Z * list Z)
    : option (Outcome (float * Z * Z * list Z)) :=
  match lines with
  | [] => Some (Completed st)
  | line :: rest =>
      match CountBinTrio_line line st with
      | Some (Completed st') => CountBinTrio_read rest st'
      | Some (Fatal msg) => Some (Fatal msg)
      | None => None
      end
  end.

(** The report loop over the bins, shared by [CountBinTrio] and
    [count_bin_trio.cc]. *)
Definition trio_bin_reports (counts : list Z) (total : Z) : list TrioReport :=
  map (fun i =>
         let c := counts !!! i in
         if 0 <? c
         then SitesInTrioBin
                (PrimFloat.mul (PrimFloat.div (dof_Z c) (dof_Z total)) (dof_Z 100))
                c total (Z.of_nat i)
         else NoSitesInTrioBin (Z.of_nat i))
      (seq 0 (Z.to_nat kNumBins)).

(** [void CountBinTrio(ifstream &fin)]: [lines] are the lines [getline]
    returns, the result the calls of [printf] in order.  [probability] is
    declared without initialiser: [indeterminate] is the value that the
    variable holds until an extraction stores one. *)
Definition CountBinTrio (indeterminate : float) (lines : list string)
    : option (Outcome (list TrioReport)) :=
  match CountBinTrio_read lines (indeterminate, 0, 0, replicate 10 0) with
  | None => None
  | Some (Fatal msg) => Some (Fatal msg)
  | Some (Completed (_, total, probability_count, counts)) =>
      let percent :=
        PrimFloat.mul (PrimFloat.div (dof_Z probability_count) (dof_Z total))
                      (dof_Z 100) in
      Some (Completed
              (SitesAboveCut (Some percent) (Some probability_count) total 0.1%float
               :: trio_bin_reports counts total))
  end.

(** The reading loop of [main] in [count_bin_trio.cc]. *)
Fixpoint count_bin_trio_read (lines : list string)
    (st : float * Z * Z * list Z * option Z)
    : option (float * Z * Z * list Z * option Z) :=
  match lines with
  | [] => Some st
  | line :: rest =>
      match count_bin_trio_line line st with
      | Some st' => count_bin_trio_read rest st'
      | None => None
      end
  end.

(** [int main(int argc, const char *argv[])] of [count_bin_trio.cc]:
    [argv] holds the [argc] arguments, [open_file] the lines of the files
    that can be read. *)
Definition count_bin_trio_main (argv : list string)
    (open_file : string -> option (list string))
    : option (Outcome (list TrioReport)) :=
  if (length argv <? 2)%nat then Some (Fatal "USAGE: count_bin_trio <input.txt>")
  else
    match argv !! 1%nat with
    | None => None
    | Some file_name =>
        match open_file file_name with
        | None => Some (Fatal "Input file cannot be read.")
        | Some lines =>
            match count_bin_trio_read lines
                    (0%float, 0, 0, replicate 10 0, None) with
            | None => None
            | Some (_, neg_bin, total, counts, probability_count) =>
                let percent :=
                  option_map
                    (fun count =>
                       PrimFloat.mul (PrimFloat.div (dof_Z count) (dof_Z total))
                                     (dof_Z 100))
                    probability_count in
                Some (Completed
                  (SitesAboveCut percent probability_count total 0.1%float
                   :: (if 0 <? neg_bin
                       then [SitesInTrioBin
                               (PrimFloat.mul
                                  (PrimFloat.div (dof_Z neg_bin) (dof_Z total))
                                  (dof_Z 100))
                               neg_bin total (-1)]
                       else [])
                   ++ trio_bin_reports counts total))
            end
        end
    end.

(** The three extractions [str >> index; str >> has_mutation_total;
    str >> has_no_mutation_total] of cases 3 and 4, on the variables
    [(index, has_mutation_total, has_no_mutation_total)], which are
    declared before the loop and start at 0. *)
Definition extract_counts (line : string) (vars : Z * Z * Z) : Z * Z * Z :=
  let '(index, has_mutation_total, has_no_mutation_total) := vars in
  let str := stringstream_of (remove_newlines line) in
  let '(read, str) := extract_int str in
  let index := assigned read index in
  let '(read, str) := extract_int str in
  let has_mutation_total := assigned read has_mutation_total in
  let '(read, str) := extract_int str in
  let has_no_mutation_total := assigned read has_no_mutation_total in
  (index, has_mutation_total, has_no_mutation_total).

(** The body of the reading loop of [CountProbability] for one line; the
    state is the three variables and [probabilities]. *)
Definition CountProbability_line (line : string)
    (st : Z * Z * Z * list float) : option (Z * Z * Z * list float) :=
  let '(vars, probabilities) := st in
  let '(index, has_mutation_total, has_no_mutation_total) :=
    extract_counts line vars in
  match int_add has_mutation_total has_no_mutation_total with
  | None => None
  | Some total_trios =>
      let probability :=
        if total_trios =? 0 then 0%float
        else PrimFloat.div (dof_Z has_mutation_total) (dof_Z total_trios) in
      Some (index, has_mutation_total, has_no_mutation_total,
            probabilities ++ [probability])
  end.

Fixpoint CountProbability_read (lines : list string)
    (st : Z * Z * Z * list float) : option (Z * Z * Z * list float) :=
  match lines with
  | [] => Some st
  | line :: rest =>
      match CountProbability_line line st with
      | Some st' => CountProbability_read rest st'
      | None => None
      end
  end.

(** [void CountProbability(ifstream &fin)]: the result is the content of
    the output file, one probability per line. *)
Definition CountProbability (lines : list string) : option (list float) :=
  match CountProbability_read lines (0, 0, 0, []) with
  | None => None
  | Some (_, probabilities) => Some probabilities
  end.

(** The body of the reading loop of [CountProbabilityIndex] for one line;
    the state is the three variables and [(has_mutation_totals,
    trio_totals)], two arrays of [kTrioCount] counters indexed by [index]
    without a check. *)
Definition CountProbabilityIndex_line (line : string)
    (st : Z * Z * Z * list Z * list Z) : option (Z * Z * Z * list Z * list Z) :=
  let '(vars, has_mutation_totals, trio_totals) := st in
  let '(index, has_mutation_total, has_no_mutation_total) :=
    extract_counts line vars in
  match int_add has_mutation_total has_no_mutation_total with
  | None => None
  | Some total_trios =>
      if (0 <=? index) && (index <? kTrioCount) then
        match has_mutation_totals !! Z.to_nat index,
              trio_totals !! Z.to_nat index with
        | Some has_mutation_sum, Some trio_sum =>
            match int_add has_mutation_sum has_mutation_total,
                  int_add trio_sum total_trios with
            | Some has_mutation_sum', Some trio_sum' =>
                Some (index, has_mutation_total, has_no_mutation_total,
                      <[Z.to_nat index := has_mutation_sum']> has_mutation_totals,
                      <[Z.to_nat index := trio_sum']> trio_totals)
            | _, _ => None
            end
        | _, _ => None
        end
      else None
  end.

Fixpoint CountProbabilityIndex_read (lines : list string)
    (st : Z * Z * Z * list Z * list Z) : option (Z * Z * Z * list Z * list Z) :=
  match lines with
  | [] => Some st
  | line :: rest =>
      match CountProbabilityIndex_line line st with
      | Some st' => CountProbabilityIndex_read rest st'
      | None => None
      end
  end.

(** The probability that the second loop of [CountProbabilityIndex]
    computes for one trio index. *)
Definition index_probability (has_mutation_sum trio_sum : Z) : float :=
  if has_mutation_sum =? 0 then 0%float
  else PrimFloat.div (dof_Z has_mutation_sum) (dof_Z trio_sum).

(** [void CountProbabilityIndex(ifstream &fin)]: the second loop visits the
    [kTrioCount] counters of both arrays in index order. *)
Definition CountProbabilityIndex (lines : list string) : option (list float) :=
  let zeros := replicate (Z.to_nat kTrioCount) 0 in
  match CountProbabilityIndex_read lines (0, 0, 0, zeros, zeros) with
  | None => None
  | Some (_, has_mutation_totals, trio_totals) =>
      Some (zip_with index_probability has_mutation_totals trio_totals)
  end.

(** ** Auxiliary definitions of the proofs *)

#[export] Instance exact_real_laws : ExactArith exact_real.
Proof. split; intros; simpl; ring. Qed.

(** The blocks [block 0, ..., block (n - 1)] laid out one after the other. *)
Definition blocks {B : Type} (block : nat -> list B) (n : nat) : list B :=
  concat (map block (seq 0 n)).

(** Row [i] of the outer product of [vec1] and [vec2]. *)
Definition kronecker_block `{DoubleArith D} (vec1 vec2 : list D) (i : nat) : list D :=
  map (fun j => dmul (vec1 !!! i) (vec2 !!! j)) (seq 0 16).

(** A vector of 16 entries that starts with [front] and is 0 elsewhere. *)
Definition padded16 `{DoubleArith D} (front : list D) : list D :=
  take 16 (front ++ replicate 16 dzero).

(** The matrix that [EnumerateNucleotideCounts] builds for coverage [n + 1],
    with the recursion unrolled. *)
Fixpoint enumerated_rows (n : nat) : list RowVector4i :=
  match n with
  | O => identity_mat
  | S n' =>
      flat_map (fun row => map (fun unit => row_add unit row) identity_mat)
               (enumerated_rows n')
  end.

(** Four non-negative counts that sum to [c]. *)
Definition counts_of (c x0 x1 x2 x3 : Z) : Prop :=
  0 <= x0 /\ 0 <= x1 /\ 0 <= x2 /\ 0 <= x3 /\ x0 + x1 + x2 + x3 = c.

Definition row_counts (c : Z) (row : RowVector4i) : Prop :=
  counts_of c (col0 row) (col1 row) (col2 row) (col3 row).

Definition read_counts (c : Z) (data : ReadData) : Prop :=
  counts_of c (reads0 data) (reads1 data) (reads2 data) (reads3 data).

(** Every 4-tuple of non-negative counts that sums to [m], once each. *)
Definition compositions4 (m : nat) : list ReadData :=
  a ← seq 0 (S m);
  b ← seq 0 (S (m - a));
  (fun c => mkReadData (Z.of_nat a) (Z.of_nat b) (Z.of_nat c)
                       (Z.of_nat (m - a - b - c)))
    <$> seq 0 (S (m - a - b)).

(** [sum_down f m] is [f m + f (m - 1) + ... + f 0]. *)
Fixpoint sum_down (f : nat -> nat) (m : nat) : nat :=
  match m with
  | O => f O
  | S m' => f m + sum_down f m'
  end.

(** The entries of [row] fit [uint16_t]. *)
Definition row_fits (row : RowVector4i) : Prop :=
  0 <= col0 row < 65536 /\ 0 <= col1 row < 65536
  /\ 0 <= col2 row < 65536 /\ 0 <= col3 row < 65536.

(** Every cell outside column 0 of [m] is unassigned. *)
Definition columns_unassigned {D : Type} (m : list (Cell4 D)) : bool :=
  forallb (fun i =>
    forallb (fun j =>
      match m !! (i * 16 + S j)%nat with
      | Some None => true
      | _ => false
      end) (seq 0 15)) (seq 0 16).

(** Every cell [(i, j)] of [m] holds at [k] the number of alleles of
    genotypes [i] and [j] that are nucleotide [k]. *)
Definition holds_allele_counts (m : list (Cell4 float)) : bool :=
  forallb (fun i =>
    forallb (fun j =>
      forallb (fun k =>
        match m !! (i * 16 + j)%nat with
        | Some (Some v) =>
            match v !! k with
            | Some x =>
                PrimFloat.Leibniz.eqb x
                  (dof_Z (allele_count i k + allele_count j k))
            | None => false
            end
        | _ => false
        end) (seq 0 4)) (seq 0 16)) (seq 0 16).

(** The parameters with the mutation flag cleared. *)
Definition unflagged {D : Type} (p : TrioModel D) : TrioModel D :=
  mkTrioModel (germline_mutation_rate p) (somatic_mutation_rate p)
    (population_priors p) (germline_probability_mat p)
    (somatic_probability_mat p) (alphas p) false.


(** Test data: a simulator at coverage 4 with both rates 0, equal weights
    for the 256 parent pairs and alphas of 1, on given random draws. *)
Definition simulator_rate0 (discrete rand : list Z)
    (multinomial : list RowVector4i) : SimulationModel float :=
  mkSimulationModel
    (params_rate0 (replicate 256 1%float) (replicate 64 1%float)) 4
    (mkRandomSource discrete rand multinomial).

(** A non-negative integer, [+inf] or NaN. *)
Definition nonneg_floor (x : IntegralDouble) : Prop :=
  match x with
  | XNaN => True
  | XInf negative => negative = false
  | XInt z => 0 <= z
  end.

(** ** Auxiliary definitions of the further properties *)

(** The reads of [data] are values of [uint16_t]. *)
Definition reads_in_range (data : ReadData) : Prop :=
  0 <= reads0 data < 65536 /\ 0 <= reads1 data < 65536
  /\ 0 <= reads2 data < 65536 /\ 0 <= reads3 data < 65536.

(** The three nested loops of [GetTrioVector] over [data_vec]. *)
Definition trio_cube (data_vec : ReadDataVector) : TrioVector :=
  flat_map (fun data1 =>
    flat_map (fun data2 => map (fun data3 => [data1; data2; data3]) data_vec)
             data_vec)
    data_vec.

(** The index tuples that a nest of four [for] loops with the bounds [a],
    [b], [c] and [d] visits, in the order of the visits. *)
Definition quads (a b c d : nat) : list (nat * nat * nat * nat) :=
  flat_map (fun i =>
    flat_map (fun j =>
      flat_map (fun k => map (fun l => (i, j, k, l)) (seq 0 d)) (seq 0 c))
      (seq 0 b))
    (seq 0 a).

(** A function of four loop counters, applied to a tuple of [quads]. *)
Definition on_quad {B : Type} (f : nat -> nat -> nat -> nat -> B)
    (q : nat * nat * nat * nat) : B :=
  let '(i, j, k, l) := q in f i j k l.

(** Weights that [gsl_ran_discrete] can return every index of. *)
Definition positive_weights `{DoubleArith D} (weights : list D) : Prop :=
  Forall (fun w => dltb dzero w = true) weights.

(** A parameter object whose tables have their sizes (1 x 256, 16 x 256,
    16 x 16 and 16 x 4) and whose weights are all positive. *)
Definition model_ready `{DoubleArith D} (p : TrioModel D) : Prop :=
  length (population_priors p) = 256%nat
  /\ length (germline_probability_mat p) = 4096%nat
  /\ length (somatic_probability_mat p) = 256%nat
  /\ length (alphas p) = 64%nat
  /\ positive_weights (population_priors p)
  /\ positive_weights (germline_probability_mat p)
  /\ positive_weights (somatic_probability_mat p).

(** An array that [gsl_ran_multinomial] can fill for [coverage] reads. *)
Definition valid_reads (coverage : Z) (row : RowVector4i) : Prop :=
  0 <= col0 row /\ 0 <= col1 row /\ 0 <= col2 row /\ 0 <= col3 row
  /\ col0 row + col1 row + col2 row + col3 row = coverage.

(** The simulator [s] with the generators in the state [source]. *)
Definition with_source {D : Type} (s : SimulationModel D)
    (source : RandomSource) : SimulationModel D :=
  mkSimulationModel (params_ s) (coverage_ s) source.

(** Test data: a simulator at coverage 4 whose tables hold the weight 1
    at every place, on given random draws. *)
Definition simulator_uniform (discrete rand : list Z)
    (multinomial : list RowVector4i) : SimulationModel float :=
  mkSimulationModel
    (mkTrioModel 1%float 1%float (replicate 256 1%float) (replicate 4096 1%float)
       (replicate 256 1%float) (replicate 64 1%float) false)
    4 (mkRandomSource discrete rand multinomial).

(** The sum of the counters of an array. *)
Definition Zsum (l : list Z) : Z := fold_right Z.add 0 l.


(** Every cell [(i, 0)] of [m] holds at [k] the number of alleles of the
    genotypes [i] and 0 (AA) that are nucleotide [k]. *)
Definition column0_holds_allele_counts (m : list (Cell4 float)) : bool :=
  forallb (fun i =>
    forallb (fun k =>
      match m !! (i * 16)%nat with
      | Some (Some v) =>
          match v !! k with
          | Some x =>
              PrimFloat.Leibniz.eqb x
                (dof_Z (allele_count i k + allele_count 0 k))
          | None => false
          end
      | _ => false
      end) (seq 0 4)) (seq 0 16).

(** The [c] lowest digits of [row] in base 4, the lowest first: the reads
    of the sequence that row [row] of the enumeration stands for. *)
Fixpoint base4_digits (c : nat) (row : nat) : list nat :=
  match c with
  | O => []
  | S c' => (row mod 4)%nat :: base4_digits c' (row / 4)%nat
  end.

(** The number of digits equal to [k]. *)
Definition digit_count (k : nat) (digits : list nat) : Z :=
  Z.of_nat (length (List.filter (fun d => Nat.eqb d k) digits)).

(** ** Auxiliary definitions of the properties of the binning programs *)

(** The number of elements of [l] that satisfy [f]. *)
Definition count_of {A : Type} (f : A -> bool) (l : list A) : Z :=
  Z.of_nat (length (List.filter f l)).

(** The bin of the specification: [min(floor(p * 10), 9)] is [i], the
    product being the product of doubles. *)
Definition in_bin (i : Z) (p : float) : bool :=
  match fmin (floor (PrimFloat.mul p 10)) 9 with
  | XInt bin => bin =? i
  | _ => false
  end.

(** [min(floor(p * 10), 9)] is below 0. *)
Definition in_negative_bin (p : float) : bool :=
  match fmin (floor (PrimFloat.mul p 10)) 9 with
  | XInt bin => bin <? 0
  | _ => false
  end.

(** [min(floor(p * 10), 9)] is a value of [int]. *)
Definition bin_in_int (p : float) : Prop :=
  exists bin : Z,
    fmin (floor (PrimFloat.mul p 10)) 9 = XInt bin /\ - 2 ^ 31 <= bin.

(** The values of [probability] and [has_mutation] in [CountBin] after the
    two extractions of each line, from the values that the variables have
    before the first line. *)
Fixpoint CountBin_values (lines : list string) (probability : float)
    (has_mutation : Z) : list (float * Z) :=
  match lines with
  | [] => []
  | line :: rest =>
      let '(read1, str) :=
        extract_double (stringstream_of (remove_newlines line)) in
      let '(read2, _) := extract_int str in
      let probability' := assigned read1 probability in
      let has_mutation' := assigned read2 has_mutation in
      (probability', has_mutation') :: CountBin_values rest probability' has_mutation'
  end.

(** The value of [probability] after the extraction of each line, in a
    loop that extracts one double per line, from the value that the
    variable holds before the first line. *)
Fixpoint probabilities_read (lines : list string) (probability : float)
    : list float :=
  match lines with
  | [] => []
  | line :: rest =>
      let probability' :=
        assigned (fst (extract_double (stringstream_of (remove_newlines line))))
                 probability in
      probability' :: probabilities_read rest probability'
  end.

(** The values of [index], [has_mutation_total] and
    [has_no_mutation_total] in cases 3 and 4 after the extractions of each
    line. *)
Fixpoint counts_read (lines : list string) (vars : Z * Z * Z)
    : list (Z * Z * Z) :=
  match lines with
  | [] => []
  | line :: rest =>
      let vars' := extract_counts line vars in
      vars' :: counts_read rest vars'
  end.

(** A line that holds three integers: each of the three extractions stores
    a value, whatever the variables held. *)
Definition holds_counts (line : string) (index has_mutation_total
    has_no_mutation_total : Z) : Prop :=
  exists str1 str2 str3 : stringstream,
    extract_int (stringstream_of (remove_newlines line)) = (Stored index, str1)
    /\ extract_int str1 = (Stored has_mutation_total, str2)
    /\ extract_int str2 = (Stored has_no_mutation_total, str3).

(** The three values of a line of cases 3 and 4: the index of the trio,
    the number of trios with a mutation and the number without. *)
Definition trio_index (v : Z * Z * Z) : Z := fst (fst v).
Definition with_mutation (v : Z * Z * Z) : Z := snd (fst v).
Definition without_mutation (v : Z * Z * Z) : Z := snd v.
Definition trios (v : Z * Z * Z) : Z := with_mutation v + without_mutation v.

(** Values that [CountProbabilityIndex] can count: an index of the
    reference vector of trios, and counts that are not negative. *)
Definition counts_in_range (v : Z * Z * Z) : Prop :=
  0 <= trio_index v < 42875 /\ 0 <= with_mutation v /\ 0 <= without_mutation v.

(** The sum of [f] over the lines read for trio [i]. *)
Definition trio_sum (f : Z * Z * Z -> Z) (i : Z) (values : list (Z * Z * Z)) : Z :=
  Zsum (map (fun v => if trio_index v =? i then f v else 0) values).

(** ** Auxiliary definitions of the lines of [WriteProbability] *)

(** The parameters with the mutation flag set to [b]. *)
Definition with_flag {D : Type} (p : TrioModel D) (b : bool) : TrioModel D :=
  mkTrioModel (germline_mutation_rate p) (somatic_mutation_rate p)
    (population_priors p) (germline_probability_mat p)
    (somatic_probability_mat p) (alphas p) b.









(** * Properties *)

(** ** Loops that fill a storage block by block *)

Lemma for_loop_S {S : Type} (n : nat) (body : nat -> S -> S) (s : S) :
  for_loop (Datatypes.S n) body s = body n (for_loop n body s).
Proof.
  unfold for_loop. rewrite seq_S, fold_left_app. reflexivity.
Qed.

Lemma defined_Some {B : Type} (l : list B) : defined (Some <$> l) = Some l.
Proof.
  induction l as [|b l IH]; [reflexivity|].
  change (Some <$> b :: l) with (Some b :: (Some <$> l)).
  cbn [defined]. rewrite IH. reflexivity.
Qed.

Lemma blocks_S {B : Type} (block : nat -> list B) (n : nat) :
  blocks block (S n) = blocks block n ++ block n.
Proof.
  unfold blocks. rewrite seq_S, map_app, concat_app. simpl.
  rewrite app_nil_r. reflexivity.
Qed.

Lemma length_blocks {B : Type} (block : nat -> list B) (k n : nat) :
  (forall j, length (block j) = k) -> length (blocks block n) = (n * k)%nat.
Proof.
  intros Hk. induction n as [|n IH]; [reflexivity|].
  rewrite blocks_S, length_app, IH, Hk. lia.
Qed.

Lemma lookup_blocks {B : Type} (block : nat -> list B) (k n i j : nat) :
  (forall t, length (block t) = k) -> (i < n)%nat -> (j < k)%nat ->
  blocks block n !! (i * k + j)%nat = block i !! j.
Proof.
  intros Hk. induction n as [|n IH]; intros Hi Hj; [lia|].
  rewrite blocks_S.
  destruct (decide (i = n)) as [->|Hne].
  - rewrite lookup_app_r; rewrite (length_blocks block k n Hk); [|lia].
    f_equal. lia.
  - rewrite lookup_app_l; [apply IH; lia|].
    rewrite (length_blocks block k n Hk). nia.
Qed.

(** A loop whose [j]-th iteration overwrites the [j]-th block of [k]
    unwritten cells leaves the blocks in order. *)
Lemma for_loop_blocks {B : Type} (k n : nat)
    (inner : nat -> list (option B) -> list (option B))
    (block : nat -> list B) :
  (forall j, length (block j) = k) ->
  (forall j pre post, (j < n)%nat -> length pre = (j * k)%nat ->
     inner j (pre ++ uninitialized k ++ post) = pre ++ (Some <$> block j) ++ post) ->
  for_loop n inner (uninitialized (n * k)) = Some <$> blocks block n.
Proof.
  intros Hk Hinner.
  cut (forall m, (m <= n)%nat ->
         for_loop m inner (uninitialized (n * k))
         = (Some <$> blocks block m) ++ uninitialized ((n - m) * k)).
  { intros Hm. rewrite (Hm n (Nat.le_refl n)), Nat.sub_diag. simpl.
    apply app_nil_r. }
  induction m as [|m IH]; intros Hle.
  - rewrite Nat.sub_0_r. reflexivity.
  - rewrite for_loop_S, IH by lia.
    replace (n - m)%nat with (S (n - S m)) by lia.
    change (S (n - S m) * k)%nat with (k + (n - S m) * k)%nat.
    unfold uninitialized at 1. rewrite replicate_add.
    fold (@uninitialized B k). fold (@uninitialized B ((n - S m) * k)).
    rewrite Hinner; [| lia |].
    + rewrite blocks_S, fmap_app, <- app_assoc. reflexivity.
    + rewrite length_fmap. apply length_blocks, Hk.
Qed.

Lemma tabulate_lookup_total {B : Type} `{Inhabited B} (l : list B) :
  map (fun j => l !!! j) (seq 0 (length l)) = l.
Proof.
  apply list_eq. intros i.
  change (map (fun j => l !!! j) (seq 0 (length l)))
    with ((fun j => l !!! j) <$> seq 0 (length l)).
  rewrite list_lookup_fmap.
  destruct (decide (i < length l)%nat) as [Hlt|Hge].
  - rewrite lookup_seq_lt by exact Hlt. simpl.
    destruct (lookup_lt_is_Some_2 l i Hlt) as [x Hx].
    rewrite Hx. f_equal. apply list_lookup_total_correct, Hx.
  - rewrite lookup_seq_ge by lia. symmetry. apply lookup_ge_None. lia.
Qed.

(** ** Kronecker product of two vectors (C5) *)

Section KroneckerVector.
Context `{DA : DoubleArith D}.

Lemma KroneckerProduct_RowVector16d_blocks (vec1 vec2 : list D) :
  KroneckerProduct_RowVector16d vec1 vec2
  = Some <$> blocks (kronecker_block vec1 vec2) 16.
Proof.
  unfold KroneckerProduct_RowVector16d.
  apply (for_loop_blocks 16 16); [reflexivity|].
  intros i pre post _ Hpre.
  unfold for_loop, kronecker_block. rewrite <- Hpre. simpl.
  rewrite !insert_app_r. reflexivity.
Qed.

Lemma KroneckerProduct_RowVector16d_lookup (vec1 vec2 : list D) (i j : nat) :
  (i < 16)%nat -> (j < 16)%nat ->
  KroneckerProduct_RowVector16d vec1 vec2 !! (i * 16 + j)%nat
  = Some (Some (dmul (vec1 !!! i) (vec2 !!! j))).
Proof.
  intros Hi Hj.
  rewrite KroneckerProduct_RowVector16d_blocks, list_lookup_fmap.
  rewrite (lookup_blocks _ 16) by (reflexivity || lia).
  unfold kronecker_block.
  change (map ?f ?l) with (f <$> l).
  rewrite list_lookup_fmap, lookup_seq_lt by lia. reflexivity.
Qed.

Lemma kronecker_blocks_outer (vec1 vec2 : list D) :
  length vec1 = 16%nat -> length vec2 = 16%nat ->
  blocks (kronecker_block vec1 vec2) 16
  = concat (map (fun a => map (dmul a) vec2) vec1).
Proof.
  intros H1 H2. unfold blocks, kronecker_block.
  transitivity (concat (map (fun a => map (dmul a) vec2)
                          (map (fun i => vec1 !!! i) (seq 0 (length vec1)))));
    [|rewrite tabulate_lookup_total; reflexivity].
  rewrite H1, map_map. f_equal. apply map_ext. intros i.
  transitivity (map (dmul (vec1 !!! i))
                  (map (fun j => vec2 !!! j) (seq 0 (length vec2))));
    [|rewrite tabulate_lookup_total; reflexivity].
  rewrite H2, map_map. reflexivity.
Qed.

Context {EA : ExactArith DA}.

Lemma fold_left_dadd (l : list D) (a : D) :
  fold_left dadd l a = dadd a (fold_left dadd l dzero).
Proof.
  revert a. induction l as [|x l IH]; intros a; simpl.
  - rewrite dadd_comm, dadd_0_l. reflexivity.
  - rewrite (IH (dadd a x)), (IH (dadd dzero x)), dadd_0_l, dadd_assoc.
    reflexivity.
Qed.

Lemma vsum_cons (x : D) (l : list D) : vsum (x :: l) = dadd x (vsum l).
Proof.
  unfold vsum. simpl. rewrite fold_left_dadd, dadd_0_l. reflexivity.
Qed.

Lemma vsum_app (l1 l2 : list D) : vsum (l1 ++ l2) = dadd (vsum l1) (vsum l2).
Proof.
  unfold vsum. rewrite fold_left_app. apply fold_left_dadd.
Qed.

Lemma vsum_scale (a : D) (l : list D) : vsum (map (dmul a) l) = dmul a (vsum l).
Proof.
  induction l as [|x l IH].
  - unfold vsum. simpl. rewrite dmul_0_r. reflexivity.
  - simpl. rewrite !vsum_cons, IH, dmul_add_distr_l. reflexivity.
Qed.

Lemma vsum_outer (u v : list D) :
  vsum (concat (map (fun a => map (dmul a) v) u)) = dmul (vsum u) (vsum v).
Proof.
  induction u as [|a u IH].
  - unfold vsum. simpl. rewrite dmul_0_l. reflexivity.
  - simpl. rewrite vsum_app, vsum_scale, IH, vsum_cons, dmul_add_distr_r.
    reflexivity.
Qed.
End KroneckerVector.

(** C5, as the code has it: for 16-entry vectors [u] and [v] over any
    arithmetic, binary64 included, entry [i * 16 + j] of
    [KroneckerProduct(u, v)] is written and holds the product [u(i) * v(j)];
    and where the arithmetic is exact, all 256 entries are written and sum
    to [(sum of u) * (sum of v)]. *)
Theorem KroneckerProduct_RowVector16d_correct :
  (forall (D : Type) (DA : DoubleArith D) (u v : list D) (i j : nat),
      length u = 16%nat -> length v = 16%nat -> (i < 16)%nat -> (j < 16)%nat ->
      KroneckerProduct_RowVector16d u v !! (i * 16 + j)%nat
      = Some (Some (dmul (u !!! i) (v !!! j))))
  /\ (forall (D : Type) (DA : DoubleArith D), ExactArith DA ->
      forall u v : list D,
      length u = 16%nat -> length v = 16%nat ->
      exists kp : list D,
        defined (KroneckerProduct_RowVector16d u v) = Some kp
        /\ length kp = 256%nat
        /\ vsum kp = dmul (vsum u) (vsum v)).
Proof.
  split.
  - intros D DA u v i j _ _ Hi Hj.
    apply KroneckerProduct_RowVector16d_lookup; assumption.
  - intros D DA EA u v Hu Hv.
    exists (blocks (kronecker_block u v) 16). split; [|split].
    + rewrite KroneckerProduct_RowVector16d_blocks. apply defined_Some.
    + apply (length_blocks _ 16 16). reflexivity.
    + rewrite kronecker_blocks_outer by assumption. apply vsum_outer.
Qed.

(** The entry at [(1, 0)] of a product of binary64 vectors, and the sum of
    a product of real vectors. *)
Lemma KroneckerProduct_RowVector16d_correct_witness :
  KroneckerProduct_RowVector16d
    (padded16 [0.1; 0.2]%float) (padded16 [0.3]%float) !! (1 * 16 + 0)%nat
  = Some (Some (dmul (padded16 [0.1; 0.2]%float !!! 1%nat)
                     (padded16 [0.3]%float !!! 0%nat)))
  /\ exists kp : list R,
       defined (KroneckerProduct_RowVector16d
                  (padded16 [1; 2]%R) (padded16 [3]%R)) = Some kp
       /\ length kp = 256%nat
       /\ vsum kp = dmul (vsum (padded16 [1; 2]%R)) (vsum (padded16 [3]%R)).
Proof.
  split.
  - apply (proj1 KroneckerProduct_RowVector16d_correct);
      [reflexivity | reflexivity | lia | lia].
  - apply (proj2 KroneckerProduct_RowVector16d_correct _ _ exact_real_laws);
      reflexivity.
Defined.

(** C5 as stated fails for the sum in binary64: with [u = (0.1, 0.2, 0, ...)]
    and [v = (0.3, 0, ...)] the entries sum to [0.1 * 0.3 + 0.2 * 0.3], which
    is not the double [(0.1 + 0.2) * 0.3].  Every other term of the three
    sums is 0, so the order of the additions plays no part. *)
Lemma KroneckerProduct_RowVector16d_sum_counterexample :
  exists kp : list float,
    length (padded16 [0.1; 0.2]%float) = 16%nat
    /\ length (padded16 [0.3]%float) = 16%nat
    /\ defined (KroneckerProduct_RowVector16d
                  (padded16 [0.1; 0.2]%float) (padded16 [0.3]%float)) = Some kp
    /\ vsum kp <> dmul (vsum (padded16 [0.1; 0.2]%float))
                       (vsum (padded16 [0.3]%float)).
Proof.
  eexists. split; [reflexivity|]. split; [reflexivity|].
  split; [vm_compute; reflexivity|].
  intros Heq.
  assert (Hb : PrimFloat.eqb
                 (vsum (blocks (kronecker_block (padded16 [0.1; 0.2]%float)
                                                (padded16 [0.3]%float)) 16))
                 (dmul (vsum (padded16 [0.1; 0.2]%float))
                       (vsum (padded16 [0.3]%float))) = true).
  { rewrite <- Heq. vm_compute. reflexivity. }
  vm_compute in Hb. discriminate Hb.
Qed.

(** ** Dirichlet-multinomial log-likelihood (C4) *)

(** C4: for every 4-entry [alpha] and every read-count 4-tuple [data], over
    any arithmetic and any [lgamma], [DirichletMultinomialLog(alpha, data)]
    is [lgamma(sum alpha) - lgamma(n + sum alpha)] plus the sum over [i] of
    [lgamma(alpha_i + n_i) - lgamma(alpha_i)], with [n] the sum of the four
    read counts. *)
Theorem DirichletMultinomialLog_closed_form :
  forall (D : Type) (DA : DoubleArith D) (lgamma : D -> D)
         (alpha0 alpha1 alpha2 alpha3 : D) (data : ReadData),
    DirichletMultinomialLog lgamma [alpha0; alpha1; alpha2; alpha3] data
    = DirichletMultinomialLog_spec lgamma alpha0 alpha1 alpha2 alpha3
        (reads0 data) (reads1 data) (reads2 data) (reads3 data).
Proof.
  intros D DA lgamma alpha0 alpha1 alpha2 alpha3 [n0 n1 n2 n3].
  unfold DirichletMultinomialLog, DirichletMultinomialLog_spec, for_loop, vsum.
  reflexivity.
Qed.

(** In exact arithmetic the order of the four terms does not matter. *)
Lemma DirichletMultinomialLog_real (lgamma : R -> R)
    (alpha0 alpha1 alpha2 alpha3 : R) (data : ReadData) :
  let term alpha_i n_i := (lgamma (alpha_i + IZR n_i) - lgamma alpha_i)%R in
  let sum_alpha := (alpha0 + alpha1 + alpha2 + alpha3)%R in
  let n := reads0 data + reads1 data + reads2 data + reads3 data in
  DirichletMultinomialLog lgamma [alpha0; alpha1; alpha2; alpha3] data
  = (lgamma sum_alpha - lgamma (IZR n + sum_alpha)
     + (term alpha3 (reads3 data) + term alpha2 (reads2 data)
        + term alpha1 (reads1 data) + term alpha0 (reads0 data)))%R.
Proof.
  destruct data as [n0 n1 n2 n3].
  unfold DirichletMultinomialLog, for_loop, vsum. simpl.
  rewrite !Rplus_0_l. ring.
Qed.

(** ** The parent count table (C9) *)

(** [ZeroMatrix16_16_4d] returns, and assigns column 0 only. *)
Lemma ZeroMatrix16_16_4d_column0 `{DA : DoubleArith D} :
  ZeroMatrix16_16_4d
  = Some (blocks (fun i => Some RowVector4d_Zero :: replicate 15 None) 16).
Proof. reflexivity. Qed.

(** C9 at the entry (mother AA, father AC): [ZeroMatrix16_16_4d] leaves
    the cell unassigned, so the count of A there is indeterminate, where C9
    says 3; in column 0, which is assigned, the entry (AA, AA) is 4. *)
Theorem kTwoParentCounts_unassigned_cell :
  (exists mat : list (Cell4 float),
      ZeroMatrix16_16_4d = Some mat
      /\ length mat = 256%nat
      /\ coeff 16 mat 0 0 = Some (Some RowVector4d_Zero)
      /\ coeff 16 mat 0 1 = Some None)
  /\ kTwoParentCounts (D := float) 0 1 0 = None
  /\ kTwoParentCounts (D := float) 0 0 0 = Some 4%float.
Proof.
  split; [|split].
  - eexists. split; [apply ZeroMatrix16_16_4d_column0|].
    split; [|split]; reflexivity.
  - vm_compute. reflexivity.
  - vm_compute. reflexivity.
Qed.

(** Every cell outside column 0 is unassigned, and the loops of
    [TwoParentCounts] leave it so. *)
Lemma TwoParentCounts_columns_unassigned :
  exists mat : list (Cell4 float),
    TwoParentCounts = Some mat /\ columns_unassigned mat = true.
Proof. eexists. split; [reflexivity|]. vm_compute. reflexivity. Qed.

(** Started from a matrix of zeros, as the documentation of
    [ZeroMatrix16_16_4d] promises, the loops of [TwoParentCounts] produce
    the counts that C9 states, at all 16 x 16 x 4 places. *)
Lemma TwoParentCounts_loops_from_zeros :
  holds_allele_counts
    (TwoParentCounts_loops (replicate 256 (Some RowVector4d_Zero))) = true.
Proof. vm_compute. reflexivity. Qed.

(** ** The child genotype (C10) *)

Lemma Z_below_16 (P : Z -> Prop) :
  P 0 -> P 1 -> P 2 -> P 3 -> P 4 -> P 5 -> P 6 -> P 7 -> P 8 -> P 9 ->
  P 10 -> P 11 -> P 12 -> P 13 -> P 14 -> P 15 ->
  forall z, 0 <= z < 16 -> P z.
Proof.
  intros H0 H1 H2 H3 H4 H5 H6 H7 H8 H9 H10 H11 H12 H13 H14 H15 z Hz.
  assert (Hcases : z = 0 \/ z = 1 \/ z = 2 \/ z = 3 \/ z = 4 \/ z = 5 \/ z = 6
                   \/ z = 7 \/ z = 8 \/ z = 9 \/ z = 10 \/ z = 11 \/ z = 12
                   \/ z = 13 \/ z = 14 \/ z = 15) by lia.
  repeat (destruct Hcases as [-> | Hcases]; [assumption|]).
  subst z. assumption.
Qed.

Lemma Z_below_4 (P : Z -> Prop) :
  P 0 -> P 1 -> P 2 -> P 3 -> forall z, 0 <= z < 4 -> P z.
Proof.
  intros H0 H1 H2 H3 z Hz.
  assert (Hcases : z = 0 \/ z = 1 \/ z = 2 \/ z = 3) by lia.
  repeat (destruct Hcases as [-> | Hcases]; [assumption|]).
  subst z. assumption.
Qed.

(** An allele read from the table is a nucleotide index. *)
Lemma kGenotypeNumIndex_allele (genotype x : Z) :
  0 <= genotype < 16 -> 0 <= x ->
  exists a, kGenotypeNumIndex genotype (Z.rem x 2) = Some a /\ 0 <= a < 4.
Proof.
  intros Hg Hx.
  assert (Hrem : Z.rem x 2 = 0 \/ Z.rem x 2 = 1).
  { rewrite Z.rem_mod_nonneg by lia.
    pose proof (Z.mod_pos_bound x 2). lia. }
  pattern genotype; revert genotype Hg.
  destruct Hrem as [-> | ->];
    apply Z_below_16; (eexists; split; [reflexivity | lia]).
Qed.

(** Every ordered pair of nucleotide indices is a row of the table, and the
    search loop stops at it. *)
Lemma GetChildGenotype_loop_finds (a b : Z) :
  0 <= a < 4 -> 0 <= b < 4 ->
  GetChildGenotype_loop (Z.to_nat kGenotypeCount) 0 a b = Some (a * 4 + b)
  /\ kGenotypeNumIndex (a * 4 + b) 0 = Some a
  /\ kGenotypeNumIndex (a * 4 + b) 1 = Some b.
Proof.
  intros Ha Hb.
  pattern b; revert b Hb; apply Z_below_4;
    pattern a; revert a Ha; apply Z_below_4; repeat split; reflexivity.
Qed.

(** C10: for parent genotypes in [[0, 16)] and any two results of [rand],
    [GetChildGenotype] returns an index in [[0, 16)], the row of the table
    that holds the allele picked from the mother and the one picked from
    the father; the search never falls through to -1, since every ordered
    pair of nucleotides is a row of the table. *)
Theorem GetChildGenotype_in_range :
  forall (D : Type) (s : SimulationModel D)
         (mother_genotype father_genotype r1 r2 : Z) (rest : list Z),
    0 <= mother_genotype < 16 -> 0 <= father_genotype < 16 ->
    0 <= r1 -> 0 <= r2 ->
    rand_draws (r s) = r1 :: r2 :: rest ->
    (exists (child : Z) (s' : SimulationModel D),
        GetChildGenotype mother_genotype father_genotype s = Some (child, s')
        /\ 0 <= child < 16
        /\ kGenotypeNumIndex child 0 = kGenotypeNumIndex mother_genotype (Z.rem r1 2)
        /\ kGenotypeNumIndex child 1 = kGenotypeNumIndex father_genotype (Z.rem r2 2)
        /\ params_ s' = params_ s)
    /\ (forall a b : Z, 0 <= a < 4 -> 0 <= b < 4 ->
          exists i : Z, 0 <= i < 16
            /\ kGenotypeNumIndex i 0 = Some a /\ kGenotypeNumIndex i 1 = Some b).
Proof.
  intros D s m f r1 r2 rest Hm Hf Hr1 Hr2 Hdraws. split.
  - destruct (kGenotypeNumIndex_allele m r1 Hm Hr1) as (a & Ha & Harange).
    destruct (kGenotypeNumIndex_allele f r2 Hf Hr2) as (b & Hb & Hbrange).
    destruct (GetChildGenotype_loop_finds a b Harange Hbrange) as (Hloop & H0 & H1).
    exists (a * 4 + b). eexists.
    split; [|split; [lia | split; [congruence | split; [congruence|]]]].
    + unfold GetChildGenotype, mbind, Sim_bind, rand, lift.
      rewrite Hdraws. cbn [rand_draws r].
      destruct (Z.leb_spec 0 r1) as [_|]; [|lia].
      rewrite Ha. cbn [rand_draws r].
      destruct (Z.leb_spec 0 r2) as [_|]; [|lia].
      rewrite Hb, Hloop. reflexivity.
    + reflexivity.
  - intros a b Ha Hb.
    destruct (GetChildGenotype_loop_finds a b Ha Hb) as (_ & H0 & H1).
    exists (a * 4 + b). split; [lia | split; assumption].
Qed.

(** Mother AC, father GT, [rand] returning 1 then 0: the child is CG. *)
Lemma GetChildGenotype_in_range_witness :
  (exists (child : Z) (s' : SimulationModel float),
      GetChildGenotype 1 11
        (mkSimulationModel (params_rate0 [] []) 4 (mkRandomSource [] [1; 0] []))
      = Some (child, s')
      /\ 0 <= child < 16
      /\ kGenotypeNumIndex child 0 = kGenotypeNumIndex 1 (Z.rem 1 2)
      /\ kGenotypeNumIndex child 1 = kGenotypeNumIndex 11 (Z.rem 0 2)
      /\ params_ s' = params_rate0 [] [])
  /\ (forall a b : Z, 0 <= a < 4 -> 0 <= b < 4 ->
        exists i : Z, 0 <= i < 16
          /\ kGenotypeNumIndex i 0 = Some a /\ kGenotypeNumIndex i 1 = Some b).
Proof.
  apply (GetChildGenotype_in_range float
           (mkSimulationModel (params_rate0 [] []) 4 (mkRandomSource [] [1; 0] []))
           1 11 1 0 []); [lia | lia | lia | lia | reflexivity].
Defined.

(** ** Enumeration of the read counts (C2) *)

Lemma insert_at_offset {B : Type} (pre l : list B) (i : nat) (x : B) :
  <[(i + length pre)%nat := x]> (pre ++ l) = pre ++ <[i := x]> l.
Proof. rewrite Nat.add_comm. apply insert_app_r. Qed.

Lemma length_flat_map_const {A B : Type} (f : A -> list B) (l : list A) (k : nat) :
  (forall x, length (f x) = k) -> length (flat_map f l) = (length l * k)%nat.
Proof.
  intros Hk. induction l as [|x l IH]; [reflexivity|].
  cbn [flat_map]. rewrite length_app, Hk, IH. reflexivity.
Qed.

Lemma length_enumerated_rows (n : nat) :
  length (enumerated_rows n) = Z.to_nat (4 ^ Z.of_nat (S n)).
Proof.
  induction n as [|n IH]; [reflexivity|].
  cbn [enumerated_rows]. rewrite (length_flat_map_const _ _ 4) by reflexivity.
  rewrite IH. rewrite (Nat2Z.inj_succ (S n)), Z.pow_succ_r by lia.
  rewrite Z2Nat.inj_mul; lia.
Qed.

Lemma EnumerateNucleotideCounts_fill_rows (recursive : list RowVector4i) :
  EnumerateNucleotideCounts_fill recursive (uninitialized (length recursive * 4))
  = Some <$> flat_map (fun row => map (fun unit => row_add unit row) identity_mat)
                      recursive.
Proof.
  unfold EnumerateNucleotideCounts_fill.
  rewrite (for_loop_blocks 4 (length recursive) _
             (fun j => map (fun unit => row_add unit (recursive !!! j)) identity_mat)).
  - f_equal. unfold blocks. rewrite flat_map_concat_map. f_equal.
    transitivity (map (fun row => map (fun unit => row_add unit row) identity_mat)
                    (map (fun j => recursive !!! j) (seq 0 (length recursive))));
      [|rewrite tabulate_lookup_total; reflexivity].
    rewrite map_map. reflexivity.
  - reflexivity.
  - intros j pre post _ Hpre. unfold for_loop. cbn [seq fold_left].
    rewrite <- Hpre, !insert_at_offset. reflexivity.
Qed.

Lemma EnumerateNucleotideCounts_rec_step (depth : nat) (coverage : Z) :
  coverage <> 1 ->
  EnumerateNucleotideCounts_rec (S depth) coverage
  = match pow_to_int coverage with
    | None => None
    | Some rows =>
        match EnumerateNucleotideCounts_rec depth (coverage - 1) with
        | None => None
        | Some recursive =>
            defined (EnumerateNucleotideCounts_fill recursive
                       (uninitialized (Z.to_nat rows)))
        end
    end.
Proof.
  intros Hne. cbn [EnumerateNucleotideCounts_rec].
  destruct (Z.eqb_spec coverage 1) as [Heq|_]; [contradiction|reflexivity].
Qed.

(** For a coverage from 1 to 15 the function returns the unrolled matrix. *)
Lemma EnumerateNucleotideCounts_rows (n : nat) :
  (n < 15)%nat ->
  EnumerateNucleotideCounts (Z.of_nat (S n)) = Some (enumerated_rows n).
Proof.
  unfold EnumerateNucleotideCounts. rewrite Nat2Z.id.
  induction n as [|n IH]; intros Hn; [reflexivity|].
  rewrite EnumerateNucleotideCounts_rec_step by lia.
  unfold pow_to_int.
  destruct (Z.ltb_spec (Z.of_nat (S (S n))) 0) as [|_]; [lia|].
  destruct (Z.leb_spec (Z.of_nat (S (S n))) 15) as [_|]; [|lia].
  replace (Z.of_nat (S (S n)) - 1) with (Z.of_nat (S n)) by lia.
  rewrite IH by lia.
  replace (Z.to_nat (kNucleotideCount ^ Z.of_nat (S (S n))))
    with (length (enumerated_rows n) * 4)%nat.
  - rewrite EnumerateNucleotideCounts_fill_rows. apply defined_Some.
  - rewrite length_enumerated_rows. unfold kNucleotideCount.
    rewrite (Nat2Z.inj_succ (S n)), Z.pow_succ_r by lia.
    rewrite Z2Nat.inj_mul; lia.
Qed.

Lemma enumerated_rows_counts (n : nat) :
  Forall (row_counts (Z.of_nat (S n))) (enumerated_rows n).
Proof.
  induction n as [|n IH].
  - cbn [enumerated_rows identity_mat].
    repeat (apply Forall_cons;
            [unfold row_counts, counts_of; cbn [col0 col1 col2 col3]; lia|]).
    apply Forall_nil.
  - apply Forall_forall. intros row Hin.
    cbn [enumerated_rows] in Hin.
    apply in_flat_map in Hin. destruct Hin as (prev & Hprev & Hrow).
    rewrite Forall_forall in IH.
    specialize (IH prev Hprev).
    destruct prev as [p0 p1 p2 p3].
    unfold row_counts, counts_of in IH. cbn [col0 col1 col2 col3] in IH.
    cbn [map identity_mat In] in Hrow.
    unfold row_counts, counts_of.
    destruct Hrow as [<- | [<- | [<- | [<- | []]]]];
      unfold row_add; cbn [col0 col1 col2 col3]; lia.
Qed.

Lemma enumerated_rows_complete (n : nat) (row : RowVector4i) :
  row_counts (Z.of_nat (S n)) row -> In row (enumerated_rows n).
Proof.
  revert row. induction n as [|n IH]; intros [x0 x1 x2 x3];
    unfold row_counts, counts_of; cbn [col0 col1 col2 col3]; intros H.
  - assert (Hcases : (x0 = 1 /\ x1 = 0 /\ x2 = 0 /\ x3 = 0)
                     \/ (x0 = 0 /\ x1 = 1 /\ x2 = 0 /\ x3 = 0)
                     \/ (x0 = 0 /\ x1 = 0 /\ x2 = 1 /\ x3 = 0)
                     \/ (x0 = 0 /\ x1 = 0 /\ x2 = 0 /\ x3 = 1)) by lia.
    cbn [enumerated_rows identity_mat In].
    destruct Hcases as [(-> & -> & -> & ->) | [(-> & -> & -> & ->)
                       | [(-> & -> & -> & ->) | (-> & -> & -> & ->)]]];
      auto.
  - cbn [enumerated_rows]. apply in_flat_map.
    assert (Hpos : 1 <= x0 \/ 1 <= x1 \/ 1 <= x2 \/ 1 <= x3) by lia.
    destruct Hpos as [Hp | [Hp | [Hp | Hp]]].
    + exists (mkRow (x0 - 1) x1 x2 x3). split.
      * apply IH. unfold row_counts, counts_of. cbn [col0 col1 col2 col3]. lia.
      * cbn [map identity_mat In row_add col0 col1 col2 col3].
        left. unfold row_add; cbn [col0 col1 col2 col3]; f_equal; lia.
    + exists (mkRow x0 (x1 - 1) x2 x3). split.
      * apply IH. unfold row_counts, counts_of. cbn [col0 col1 col2 col3]. lia.
      * cbn [map identity_mat In row_add col0 col1 col2 col3].
        right; left. unfold row_add; cbn [col0 col1 col2 col3]; f_equal; lia.
    + exists (mkRow x0 x1 (x2 - 1) x3). split.
      * apply IH. unfold row_counts, counts_of. cbn [col0 col1 col2 col3]. lia.
      * cbn [map identity_mat In row_add col0 col1 col2 col3].
        right; right; left. unfold row_add; cbn [col0 col1 col2 col3]; f_equal; lia.
    + exists (mkRow x0 x1 x2 (x3 - 1)). split.
      * apply IH. unfold row_counts, counts_of. cbn [col0 col1 col2 col3]. lia.
      * cbn [map identity_mat In row_add col0 col1 col2 col3].
        right; right; right; left. unfold row_add; cbn [col0 col1 col2 col3]; f_equal; lia.
Qed.

(** *** Removal of the duplicates *)

Lemma is_in_vec_existsb (row : RowVector4i) (data_vec : ReadDataVector) (b : bool) :
  fold_left (fun is_in_vec data => if same_counts data row then true else is_in_vec)
            data_vec b
  = b || existsb (fun data => same_counts data row) data_vec.
Proof.
  revert b. induction data_vec as [|d data_vec IH]; intros b; cbn [fold_left existsb].
  - rewrite orb_false_r. reflexivity.
  - rewrite IH. destruct (same_counts d row), b; reflexivity.
Qed.

Lemma ReadData_of_row_fits (row : RowVector4i) :
  row_fits row ->
  ReadData_of_row row = mkReadData (col0 row) (col1 row) (col2 row) (col3 row).
Proof.
  intros (H0 & H1 & H2 & H3). unfold ReadData_of_row, to_uint16.
  rewrite !Z.mod_small by assumption. reflexivity.
Qed.

Lemma same_counts_iff (data : ReadData) (row : RowVector4i) :
  row_fits row ->
  same_counts data row = true <-> data = ReadData_of_row row.
Proof.
  intros Hfits. rewrite (ReadData_of_row_fits row Hfits).
  destruct data as [d0 d1 d2 d3]. unfold same_counts.
  cbn [reads0 reads1 reads2 reads3].
  rewrite !andb_true_iff, !Z.eqb_eq. split.
  - intros [[[-> ->] ->] ->]. reflexivity.
  - intros [= -> -> -> ->]. auto.
Qed.

Lemma is_in_vec_iff (row : RowVector4i) (data_vec : ReadDataVector) :
  row_fits row ->
  existsb (fun data => same_counts data row) data_vec = true
  <-> ReadData_of_row row ∈ data_vec.
Proof.
  intros Hfits. rewrite existsb_exists, list_elem_of_In. split.
  - intros (d & Hin & Hsame). apply same_counts_iff in Hsame; [|assumption].
    subst d. assumption.
  - intros Hin. exists (ReadData_of_row row). split; [assumption|].
    apply same_counts_iff; [assumption | reflexivity].
Qed.

(** The loop keeps the vector free of duplicates and adds exactly the rows
    of [mat]. *)
Lemma GetUniqueReadDataVector_step_spec (acc : ReadDataVector) (row : RowVector4i) :
  row_fits row -> NoDup acc ->
  NoDup (GetUniqueReadDataVector_step acc row)
  /\ forall data, data ∈ GetUniqueReadDataVector_step acc row
                  <-> data ∈ acc \/ data = ReadData_of_row row.
Proof.
  intros Hrow Hnd.
  unfold GetUniqueReadDataVector_step. rewrite is_in_vec_existsb. cbn [orb].
  destruct (existsb (fun data => same_counts data row) acc) eqn:Hex; cbn [negb].
  - apply (is_in_vec_iff row acc Hrow) in Hex. split; [assumption|].
    intros data. split; [auto|]. intros [H | ->]; assumption.
  - split.
    + apply list.NoDup_app. split; [assumption|]. split; [|apply NoDup_singleton].
      intros d Hd Hd'. apply list_elem_of_singleton in Hd'. subst d.
      apply (is_in_vec_iff row acc Hrow) in Hd. congruence.
    + intros data. rewrite elem_of_app, list_elem_of_singleton. reflexivity.
Qed.

Lemma GetUniqueReadDataVector_fold (mat : list RowVector4i) (acc : ReadDataVector) :
  Forall row_fits mat -> NoDup acc ->
  NoDup (fold_left GetUniqueReadDataVector_step mat acc)
  /\ forall data, data ∈ fold_left GetUniqueReadDataVector_step mat acc
                  <-> data ∈ acc \/ exists row, row ∈ mat /\ data = ReadData_of_row row.
Proof.
  intros Hfits. revert acc.
  induction Hfits as [|row mat Hrow Hmat IH]; intros acc Hnd; cbn [fold_left].
  - split; [assumption|]. intros data. split; [auto|].
    intros [H | (row & Hin & _)]; [assumption|]. inversion Hin.
  - destruct (GetUniqueReadDataVector_step_spec acc row Hrow Hnd) as [Hnd' Hmem].
    destruct (IH (GetUniqueReadDataVector_step acc row) Hnd') as [Hnd'' Hmem'].
    split; [exact Hnd''|].
    intros data. rewrite (Hmem' data), (Hmem data). split.
    + intros [[H | ->] | (r & Hr & ->)]; [auto | right | right].
      * exists row. split; [left | reflexivity].
      * exists r. split; [right; assumption | reflexivity].
    + intros [H | (r & Hr & ->)]; [auto|].
      apply elem_of_cons in Hr. destruct Hr as [-> | Hr]; [auto|].
      right. exists r. auto.
Qed.

Lemma GetUniqueReadDataVector_spec (mat : list RowVector4i) :
  Forall row_fits mat ->
  NoDup (GetUniqueReadDataVector mat)
  /\ forall data, data ∈ GetUniqueReadDataVector mat
                  <-> exists row, row ∈ mat /\ data = ReadData_of_row row.
Proof.
  intros Hfits.
  destruct (GetUniqueReadDataVector_fold mat [] Hfits (NoDup_nil_2)) as [Hnd Hmem].
  split; [exact Hnd|].
  intros data. unfold GetUniqueReadDataVector. rewrite (Hmem data). split.
  - intros [H | H]; [inversion H | exact H].
  - auto.
Qed.

(** *** Counting the 4-tuples that sum to [m] *)

Lemma flat_map_map_S {B : Type} (g : nat -> list B) (l : list nat) :
  flat_map g (map S l) = flat_map (fun a => g (S a)) l.
Proof.
  induction l as [|a l IH]; [reflexivity|].
  cbn [map flat_map]. rewrite IH. reflexivity.
Qed.

Lemma length_flat_map_seq {B : Type} (h : nat -> nat) (m : nat) :
  forall g : nat -> list B,
    (forall a, (a <= m)%nat -> length (g a) = h (m - a)%nat) ->
    length (flat_map g (seq 0 (S m))) = sum_down h m.
Proof.
  induction m as [|m IH]; intros g Hg.
  - cbn [seq flat_map sum_down]. rewrite app_nil_r. apply (Hg 0%nat). lia.
  - change (seq 0 (S (S m))) with (0%nat :: seq 1 (S m)).
    rewrite <- seq_shift. cbn [flat_map sum_down].
    rewrite length_app, flat_map_map_S.
    rewrite (IH (fun a => g (S a))).
    + rewrite (Hg 0%nat) by lia. rewrite Nat.sub_0_r. reflexivity.
    + intros a Ha. rewrite (Hg (S a)) by lia. reflexivity.
Qed.

Lemma sum_down_S (r : nat) : (2 * sum_down S r = (r + 1) * (r + 2))%nat.
Proof.
  induction r as [|r IH]; [reflexivity|].
  cbn [sum_down]. nia.
Qed.

Lemma sum_down_sum_down_S (m : nat) :
  (6 * sum_down (sum_down S) m = (m + 1) * (m + 2) * (m + 3))%nat.
Proof.
  induction m as [|m IH]; [reflexivity|].
  cbn [sum_down]. pose proof (sum_down_S m). nia.
Qed.

Lemma binomial_1 (n : nat) : binomial n 1 = n.
Proof.
  induction n as [|n IH]; [reflexivity|].
  cbn [binomial]. rewrite IH. destruct n; reflexivity.
Qed.

Lemma binomial_2 (n : nat) : (2 * binomial (S n) 2 = n * (n + 1))%nat.
Proof.
  induction n as [|n IH]; [reflexivity|].
  change (binomial (S (S n)) 2) with (binomial (S n) 1 + binomial (S n) 2)%nat.
  rewrite binomial_1. nia.
Qed.

Lemma binomial_3 (n : nat) :
  (6 * binomial (n + 3) 3 = (n + 1) * (n + 2) * (n + 3))%nat.
Proof.
  induction n as [|n IH]; [reflexivity|].
  replace (S n + 3)%nat with (S (S (n + 2))) by lia.
  change (binomial (S (S (n + 2))) 3)
    with (binomial (S (n + 2)) 2 + binomial (S (n + 2)) 3)%nat.
  replace (S (n + 2)) with (n + 3)%nat by lia.
  pose proof (binomial_2 (n + 2)) as H2.
  replace (S (n + 2)) with (n + 3)%nat in H2 by lia.
  nia.
Qed.

Lemma length_compositions4 (m : nat) :
  length (compositions4 m) = binomial (m + 3) 3.
Proof.
  assert (Hlen : length (compositions4 m) = sum_down (sum_down S) m).
  { unfold compositions4. change (?l ≫= ?g) with (flat_map g l).
    apply length_flat_map_seq. intros a Ha.
    apply length_flat_map_seq. intros b Hb.
    rewrite length_fmap, length_seq. reflexivity. }
  pose proof (sum_down_sum_down_S m). pose proof (binomial_3 m). lia.
Qed.

Lemma elem_of_compositions4 (m : nat) (data : ReadData) :
  data ∈ compositions4 m <-> read_counts (Z.of_nat m) data.
Proof.
  unfold compositions4, read_counts, counts_of. split.
  - intros H.
    apply list_elem_of_bind in H. destruct H as (a & H & Ha).
    apply list_elem_of_bind in H. destruct H as (b & H & Hb).
    apply list_elem_of_fmap in H. destruct H as (c & -> & Hc).
    apply elem_of_seq in Ha, Hb, Hc.
    cbn [reads0 reads1 reads2 reads3]. lia.
  - destruct data as [x0 x1 x2 x3]. cbn [reads0 reads1 reads2 reads3].
    intros (H0 & H1 & H2 & H3 & Hsum).
    apply list_elem_of_bind. exists (Z.to_nat x0). split; [|apply elem_of_seq; lia].
    apply list_elem_of_bind. exists (Z.to_nat x1). split; [|apply elem_of_seq; lia].
    apply list_elem_of_fmap. exists (Z.to_nat x2). split; [|apply elem_of_seq; lia].
    f_equal; lia.
Qed.

Lemma NoDup_compositions4 (m : nat) : NoDup (compositions4 m).
Proof.
  unfold compositions4.
  apply NoDup_bind; [| |apply NoDup_seq].
  - intros a1 a2 data _ _ H1 H2.
    apply list_elem_of_bind in H1. destruct H1 as (b1 & H1 & _).
    apply list_elem_of_bind in H2. destruct H2 as (b2 & H2 & _).
    apply list_elem_of_fmap in H1. destruct H1 as (c1 & -> & _).
    apply list_elem_of_fmap in H2. destruct H2 as (c2 & Heq & _).
    apply (f_equal reads0) in Heq. cbn [reads0] in Heq. lia.
  - intros a _. apply NoDup_bind; [| |apply NoDup_seq].
    + intros b1 b2 data _ _ H1 H2.
      apply list_elem_of_fmap in H1. destruct H1 as (c1 & -> & _).
      apply list_elem_of_fmap in H2. destruct H2 as (c2 & Heq & _).
      apply (f_equal reads1) in Heq. cbn [reads1] in Heq. lia.
    + intros b _. apply NoDup_fmap_2_strong; [|apply NoDup_seq].
      intros c1 c2 _ _ Heq.
      apply (f_equal reads2) in Heq. cbn [reads2] in Heq. lia.
Qed.

(** The unique read counts of the unrolled matrix are the 4-tuples that sum
    to the coverage. *)
Lemma enumerated_rows_fit (n : nat) :
  (n < 15)%nat -> Forall row_fits (enumerated_rows n).
Proof.
  intros Hn. pose proof (enumerated_rows_counts n) as Hall.
  rewrite List.Forall_forall in Hall. apply List.Forall_forall.
  intros row Hin. specialize (Hall row Hin).
  unfold row_counts, counts_of in Hall. unfold row_fits. lia.
Qed.

Lemma GetUniqueReadDataVector_enumerated (n : nat) :
  (n < 15)%nat ->
  NoDup (GetUniqueReadDataVector (enumerated_rows n))
  /\ (forall data, data ∈ GetUniqueReadDataVector (enumerated_rows n)
                   <-> read_counts (Z.of_nat (S n)) data)
  /\ length (GetUniqueReadDataVector (enumerated_rows n)) = binomial (S n + 3) 3.
Proof.
  intros Hn.
  pose proof (enumerated_rows_fit n Hn) as Hfits.
  destruct (GetUniqueReadDataVector_spec _ Hfits) as [Hnd Hmem].
  assert (Hiff : forall data, data ∈ GetUniqueReadDataVector (enumerated_rows n)
                              <-> read_counts (Z.of_nat (S n)) data).
  { intros data. rewrite (Hmem data). split.
    - intros (row & Hrow & ->).
      rewrite List.Forall_forall in Hfits.
      rewrite list_elem_of_In in Hrow.
      rewrite (ReadData_of_row_fits row (Hfits row Hrow)).
      pose proof (enumerated_rows_counts n) as Hc.
      rewrite List.Forall_forall in Hc. exact (Hc row Hrow).
    - intros Hc. destruct data as [x0 x1 x2 x3].
      exists (mkRow x0 x1 x2 x3).
      assert (Hin : In (mkRow x0 x1 x2 x3) (enumerated_rows n))
        by (apply enumerated_rows_complete; exact Hc).
      split; [apply list_elem_of_In; exact Hin|].
      rewrite List.Forall_forall in Hfits.
      rewrite (ReadData_of_row_fits _ (Hfits _ Hin)). reflexivity. }
  split; [exact Hnd|]. split; [exact Hiff|].
  rewrite <- length_compositions4.
  apply Permutation_length, NoDup_Permutation;
    [exact Hnd | apply NoDup_compositions4 |].
  intros data. rewrite Hiff, elem_of_compositions4. reflexivity.
Qed.

(** C2, for the coverages the code can enumerate: for every coverage from 1
    to 15 (the row count [(int) pow(4, coverage)] is defined up to 4^15),
    [EnumerateNucleotideCounts(coverage)] returns a matrix whose rows are
    4-entry vectors of non-negative counts that sum to the coverage, and
    every such vector is a row; [GetUniqueReadDataVector] of it has no
    duplicate and exactly C(coverage + 3, 3) entries, the vectors of counts
    that sum to the coverage.  Coverage 1 gives the 4 unit vectors, and the
    counts for coverages 1, 2 and 4 are 4, 10 and 35. *)
Theorem EnumerateNucleotideCounts_unique_count :
  (forall coverage : Z, 1 <= coverage <= 15 ->
     exists mat : list RowVector4i,
       EnumerateNucleotideCounts coverage = Some mat
       /\ (forall row, In row mat <-> row_counts coverage row)
       /\ NoDup (GetUniqueReadDataVector mat)
       /\ (forall data, data ∈ GetUniqueReadDataVector mat
                        <-> read_counts coverage data)
       /\ length (GetUniqueReadDataVector mat)
          = binomial (Z.to_nat coverage + 3) 3)
  /\ EnumerateNucleotideCounts 1
     = Some [mkRow 1 0 0 0; mkRow 0 1 0 0; mkRow 0 0 1 0; mkRow 0 0 0 1]
  /\ binomial (1 + 3) 3 = 4%nat
  /\ binomial (2 + 3) 3 = 10%nat
  /\ binomial (4 + 3) 3 = 35%nat.
Proof.
  split; [|repeat split; reflexivity].
  intros coverage Hc.
  destruct (Z.to_nat coverage) as [|n] eqn:Hn; [lia|].
  assert (Hcov : coverage = Z.of_nat (S n)) by lia.
  assert (Hlt : (n < 15)%nat) by lia.
  exists (enumerated_rows n).
  destruct (GetUniqueReadDataVector_enumerated n Hlt) as (Hnd & Hmem & Hlen).
  rewrite Hcov at 1. rewrite EnumerateNucleotideCounts_rows by exact Hlt.
  split; [reflexivity|]. split; [|split; [exact Hnd|split]].
  - intros row. rewrite Hcov. split.
    + intros Hin. pose proof (enumerated_rows_counts n) as Hall.
      rewrite List.Forall_forall in Hall. exact (Hall row Hin).
    + apply enumerated_rows_complete.
  - intros data. rewrite Hcov. apply Hmem.
  - exact Hlen.
Qed.

(** Coverage 2: the matrix has 16 rows, 10 of them distinct. *)
Lemma EnumerateNucleotideCounts_unique_count_witness :
  exists mat : list RowVector4i,
    EnumerateNucleotideCounts 2 = Some mat
    /\ (forall row, In row mat <-> row_counts 2 row)
    /\ NoDup (GetUniqueReadDataVector mat)
    /\ (forall data, data ∈ GetUniqueReadDataVector mat <-> read_counts 2 data)
    /\ length (GetUniqueReadDataVector mat) = binomial (Z.to_nat 2 + 3) 3.
Proof.
  apply (proj1 EnumerateNucleotideCounts_unique_count 2). lia.
Defined.

(** C2 as stated fails from coverage 16 on: [(int) pow(4, 16)] is outside
    the range of [int], and no matrix is produced. *)
Lemma EnumerateNucleotideCounts_16_counterexample :
  1 <= 16 /\ EnumerateNucleotideCounts 16 = None.
Proof. split; [lia | reflexivity]. Qed.

(** ** The trio universe and its index (C3) *)

Lemma EqualsReadData_eq (data1 data2 : ReadData) :
  EqualsReadData data1 data2 = true <-> data1 = data2.
Proof.
  destruct data1 as [a0 a1 a2 a3], data2 as [b0 b1 b2 b3].
  unfold EqualsReadData. cbn [reads0 reads1 reads2 reads3].
  rewrite !andb_true_iff, !Z.eqb_eq. split.
  - intros [[[-> ->] ->] ->]. reflexivity.
  - intros [= -> -> -> ->]. auto.
Qed.

(** On two trios the comparison is defined and decides their equality. *)
Lemma EqualsReadDataVector_trios (data_vec1 data_vec2 : ReadDataVector) :
  length data_vec1 = 3%nat -> length data_vec2 = 3%nat ->
  exists b : bool,
    EqualsReadDataVector data_vec1 data_vec2 = Some b
    /\ (b = true <-> data_vec1 = data_vec2).
Proof.
  destruct data_vec1 as [|a0 [|a1 [|a2 [|? ?]]]]; try discriminate.
  destruct data_vec2 as [|b0 [|b1 [|b2 [|? ?]]]]; try discriminate.
  intros _ _. unfold EqualsReadDataVector. cbn [lookup list_lookup forallb].
  eexists. split; [reflexivity|].
  destruct (EqualsReadData a0 b0) eqn:E0, (EqualsReadData a1 b1) eqn:E1,
           (EqualsReadData a2 b2) eqn:E2; cbn [andb];
    try (apply EqualsReadData_eq in E0; apply EqualsReadData_eq in E1;
         apply EqualsReadData_eq in E2; subst; split; reflexivity);
    (split; [discriminate|]); intros [= -> -> ->];
    match goal with
    | H : EqualsReadData ?d ?d = false |- _ =>
        assert (EqualsReadData d d = true) by (apply EqualsReadData_eq; reflexivity);
        congruence
    end.
Qed.

(** The scan returns the first position of [data_vec] among the [n]
    positions from [i] on, or -1 when it is at none of them. *)
Lemma IndexOfReadDataVector_loop_spec (data_vec : ReadDataVector)
    (trio_vec : TrioVector) :
  length data_vec = 3%nat ->
  Forall (fun trio => length trio = 3%nat) trio_vec ->
  forall (n : nat) (i : Z),
    0 <= i -> i + Z.of_nat n <= Z.of_nat (length trio_vec) ->
    exists index : Z,
      IndexOfReadDataVector_loop n i data_vec trio_vec = Some index
      /\ ((index = -1
           /\ forall k, i <= k < i + Z.of_nat n ->
                        trio_vec !! Z.to_nat k <> Some data_vec)
          \/ (i <= index < i + Z.of_nat n
              /\ trio_vec !! Z.to_nat index = Some data_vec
              /\ forall k, i <= k < index ->
                           trio_vec !! Z.to_nat k <> Some data_vec)).
Proof.
  intros Hlen Htrios.
  induction n as [|n IH]; intros i Hi Hbound.
  - exists (-1). split; [reflexivity|]. left. split; [reflexivity|]. lia.
  - unfold IndexOfReadDataVector_loop; fold IndexOfReadDataVector_loop.
    destruct (lookup_lt_is_Some_2 trio_vec (Z.to_nat i)) as [trio Htrio]; [lia|].
    rewrite Htrio.
    assert (Hlen3 : length trio = 3%nat).
    { rewrite List.Forall_forall in Htrios. apply Htrios.
      apply list_elem_of_In. eapply list_elem_of_lookup_2. exact Htrio. }
    destruct (EqualsReadDataVector_trios data_vec trio Hlen Hlen3) as (b & -> & Hb).
    destruct b.
    + exists i. split; [reflexivity|]. right.
      split; [lia|]. split; [|lia].
      rewrite Htrio. f_equal. symmetry. apply Hb. reflexivity.
    + destruct (IH (i + 1)) as (index & Hloop & Hspec); [lia | lia |].
      exists index. split; [exact Hloop|].
      assert (Hhere : trio_vec !! Z.to_nat i <> Some data_vec).
      { rewrite Htrio. intros [= ->].
        assert (false = true) by (apply Hb; reflexivity). discriminate. }
      destruct Hspec as [(-> & Hnone) | (Hrange & Hat & Hbefore)].
      * left. split; [reflexivity|]. intros k Hk.
        destruct (Z.eq_dec k i) as [-> | Hne]; [exact Hhere|].
        apply Hnone. lia.
      * right. split; [lia|]. split; [exact Hat|]. intros k Hk.
        destruct (Z.eq_dec k i) as [-> | Hne]; [exact Hhere|].
        apply Hbefore. lia.
Qed.

Lemma cube_trios (data_vec : ReadDataVector) :
  let trio_vec :=
    flat_map (fun data1 =>
      flat_map (fun data2 => map (fun data3 => [data1; data2; data3]) data_vec)
               data_vec)
      data_vec in
  length trio_vec = (length data_vec * (length data_vec * length data_vec))%nat
  /\ Forall (fun trio => length trio = 3%nat) trio_vec
  /\ forall trio, In trio trio_vec
                  <-> exists data1 data2 data3,
                        In data1 data_vec /\ In data2 data_vec /\ In data3 data_vec
                        /\ trio = [data1; data2; data3].
Proof.
  intros trio_vec.
  assert (Hmem : forall trio, In trio trio_vec
                  <-> exists data1 data2 data3,
                        In data1 data_vec /\ In data2 data_vec /\ In data3 data_vec
                        /\ trio = [data1; data2; data3]).
  { intros trio. unfold trio_vec. rewrite in_flat_map. split.
    - intros (d1 & H1 & H). apply in_flat_map in H. destruct H as (d2 & H2 & H).
      apply in_map_iff in H. destruct H as (d3 & <- & H3).
      exists d1, d2, d3. auto.
    - intros (d1 & d2 & d3 & H1 & H2 & H3 & ->).
      exists d1. split; [exact H1|]. apply in_flat_map.
      exists d2. split; [exact H2|]. apply in_map_iff.
      exists d3. auto. }
  split; [|split; [|exact Hmem]].
  - unfold trio_vec.
    apply length_flat_map_const. intros d1.
    apply length_flat_map_const. intros d2.
    apply length_map.
  - apply List.Forall_forall. intros trio Hin.
    apply Hmem in Hin. destruct Hin as (d1 & d2 & d3 & _ & _ & _ & ->).
    reflexivity.
Qed.

(** [GetTrioVector(4)]: the cube of the 35 unique count vectors. *)
Lemma GetTrioVector_4 :
  exists trio_vec : TrioVector,
    GetTrioVector kNucleotideCount = Some trio_vec
    /\ Z.of_nat (length trio_vec) = kTrioCount
    /\ Forall (fun trio => length trio = 3%nat) trio_vec
    /\ forall trio, trio ∈ trio_vec
                    <-> exists data1 data2 data3,
                          read_counts 4 data1 /\ read_counts 4 data2
                          /\ read_counts 4 data3 /\ trio = [data1; data2; data3].
Proof.
  assert (Hlt : (3 < 15)%nat) by lia.
  pose proof (EnumerateNucleotideCounts_rows 3 Hlt) as Hmat.
  destruct (GetUniqueReadDataVector_enumerated 3 Hlt) as (_ & Hmem & Hlen).
  change (Z.of_nat 4) with 4 in Hmat, Hmem.
  unfold GetTrioVector, kNucleotideCount. rewrite Hmat. clear Hmat.
  revert Hmem Hlen.
  generalize (GetUniqueReadDataVector (enumerated_rows 3)) as data_vec.
  intros data_vec Hmem Hlen.
  destruct (cube_trios data_vec) as (Hcube & Hthree & Hin).
  eexists. split; [reflexivity|]. split; [|split; [exact Hthree|]].
  - rewrite Hcube, Hlen. change (binomial (4 + 3) 3) with 35%nat.
    rewrite !Nat2Z.inj_mul. reflexivity.
  - intros trio. rewrite list_elem_of_In, Hin. split.
    + intros (d1 & d2 & d3 & H1 & H2 & H3 & ->). exists d1, d2, d3.
      rewrite <- !Hmem, !list_elem_of_In. auto.
    + intros (d1 & d2 & d3 & H1 & H2 & H3 & ->). exists d1, d2, d3.
      rewrite <- !list_elem_of_In, !Hmem. auto.
Qed.

(** C3: [GetTrioVector(4)] is a vector of exactly 42875 trios, all the
    triples of count vectors that sum to 4; and for a trio [data_vec],
    [IndexOfReadDataVector] returns either an index in [[0, 42875)], the
    first position at which the universe holds [data_vec], or -1, and then
    [data_vec] is not in the universe. *)
Theorem IndexOfReadDataVector_first_or_sentinel :
  forall data_vec : ReadDataVector,
    length data_vec = 3%nat ->
    exists (trio_vec : TrioVector) (index : Z),
      GetTrioVector 4 = Some trio_vec
      /\ Z.of_nat (length trio_vec) = 42875
      /\ (forall trio, trio ∈ trio_vec
                       <-> exists data1 data2 data3,
                             read_counts 4 data1 /\ read_counts 4 data2
                             /\ read_counts 4 data3
                             /\ trio = [data1; data2; data3])
      /\ IndexOfReadDataVector data_vec = Some index
      /\ ((0 <= index < 42875
           /\ trio_vec !! Z.to_nat index = Some data_vec
           /\ forall k, 0 <= k < index -> trio_vec !! Z.to_nat k <> Some data_vec)
          \/ (index = -1 /\ data_vec ∉ trio_vec)).
Proof.
  intros data_vec Hlen.
  destruct GetTrioVector_4 as (trio_vec & Htv & Hsize & Hthree & Hmem).
  destruct (IndexOfReadDataVector_loop_spec data_vec trio_vec Hlen Hthree
              (Z.to_nat kTrioCount) 0) as (index & Hloop & Hspec);
    [lia | unfold kTrioCount in *; lia |].
  exists trio_vec, index.
  split; [exact Htv|]. split; [exact Hsize|]. split; [exact Hmem|].
  split; [unfold IndexOfReadDataVector; rewrite Htv; exact Hloop|].
  unfold kTrioCount in *.
  destruct Hspec as [(-> & Hnone) | (Hrange & Hat & Hbefore)].
  - right. split; [reflexivity|]. intros Hin.
    apply list_elem_of_lookup in Hin. destruct Hin as (k & Hk).
    apply (Hnone (Z.of_nat k)).
    + apply lookup_lt_Some in Hk. lia.
    + rewrite Nat2Z.id. exact Hk.
  - left. split; [lia|]. split; [exact Hat|]. intros k Hk. apply Hbefore. lia.
Qed.

(** The trio (4,0,0,0), (4,0,0,0), (3,1,0,0) stands at index 1. *)
Lemma IndexOfReadDataVector_first_or_sentinel_witness :
  exists (trio_vec : TrioVector) (index : Z),
    GetTrioVector 4 = Some trio_vec
    /\ Z.of_nat (length trio_vec) = 42875
    /\ (forall trio, trio ∈ trio_vec
                     <-> exists data1 data2 data3,
                           read_counts 4 data1 /\ read_counts 4 data2
                           /\ read_counts 4 data3
                           /\ trio = [data1; data2; data3])
    /\ IndexOfReadDataVector
         [mkReadData 4 0 0 0; mkReadData 4 0 0 0; mkReadData 3 1 0 0] = Some index
    /\ ((0 <= index < 42875
         /\ trio_vec !! Z.to_nat index
            = Some [mkReadData 4 0 0 0; mkReadData 4 0 0 0; mkReadData 3 1 0 0]
         /\ forall k, 0 <= k < index ->
              trio_vec !! Z.to_nat k
              <> Some [mkReadData 4 0 0 0; mkReadData 4 0 0 0; mkReadData 3 1 0 0])
        \/ (index = -1
            /\ [mkReadData 4 0 0 0; mkReadData 4 0 0 0; mkReadData 3 1 0 0]
               ∉ trio_vec)).
Proof.
  apply (IndexOfReadDataVector_first_or_sentinel
           [mkReadData 4 0 0 0; mkReadData 4 0 0 0; mkReadData 3 1 0 0]).
  reflexivity.
Defined.

(** ** Rate setters (C6) *)

Section RateSetterProperties.
Context `{DA : DoubleArith D}.
Variable GermlineProbabilityMat : D -> list D.
Variable SomaticProbabilityMat : D -> list D.

(** A valid rate is stored and its matrix installed. *)
Lemma set_germline_mutation_rate_valid (rate : D) (s : SimulationModel D) :
  rate_in_range rate = true ->
  exists s' : SimulationModel D,
    set_germline_mutation_rate GermlineProbabilityMat rate s = Completed s'
    /\ germline_mutation_rate (params_ s') = rate
    /\ germline_probability_mat (params_ s') = GermlineProbabilityMat rate
    /\ somatic_probability_mat (params_ s') = somatic_probability_mat (params_ s).
Proof.
  intros Hrange. unfold set_germline_mutation_rate,
    TrioModel_set_germline_mutation_rate. rewrite Hrange.
  eexists. split; [reflexivity|]. repeat split.
Qed.

Lemma set_somatic_mutation_rate_valid (rate : D) (s : SimulationModel D) :
  rate_in_range rate = true ->
  exists s' : SimulationModel D,
    set_somatic_mutation_rate SomaticProbabilityMat rate s = Completed s'
    /\ somatic_mutation_rate (params_ s') = rate
    /\ somatic_probability_mat (params_ s') = SomaticProbabilityMat rate
    /\ germline_probability_mat (params_ s') = germline_probability_mat (params_ s).
Proof.
  intros Hrange. unfold set_somatic_mutation_rate,
    TrioModel_set_somatic_mutation_rate. rewrite Hrange.
  eexists. split; [reflexivity|]. repeat split.
Qed.
End RateSetterProperties.

(** C6, against the setters of [TrioModel] as the specification describes
    them: a call of either rate setter with a rate outside [0,1] ends in the
    fatal error and yields no simulator state; no matrix is built, since the
    outcome is the same whatever the matrix builder; and the constructor,
    which calls both setters, fails likewise. *)
Theorem set_mutation_rate_rejects_invalid :
  forall (D : Type) (DA : DoubleArith D)
         (GermlineProbabilityMat SomaticProbabilityMat : D -> list D)
         (rate : D) (s : SimulationModel D),
    rate_in_range rate = false ->
    (exists msg, set_germline_mutation_rate GermlineProbabilityMat rate s = Fatal msg)
    /\ (exists msg, set_somatic_mutation_rate SomaticProbabilityMat rate s = Fatal msg)
    /\ (forall other_builder : D -> list D,
          set_germline_mutation_rate other_builder rate s
          = set_germline_mutation_rate GermlineProbabilityMat rate s
          /\ set_somatic_mutation_rate other_builder rate s
             = set_somatic_mutation_rate SomaticProbabilityMat rate s)
    /\ (forall (default_params : TrioModel D) (seed : RandomSource)
               (coverage : Z) (other_rate : D),
          (exists msg,
              SimulationModel_new GermlineProbabilityMat SomaticProbabilityMat
                default_params seed coverage rate other_rate = Fatal msg)
          /\ (exists msg,
                 SimulationModel_new GermlineProbabilityMat SomaticProbabilityMat
                   default_params seed coverage other_rate rate = Fatal msg)).
Proof.
  intros D DA G S rate s Hrange.
  unfold set_germline_mutation_rate, set_somatic_mutation_rate,
    SimulationModel_new, TrioModel_set_germline_mutation_rate,
    TrioModel_set_somatic_mutation_rate.
  rewrite Hrange. split; [eexists; reflexivity|].
  split; [eexists; reflexivity|]. split; [intros other; split; reflexivity|].
  intros default_params seed coverage other_rate. split.
  - eexists. reflexivity.
  - destruct (rate_in_range other_rate); eexists; reflexivity.
Qed.

(** The rate 1.5 in binary64, on a simulator whose rates are 0. *)
Lemma set_mutation_rate_rejects_invalid_witness :
  (exists msg,
      set_germline_mutation_rate (fun _ => GermlineProbabilityMat_rate0) 1.5%float
        (mkSimulationModel (params_rate0 [] []) 4 (mkRandomSource [] [] []))
      = Fatal msg)
  /\ (exists msg,
         set_somatic_mutation_rate (fun _ => SomaticProbabilityMat_rate0) 1.5%float
           (mkSimulationModel (params_rate0 [] []) 4 (mkRandomSource [] [] []))
         = Fatal msg).
Proof.
  destruct (set_mutation_rate_rejects_invalid float binary64
              (fun _ => GermlineProbabilityMat_rate0)
              (fun _ => SomaticProbabilityMat_rate0) 1.5%float
              (mkSimulationModel (params_rate0 [] []) 4 (mkRandomSource [] [] []))
              eq_refl) as (Hg & Hs & _).
  split; [exact Hg | exact Hs].
Defined.

(** ** The simulator: what a call changes *)

Section SimulatorProperties.
Context `{DA : DoubleArith D}.

Lemma bind_Some {A B : Type} (m : Sim D A) (k : A -> Sim D B)
    (s s' : SimulationModel D) (b : B) :
  (m ≫= k) s = Some (b, s') ->
  exists (a : A) (s1 : SimulationModel D), m s = Some (a, s1) /\ k a s1 = Some (b, s').
Proof.
  unfold mbind, Sim_bind. destruct (m s) as [[a s1]|]; [|discriminate].
  intros H. exists a, s1. split; [reflexivity | exact H].
Qed.

Lemma lift_Some {A : Type} (o : option A) (s s' : SimulationModel D) (a : A) :
  lift o s = Some (a, s') -> o = Some a /\ s' = s.
Proof.
  unfold lift. destruct o as [x|]; [|discriminate].
  intros [= -> ->]. split; reflexivity.
Qed.

Lemma RandomDiscreteChoice_Some (K : Z) (probabilities : list D)
    (s s' : SimulationModel D) (random : Z) :
  RandomDiscreteChoice K probabilities s = Some (random, s') ->
  params_ s' = params_ s /\ coverage_ s' = coverage_ s
  /\ 0 <= random < K
  /\ exists weight, probabilities !! Z.to_nat random = Some weight
                    /\ dltb dzero weight = true.
Proof.
  unfold RandomDiscreteChoice.
  destruct (discrete_draws (r s)) as [|x rest]; [discriminate|].
  destruct (K <=? Z.of_nat (length probabilities)); [|discriminate].
  destruct (Z.leb_spec 0 x); [|discriminate].
  destruct (Z.ltb_spec x K); [|discriminate].
  cbn [andb].
  destruct (probabilities !! Z.to_nat x) as [weight|] eqn:Hw; [|discriminate].
  destruct (dltb dzero weight) eqn:Hpos; [|discriminate].
  intros [= <- <-]. cbn [params_ coverage_].
  repeat split; try lia. exists weight. split; [exact Hw | exact Hpos].
Qed.

(** [Mutate] sets the flag exactly when the draw differs from its input,
    never clears it, and changes nothing else of the parameters. *)
Lemma Mutate_Some (genotype_idx parent_genotype_idx : Z) (is_germline : bool)
    (s s' : SimulationModel D) (mutated : Z) :
  Mutate genotype_idx is_germline parent_genotype_idx s = Some (mutated, s') ->
  has_mutation (params_ s')
  = has_mutation (params_ s) || negb (mutated =? genotype_idx)
  /\ unflagged (params_ s') = unflagged (params_ s)
  /\ coverage_ s' = coverage_ s.
Proof.
  unfold Mutate. intros H.
  apply bind_Some in H. destruct H as (mat & s1 & Hmat & H).
  apply lift_Some in Hmat. destruct Hmat as [_ ->].
  apply bind_Some in H. destruct H as (m & s2 & Hdraw & H).
  apply RandomDiscreteChoice_Some in Hdraw. destruct Hdraw as (Hp & Hc & _).
  apply bind_Some in H. destruct H as ([] & s3 & Hset & H).
  injection H as <- <-.
  destruct (m =? genotype_idx); cbn [negb] in *.
  - injection Hset as <-. rewrite Hp, Hc, orb_false_r. repeat split.
  - injection Hset as <-. cbn [params_ coverage_ has_mutation].
    rewrite Hp, Hc, orb_true_r. repeat split.
Qed.

Lemma GetChildGenotype_Some (mother_genotype father_genotype : Z)
    (s s' : SimulationModel D) (child : Z) :
  GetChildGenotype mother_genotype father_genotype s = Some (child, s') ->
  params_ s' = params_ s /\ coverage_ s' = coverage_ s.
Proof.
  unfold GetChildGenotype. intros H.
  assert (Hrand : forall (s0 s1 : SimulationModel D) (x : Z),
             rand s0 = Some (x, s1) ->
             params_ s1 = params_ s0 /\ coverage_ s1 = coverage_ s0).
  { intros s0 s1 x. unfold rand.
    destruct (rand_draws (r s0)) as [|y rest]; [discriminate|].
    destruct (0 <=? y); [|discriminate].
    intros [= <- <-]. split; reflexivity. }
  apply bind_Some in H. destruct H as (r1 & s1 & H1 & H).
  apply Hrand in H1. destruct H1 as [Hp1 Hc1].
  apply bind_Some in H. destruct H as (a1 & s2 & Ha1 & H).
  apply lift_Some in Ha1. destruct Ha1 as [_ ->].
  apply bind_Some in H. destruct H as (r2 & s3 & H2 & H).
  apply Hrand in H2. destruct H2 as [Hp2 Hc2].
  apply bind_Some in H. destruct H as (a2 & s4 & Ha2 & H).
  apply lift_Some in Ha2. destruct Ha2 as [_ ->].
  apply lift_Some in H. destruct H as [_ ->].
  split; congruence.
Qed.

Lemma DirichletMultinomialSample_Some (genotype_idx : Z)
    (s s' : SimulationModel D) (data : ReadData) :
  DirichletMultinomialSample genotype_idx s = Some (data, s') ->
  params_ s' = params_ s /\ coverage_ s' = coverage_ s.
Proof.
  unfold DirichletMultinomialSample.
  destruct (mat_row 16 4 (alphas (params_ s)) genotype_idx); [|discriminate].
  destruct (multinomial_draws (r s)) as [|reads rest]; [discriminate|].
  match goal with |- (if ?c then _ else _) = _ -> _ => destruct c end;
    [|discriminate].
  intros [= <- <-]. split; reflexivity.
Qed.
End SimulatorProperties.

(** ** Rate zero (C1) *)

(** The germline draw of [Mutate] does not depend on the genotype that is
    passed in: the column for the parent pair is the whole distribution of
    the child, and the input is only compared with the draw. *)
Lemma Mutate_germline_ignores_genotype `{DA : DoubleArith D}
    (genotype_idx genotype_idx' parent_genotype_idx mutated : Z)
    (s s1 : SimulationModel D) :
  Mutate genotype_idx true parent_genotype_idx s = Some (mutated, s1) ->
  exists s2 : SimulationModel D,
    Mutate genotype_idx' true parent_genotype_idx s = Some (mutated, s2).
Proof.
  unfold Mutate. cbn [negb]. unfold mbind, Sim_bind, lift.
  destruct (mat_col 16 256 (germline_probability_mat (params_ s))
              parent_genotype_idx) as [mat|]; [|discriminate].
  destruct (RandomDiscreteChoice kGenotypeCount mat s) as [[m s0]|];
    [|discriminate].
  destruct (negb (m =? genotype_idx)); intros [= <- <-];
    destruct (negb (m =? genotype_idx')); eexists; reflexivity.
Qed.

(** Whatever the germline matrix, a site with mother AC and father AA can
    end with the flag set: the child is AA or CA according to [rand], and
    the germline draw differs from one of the two. *)
Lemma Mutate_germline_flags_some_child `{DA : DoubleArith D}
    (s : SimulationModel D) (mutated : Z) (s1 : SimulationModel D) :
  Mutate 0 true 16 s = Some (mutated, s1) ->
  exists (child : Z) (s2 : SimulationModel D),
    (child = 0 \/ child = 4)
    /\ Mutate child true 16 s = Some (mutated, s2)
    /\ has_mutation (params_ s2) = true.
Proof.
  intros H.
  destruct (Z.eq_dec mutated 0) as [-> | Hne].
  - destruct (Mutate_germline_ignores_genotype 0 4 16 0 s s1 H) as (s2 & H2).
    exists 4, s2. split; [right; reflexivity|]. split; [exact H2|].
    apply Mutate_Some in H2. destruct H2 as (Hflag & _).
    rewrite Hflag. apply orb_true_r.
  - exists 0, s1. split; [left; reflexivity|]. split; [exact H|].
    apply Mutate_Some in H. destruct H as (Hflag & _).
    rewrite Hflag. destruct (Z.eqb_spec mutated 0); [contradiction|].
    apply orb_true_r.
Qed.

(** At rate 0 the somatic draws return their input and leave the flag. *)
Lemma Mutate_somatic_rate0 (genotype_idx parent_genotype_idx mutated : Z)
    (s s' : SimulationModel float) :
  somatic_probability_mat (params_ s) = SomaticProbabilityMat_rate0 ->
  Mutate genotype_idx false parent_genotype_idx s = Some (mutated, s') ->
  mutated = genotype_idx
  /\ has_mutation (params_ s') = has_mutation (params_ s).
Proof.
  intros Hmat H.
  assert (Hsame : mutated = genotype_idx).
  { unfold Mutate in H. cbn [negb] in H.
    apply bind_Some in H. destruct H as (row & s1 & Hrow & H).
    apply lift_Some in Hrow. destruct Hrow as [Hrow ->].
    apply bind_Some in H. destruct H as (m & s2 & Hdraw & H).
    apply RandomDiscreteChoice_Some in Hdraw.
    destruct Hdraw as (_ & _ & Hm & weight & Hw & Hpos).
    apply bind_Some in H. destruct H as ([] & s3 & _ & H).
    injection H as <- <-.
    rewrite Hmat in Hrow. unfold mat_row in Hrow.
    destruct (Z.leb_spec 0 genotype_idx) as [Hlo|]; [|discriminate].
    destruct (Z.ltb_spec genotype_idx (Z.of_nat 16)) as [Hhi|]; [|discriminate].
    cbn [andb] in Hrow.
    assert (Hg : 0 <= genotype_idx < 16) by lia.
    unfold kGenotypeCount in Hm. clear Hlo Hhi.
    revert row Hrow Hw. pattern genotype_idx. revert genotype_idx Hg.
    apply Z_below_16; intros row Hrow; vm_compute in Hrow;
      injection Hrow as <-;
      revert weight Hpos; pattern m; revert m Hm;
      apply Z_below_16; intros weight Hpos Hw; vm_compute in Hw;
      injection Hw as <-;
      first [reflexivity | vm_compute in Hpos; discriminate Hpos]. }
  split; [exact Hsame|].
  apply Mutate_Some in H. destruct H as (Hflag & _).
  rewrite Hflag, Hsame, Z.eqb_refl. apply orb_false_r.
Qed.

(** C1 at a site with mother AC and father AA, both rates 0: the child
    inherits A and A (genotype AA, index 0); the germline call of [Mutate]
    draws from the column of the parent pair, where CA (index 4) has weight
    1/2, and a draw of CA sets the flag; the three somatic draws return
    their inputs; and the line written for the site carries the flag 1. *)
Theorem rate0_site_flagged :
  mat_col 16 256 GermlineProbabilityMat_rate0 (1 * 16 + 0)
  = Some [0.5; 0; 0; 0; 0.5; 0; 0; 0; 0; 0; 0; 0; 0; 0; 0; 0]%float
  /\ (exists s1 s2 : SimulationModel float,
         GetChildGenotype 1 0 (simulator_rate0 [4] [0; 0] []) = Some (0, s1)
         /\ Mutate 0 true (1 * 16 + 0) s1 = Some (4, s2)
         /\ has_mutation (params_ s2) = true)
  /\ forall MutationProbability : TrioModel float -> ReadDataVector -> float,
       exists (p : float) (s' : SimulationModel float),
         WriteProbability MutationProbability 1
           (simulator_rate0 [1; 4; 4; 1; 0] [0; 0]
              [mkRow 2 2 0 0; mkRow 2 2 0 0; mkRow 4 0 0 0])
         = Some ([mkLine p true], s').
Proof.
  split; [|split].
  - vm_compute. reflexivity.
  - eexists. eexists. split; [|split]; vm_compute; reflexivity.
  - intros MP. eexists. eexists. vm_compute. reflexivity.
Qed.

(** ** Binning (C8) *)

(** Rounding keeps the sign it is given. *)
Lemma binary_round_aux_sign (sx : bool) (mx ex : Z) (lx : location) :
  let x := binary_round_aux prec emax sx mx ex lx in
  x = S754_zero sx \/ (exists m e, x = S754_finite sx m e)
  \/ x = S754_infinity sx \/ x = S754_nan.
Proof.
  unfold binary_round_aux.
  destruct (shr_fexp prec emax mx ex lx) as [mrs' e'].
  destruct (shr_fexp prec emax _ e' loc_Exact) as [mrs'' e''].
  destruct (shr_m mrs'') as [|m|m]; cbn zeta.
  - left. reflexivity.
  - destruct (e'' <=? emax - prec).
    + right; left. exists m, e''. reflexivity.
    + right; right; left. reflexivity.
  - right; right; right. reflexivity.
Qed.

(** The floor of ten times a double that is zero or positive is a
    non-negative integer, [+inf] or NaN. *)
Lemma floor_mul_nonneg (p : float) :
  PrimFloat.leb 0 p = true ->
  nonneg_floor (floor (PrimFloat.mul p 10)).
Proof.
  rewrite leb_spec. unfold floor. rewrite mul_spec.
  change (Prim2SF 0) with (S754_zero false).
  replace (Prim2SF 10) with (S754_finite false 5629499534213120 (-49))
    by (vm_compute; reflexivity).
  destruct (Prim2SF p) as [s | s | | s m e]; cbn [SFleb SFcompare].
  - intros _. cbn. lia.
  - destruct s; [discriminate|]. intros _. reflexivity.
  - discriminate.
  - destruct s; [discriminate|]. intros _.
    unfold SF64mul, SFmul. cbn [xorb].
    destruct (binary_round_aux_sign false
                (Z.pos (m * 5629499534213120)) (e + -49) loc_Exact)
      as [-> | [(m' & e' & ->) | [-> | ->]]]; cbn [nonneg_floor]; try lia;
      try reflexivity.
    apply Z.shiftl_nonneg. lia.
Qed.

Lemma bin_of_nonneg (p : float) :
  PrimFloat.leb 0 p = true ->
  exists bin : Z,
    bin_of p = Some bin /\ 0 <= bin <= 9
    /\ fmin (floor (PrimFloat.mul p 10)) 9 = XInt bin.
Proof.
  intros Hp. pose proof (floor_mul_nonneg p Hp) as Hfloor.
  unfold bin_of.
  replace (dof_Z kNumBins) with 10%float by (vm_compute; reflexivity).
  change (kNumBins - 1) with 9.
  destruct (floor (PrimFloat.mul p 10)) as [| negative | z];
    cbn [nonneg_floor] in Hfloor; cbn [fmin].
  - exists 9. repeat split; lia.
  - subst negative. exists 9. repeat split; lia.
  - exists (Z.min z 9). split; [|split; [lia | reflexivity]].
    unfold to_int.
    destruct (Z.leb_spec (- 2 ^ 31) (Z.min z 9)); [|lia].
    destruct (Z.ltb_spec (Z.min z 9) (2 ^ 31)); [reflexivity | lia].
Qed.

Lemma count_of_cons {A : Type} (f : A -> bool) (x : A) (l : list A) :
  count_of f (x :: l) = (if f x then 1 else 0) + count_of f l.
Proof.
  unfold count_of. cbn [List.filter]. destruct (f x); cbn [length]; lia.
Qed.

Lemma count_of_bounds {A : Type} (f : A -> bool) (l : list A) :
  0 <= count_of f l <= Z.of_nat (length l).
Proof.
  unfold count_of. pose proof (List.filter_length_le f l). lia.
Qed.

(** A counter incremented at [bin] gains a site exactly at [bin]. *)
Lemma lookup_total_alter_succ (l : list Z) (bin : Z) (i : nat) :
  0 <= bin -> (Z.to_nat bin < length l)%nat ->
  alter Z.succ (Z.to_nat bin) l !!! i
  = l !!! i + (if bin =? Z.of_nat i then 1 else 0).
Proof.
  intros Hbin Hlen. destruct (Z.eqb_spec bin (Z.of_nat i)) as [-> | Hne].
  - rewrite Nat2Z.id in *. rewrite list_lookup_total_alter_eq by exact Hlen. lia.
  - rewrite list_lookup_total_alter_ne by lia. lia.
Qed.

Lemma in_bin_XInt (p : float) (bin i : Z) :
  fmin (floor (PrimFloat.mul p 10)) 9 = XInt bin -> in_bin i p = (bin =? i).
Proof. unfold in_bin. intros ->. reflexivity. Qed.

(** The counters of [CountBin] after the lines: each gains the sites that
    the values read place in its bin. *)
Lemma CountBin_read_values (lines : list string) :
  forall (probability : float) (has_mutation : Z) (counts totals : list Z),
    length counts = 10%nat -> length totals = 10%nat ->
    Forall (fun v => PrimFloat.leb 0 (fst v) = true)
           (CountBin_values lines probability has_mutation) ->
    exists (probability' : float) (has_mutation' : Z) (counts' totals' : list Z),
      CountBin_read lines (probability, has_mutation, counts, totals)
      = Some (probability', has_mutation', counts', totals')
      /\ length counts' = 10%nat /\ length totals' = 10%nat
      /\ forall i : nat,
           totals' !!! i
           = totals !!! i
             + count_of (fun v => in_bin (Z.of_nat i) (fst v))
                 (CountBin_values lines probability has_mutation)
           /\ counts' !!! i
              = counts !!! i
                + count_of (fun v => in_bin (Z.of_nat i) (fst v) && (snd v =? 1))
                    (CountBin_values lines probability has_mutation).
Proof.
  induction lines as [|line lines IH];
    intros probability has_mutation counts totals Hlenc Hlent Hall.
  - exists probability, has_mutation, counts, totals.
    split; [reflexivity|]. split; [exact Hlenc|]. split; [exact Hlent|].
    intros i. cbn [CountBin_values]. unfold count_of. cbn [List.filter length].
    split; lia.
  - cbn [CountBin_values CountBin_read] in *. unfold CountBin_line.
    destruct (extract_double _) as [read1 str].
    destruct (extract_int str) as [read2 str'].
    set (p := assigned read1 probability) in *.
    set (h := assigned read2 has_mutation) in *.
    apply list.Forall_cons in Hall. destruct Hall as [Hp Hall]. cbn [fst] in Hp.
    destruct (bin_of_nonneg p Hp) as (bin & Hbin & Hrange & Hfmin).
    rewrite Hbin.
    destruct (Z.leb_spec 0 bin); [|lia].
    destruct (Z.ltb_spec bin kNumBins); [|unfold kNumBins in *; lia].
    cbn [andb].
    destruct (IH p h (if h =? 1 then alter Z.succ (Z.to_nat bin) counts else counts)
                (alter Z.succ (Z.to_nat bin) totals))
      as (p' & h' & counts' & totals' & Hread & Hlenc' & Hlent' & Hsum).
    { destruct (h =? 1); [rewrite length_alter|]; exact Hlenc. }
    { rewrite length_alter. exact Hlent. }
    { exact Hall. }
    exists p', h', counts', totals'.
    split; [exact Hread|]. split; [exact Hlenc'|]. split; [exact Hlent'|].
    intros i. destruct (Hsum i) as [Ht Hc].
    rewrite !count_of_cons. cbn [fst snd].
    rewrite (in_bin_XInt p bin _ Hfmin). split.
    + rewrite Ht, lookup_total_alter_succ by lia. lia.
    + rewrite Hc. destruct (h =? 1).
      * rewrite lookup_total_alter_succ by lia. rewrite andb_true_r. lia.
      * rewrite andb_false_r. lia.
Qed.

(** In the loop of [count_bin_trio.cc] a line whose probability is at
    least 0 is counted in the bin [min(floor(p * 10), 9)], never in the bin
    of the negatives. *)
Lemma count_bin_trio_line_bin (line : string) (probability : float)
    (neg_bin total : Z) (counts : list Z) (probability_count : option Z) :
  let p := assigned (fst (extract_double (stringstream_of (remove_newlines line))))
             probability in
  PrimFloat.leb 0 p = true ->
  exists bin : Z,
    fmin (floor (PrimFloat.mul p 10)) 9 = XInt bin /\ 0 <= bin <= 9
    /\ count_bin_trio_line line
         (probability, neg_bin, total, counts, probability_count)
       = Some (p, neg_bin, total + 1, alter Z.succ (Z.to_nat bin) counts,
               if PrimFloat.ltb 0.1 p then option_map Z.succ probability_count
               else probability_count).
Proof.
  intros p Hp.
  destruct (bin_of_nonneg p Hp) as (bin & Hbin & Hrange & Hfmin).
  exists bin. split; [exact Hfmin|]. split; [exact Hrange|].
  unfold count_bin_trio_line. subst p.
  destruct (extract_double _) as [read str]. cbn [fst] in *.
  rewrite Hbin. destruct (Z.ltb_spec bin 0); [lia | reflexivity].
Qed.

(** C8: [CountBin] counts every line in the bin [min(floor(p * 10), 9)] of
    the probability [p] that the line leaves in the variable, a bin from 0
    to 9 when [0 <= p <= 1]: for every file whose probabilities are at
    least 0, the report shows for each bin the number of these lines and
    the number of them whose mutation flag is 1, with the percentage of
    the two.  The loop of [count_bin_trio.cc] counts a line in the same
    bin.  1.00 goes to bin 9, and on the lines "0.05 0", "0.15 1",
    "0.95 1" [CountBin] reports 0/1 sites (0%) for bin 0, 1/1 sites (100%)
    for bin 1 and for bin 9, and no sites for the bins between. *)
Theorem CountBin_bins :
  (forall p : float,
      PrimFloat.leb 0 p = true -> PrimFloat.leb p 1 = true ->
      exists bin : Z,
        fmin (floor (PrimFloat.mul p 10)) 9 = XInt bin /\ 0 <= bin <= 9)
  /\ (forall lines : list string,
        let values := CountBin_values lines 0 0 in
        Forall (fun v => PrimFloat.leb 0 (fst v) = true) values ->
        CountBin lines
        = Some (map (fun i : nat =>
                       let total :=
                         count_of (fun v => in_bin (Z.of_nat i) (fst v)) values in
                       let count :=
                         count_of (fun v => in_bin (Z.of_nat i) (fst v)
                                            && (snd v =? 1)) values in
                       if 0 <? total
                       then SitesInBin
                              (PrimFloat.mul
                                 (PrimFloat.div (dof_Z count) (dof_Z total))
                                 (dof_Z 100))
                              count total (Z.of_nat i)
                       else NoSitesInBin (Z.of_nat i))
                    (seq 0 10)))
  /\ (forall (line : string) (probability : float) (neg_bin total : Z)
             (counts : list Z) (probability_count : option Z),
        let p := assigned
                   (fst (extract_double (stringstream_of (remove_newlines line))))
                   probability in
        PrimFloat.leb 0 p = true ->
        exists bin : Z,
          fmin (floor (PrimFloat.mul p 10)) 9 = XInt bin /\ 0 <= bin <= 9
          /\ count_bin_trio_line line
               (probability, neg_bin, total, counts, probability_count)
             = Some (p, neg_bin, total + 1, alter Z.succ (Z.to_nat bin) counts,
                     if PrimFloat.ltb 0.1 p
                     then option_map Z.succ probability_count
                     else probability_count))
  /\ CountBin_values ["1.00 1"]%string 0 0 = [(1%float, 1)]
  /\ fmin (floor (PrimFloat.mul 1 10)) 9 = XInt 9
  /\ CountBin ["1.00 1"]%string
     = Some [NoSitesInBin 0; NoSitesInBin 1; NoSitesInBin 2; NoSitesInBin 3;
             NoSitesInBin 4; NoSitesInBin 5; NoSitesInBin 6; NoSitesInBin 7;
             NoSitesInBin 8; SitesInBin 100 1 1 9]
  /\ count_bin_trio_line "1.00" (0%float, 0, 0, replicate 10 0, None)
     = Some (1%float, 0, 1, [0; 0; 0; 0; 0; 0; 0; 0; 0; 1], None)
  /\ CountBin_values ["0.05 0"; "0.15 1"; "0.95 1"]%string 0 0
     = [(0.05%float, 0); (0.15%float, 1); (0.95%float, 1)]
  /\ CountBin ["0.05 0"; "0.15 1"; "0.95 1"]%string
     = Some [SitesInBin 0 0 1 0; SitesInBin 100 1 1 1;
             NoSitesInBin 2; NoSitesInBin 3; NoSitesInBin 4; NoSitesInBin 5;
             NoSitesInBin 6; NoSitesInBin 7; NoSitesInBin 8;
             SitesInBin 100 1 1 9].
Proof.
  split; [|split; [|split; [|repeat split; vm_compute; reflexivity]]].
  - intros p Hlo _. destruct (bin_of_nonneg p Hlo) as (bin & _ & Hrange & Hfmin).
    exists bin. split; [exact Hfmin | exact Hrange].
  - intros lines values Hall. unfold CountBin.
    destruct (CountBin_read_values lines 0%float 0 (replicate 10 0) (replicate 10 0))
      as (p' & h' & counts' & totals' & -> & _ & _ & Hsum);
      [reflexivity | reflexivity | exact Hall |].
    f_equal. change (Z.to_nat kNumBins) with 10%nat.
    apply map_ext_in. intros i Hi. apply in_seq in Hi.
    destruct (Hsum i) as [-> ->].
    rewrite !lookup_total_replicate_2 by lia. rewrite !Z.add_0_l. reflexivity.
  - intros line probability neg_bin total counts probability_count.
    apply count_bin_trio_line_bin.
Qed.

(** A file as the simulator writes it, with a probability in exponent
    notation, a line without flag and a blank line, which keep the flag and
    the probability of the line before. *)
Lemma CountBin_bins_witness :
  let lines := ["1e-05	0"; "0.25	1"; "0.5"; ""]%string in
  CountBin_values lines 0 0
  = [(1e-05%float, 0); (0.25%float, 1); (0.5%float, 1); (0.5%float, 1)]
  /\ CountBin lines
     = Some [SitesInBin 0 0 1 0; NoSitesInBin 1; SitesInBin 100 1 1 2;
             NoSitesInBin 3; NoSitesInBin 4; SitesInBin 100 2 2 5;
             NoSitesInBin 6; NoSitesInBin 7; NoSitesInBin 8; NoSitesInBin 9].
Proof.
  intros lines. split; [vm_compute; reflexivity|].
  rewrite (proj1 (proj2 CountBin_bins) lines).
  - vm_compute. reflexivity.
  - repeat (apply list.Forall_cons; split; [vm_compute; reflexivity|]).
    apply Forall_nil.
Defined.

(** * Further properties of the code

    The functions that the specification leaves aside, and what the
    functions above do beyond what it states: the layout and the order of
    the tables, the behaviour at the bounds, and how the functions
    compose. *)

(** ** Further properties of the tables and comparisons of [utilities.cc] *)

(** X1: [PrintMatrix16_16_4d] sends 16 cells to [cout], not 256: the cells
    [mat(0, 0)], [mat(1, 0)], ..., [mat(15, 0)] of column 0, in this order,
    whatever the matrix holds. *)
Theorem PrintMatrix16_16_4d_prints_column0 :
  forall (D : Type) (mat : list (Cell4 D)),
    PrintMatrix16_16_4d mat
    = Some (map (fun i => mat !!! (i * 16)%nat) (seq 0 16))
    /\ (forall out, PrintMatrix16_16_4d mat = Some out -> length out = 16%nat).
Proof.
  intros D mat. split; [reflexivity|].
  intros out [= <-]. reflexivity.
Qed.

(** Inside the table the two alleles of a genotype are the quotient and the
    remainder of its index by 4. *)
Lemma kGenotypeNumIndex_in_range (genotype : Z) :
  0 <= genotype < 16 ->
  kGenotypeNumIndex genotype 0 = Some (genotype / 4)
  /\ kGenotypeNumIndex genotype 1 = Some (genotype mod 4).
Proof.
  intros Hg. pattern genotype; revert genotype Hg.
  apply Z_below_16; split; reflexivity.
Qed.

(** X2: [kGenotypeNumIndex(genotype, allele)] is defined for genotypes 0 to
    15 and alleles 0 and 1 only; there the first allele is [genotype / 4]
    and the second [genotype % 4], so that a genotype index is
    [4 * first + second]. *)
Theorem kGenotypeNumIndex_quot_rem :
  forall genotype allele : Z,
    kGenotypeNumIndex genotype allele
    = if (0 <=? genotype) && (genotype <? 16) && (0 <=? allele) && (allele <? 2)
      then Some (if allele =? 0 then genotype / 4 else genotype mod 4)
      else None.
Proof.
  intros genotype allele. unfold kGenotypeNumIndex, kGenotypeCount.
  destruct ((0 <=? genotype) && (genotype <? 16) && (0 <=? allele) && (allele <? 2))
    eqn:Hrange; [|reflexivity].
  rewrite !andb_true_iff in Hrange.
  destruct Hrange as [[[H1 H2] H3] H4].
  apply Z.leb_le in H1, H3. apply Z.ltb_lt in H2, H4.
  assert (Hg : 0 <= genotype < 16) by lia.
  destruct (kGenotypeNumIndex_in_range genotype Hg) as [Ha0 Ha1].
  unfold kGenotypeNumIndex, kGenotypeCount in Ha0, Ha1.
  destruct (Z.leb_spec 0 genotype); [|lia].
  destruct (Z.ltb_spec genotype 16); [|lia].
  cbn [andb Z.leb Z.ltb Z.compare] in Ha0, Ha1.
  assert (Hallele : allele = 0 \/ allele = 1) by lia.
  destruct Hallele as [-> | ->]; cbn [Z.eqb]; assumption.
Qed.

(** X3: [EqualsReadDataVector] looks at the entries 0, 1 and 2 of both
    vectors and at nothing else: it has no defined result when one of the
    vectors has fewer than three entries, and otherwise answers whether the
    first three entries agree, whatever follows them and whatever the
    lengths. *)
Theorem EqualsReadDataVector_first_three :
  forall data_vec1 data_vec2 : ReadDataVector,
    (EqualsReadDataVector data_vec1 data_vec2 = None
     <-> (length data_vec1 < 3)%nat \/ (length data_vec2 < 3)%nat)
    /\ (forall b : bool,
          EqualsReadDataVector data_vec1 data_vec2 = Some b ->
          (b = true <-> take 3 data_vec1 = take 3 data_vec2)).
Proof.
  intros data_vec1 data_vec2.
  destruct data_vec1 as [|a0 [|a1 [|a2 t1]]];
    try (split; [split; [intros _; left; cbn [length]; lia | reflexivity]
                | intros b; discriminate]).
  destruct data_vec2 as [|b0 [|b1 [|b2 t2]]];
    try (split; [split; [intros _; right; cbn [length]; lia | reflexivity]
                | intros b; discriminate]).
  change (EqualsReadDataVector (a0 :: a1 :: a2 :: t1) (b0 :: b1 :: b2 :: t2))
    with (EqualsReadDataVector [a0; a1; a2] [b0; b1; b2]).
  destruct (EqualsReadDataVector_trios [a0; a1; a2] [b0; b1; b2] eq_refl eq_refl)
    as (b' & Hb' & Hiff).
  rewrite Hb'. split.
  - split; [discriminate|]. cbn [length]. lia.
  - intros b [= <-]. exact Hiff.
Qed.

(** ** Further properties of the enumeration of read counts *)

Lemma EnumerateNucleotideCounts_rec_below (depth : nat) :
  forall coverage : Z, coverage < 1 ->
    EnumerateNucleotideCounts_rec depth coverage = None.
Proof.
  induction depth as [|depth IH]; intros coverage Hc; [reflexivity|].
  rewrite EnumerateNucleotideCounts_rec_step by lia.
  destruct (pow_to_int coverage); [|reflexivity].
  rewrite IH by lia. reflexivity.
Qed.

Lemma EnumerateNucleotideCounts_rec_above (depth : nat) (coverage : Z) :
  15 < coverage -> EnumerateNucleotideCounts_rec depth coverage = None.
Proof.
  intros Hc. destruct depth as [|depth]; [reflexivity|].
  rewrite EnumerateNucleotideCounts_rec_step by lia.
  unfold pow_to_int.
  destruct (Z.ltb_spec coverage 0); [lia|].
  destruct (Z.leb_spec coverage 15); [lia|]. reflexivity.
Qed.

(** X4: [EnumerateNucleotideCounts(coverage)] returns for the coverages 1
    to 15 only, and then with 4^coverage rows.  For a coverage below 1 the
    recursion passes the base case [coverage == 1] and never ends, however
    deep the calls may nest; above 15 the row count [(int) pow(4, coverage)]
    is outside the range of [int]. *)
Theorem EnumerateNucleotideCounts_defined_range :
  forall coverage : Z,
    (1 <= coverage <= 15 ->
       exists mat : list RowVector4i,
         EnumerateNucleotideCounts coverage = Some mat
         /\ Z.of_nat (length mat) = 4 ^ coverage)
    /\ (coverage < 1 \/ 15 < coverage ->
          forall depth : nat, EnumerateNucleotideCounts_rec depth coverage = None).
Proof.
  intros coverage. split.
  - intros Hc.
    destruct (Z.to_nat coverage) as [|n] eqn:Hn; [lia|].
    assert (Hcov : coverage = Z.of_nat (S n)) by lia.
    exists (enumerated_rows n). rewrite Hcov.
    split; [apply EnumerateNucleotideCounts_rows; lia|].
    rewrite length_enumerated_rows. apply Z2Nat.id. apply Z.pow_nonneg. lia.
  - intros [Hc | Hc] depth.
    + apply EnumerateNucleotideCounts_rec_below. exact Hc.
    + apply EnumerateNucleotideCounts_rec_above. exact Hc.
Qed.

(** Coverage 2 gives 16 rows; coverage 0 never returns. *)
Lemma EnumerateNucleotideCounts_defined_range_witness :
  (exists mat : list RowVector4i,
      EnumerateNucleotideCounts 2 = Some mat /\ Z.of_nat (length mat) = 4 ^ 2)
  /\ (forall depth : nat, EnumerateNucleotideCounts_rec depth 0 = None).
Proof.
  split.
  - apply (proj1 (EnumerateNucleotideCounts_defined_range 2)). lia.
  - apply (proj2 (EnumerateNucleotideCounts_defined_range 0)). lia.
Defined.

Lemma ReadData_of_row_in_range (row : RowVector4i) :
  reads_in_range (ReadData_of_row row).
Proof.
  unfold reads_in_range, ReadData_of_row, to_uint16.
  cbn [reads0 reads1 reads2 reads3].
  pose proof (Z.mod_pos_bound (col0 row) 65536).
  pose proof (Z.mod_pos_bound (col1 row) 65536).
  pose proof (Z.mod_pos_bound (col2 row) 65536).
  pose proof (Z.mod_pos_bound (col3 row) 65536). lia.
Qed.

Lemma GetUniqueReadDataVector_app (mat1 mat2 : list RowVector4i) :
  GetUniqueReadDataVector (mat1 ++ mat2)
  = fold_left GetUniqueReadDataVector_step mat2 (GetUniqueReadDataVector mat1).
Proof. unfold GetUniqueReadDataVector. apply fold_left_app. Qed.

Lemma GetUniqueReadDataVector_step_prefix (acc : ReadDataVector) (row : RowVector4i) :
  acc `prefix_of` GetUniqueReadDataVector_step acc row.
Proof.
  unfold GetUniqueReadDataVector_step.
  destruct (negb _); [apply prefix_app_r|]; reflexivity.
Qed.

Lemma GetUniqueReadDataVector_fold_prefix (mat : list RowVector4i) :
  forall acc : ReadDataVector,
    acc `prefix_of` fold_left GetUniqueReadDataVector_step mat acc.
Proof.
  induction mat as [|row mat IH]; intros acc; [reflexivity|].
  cbn [fold_left]. etransitivity; [|apply IH].
  apply GetUniqueReadDataVector_step_prefix.
Qed.

Lemma ReadData_of_row_inj (row1 row2 : RowVector4i) :
  row_fits row1 -> row_fits row2 ->
  ReadData_of_row row1 = ReadData_of_row row2 -> row1 = row2.
Proof.
  intros H1 H2. rewrite !ReadData_of_row_fits by assumption.
  destruct row1 as [a0 a1 a2 a3], row2 as [b0 b1 b2 b3].
  cbn [col0 col1 col2 col3]. congruence.
Qed.

(** X5: on a matrix whose entries fit [uint16_t],
    [GetUniqueReadDataVector] returns the rows converted to [ReadData] with
    every repetition after the first left out: the result has no duplicate,
    holds exactly the rows of the matrix, grows only at its end as rows are
    added, and is the whole matrix in order when no row repeats. *)
Theorem GetUniqueReadDataVector_first_occurrences :
  forall mat : list RowVector4i,
    Forall row_fits mat ->
    NoDup (GetUniqueReadDataVector mat)
    /\ (forall data, data ∈ GetUniqueReadDataVector mat
                     <-> exists row, row ∈ mat /\ data = ReadData_of_row row)
    /\ (forall n : nat,
          GetUniqueReadDataVector (take n mat) `prefix_of` GetUniqueReadDataVector mat)
    /\ (NoDup mat -> GetUniqueReadDataVector mat = map ReadData_of_row mat).
Proof.
  intros mat Hfits.
  destruct (GetUniqueReadDataVector_spec mat Hfits) as [Hnd Hmem].
  split; [exact Hnd|]. split; [exact Hmem|]. split.
  - intros n. rewrite <- (take_drop n mat) at 2.
    rewrite GetUniqueReadDataVector_app. apply GetUniqueReadDataVector_fold_prefix.
  - clear Hnd Hmem. induction mat as [|row mat IH] using rev_ind; [reflexivity|].
    intros Hnodup.
    apply list.Forall_app in Hfits. destruct Hfits as [Hfits Hrow].
    apply list.NoDup_app in Hnodup. destruct Hnodup as (Hnd & Hnew & _).
    rewrite list.Forall_singleton in Hrow.
    rewrite GetUniqueReadDataVector_app, map_app. cbn [fold_left map].
    rewrite (IH Hfits Hnd).
    unfold GetUniqueReadDataVector_step. rewrite is_in_vec_existsb. cbn [orb].
    destruct (existsb _ _) eqn:Hin; cbn [negb]; [|reflexivity].
    exfalso. apply (is_in_vec_iff row _ Hrow) in Hin.
    change (map ReadData_of_row mat) with (ReadData_of_row <$> mat) in Hin.
    apply list_elem_of_fmap in Hin. destruct Hin as (row' & Heq & Hrow').
    rewrite List.Forall_forall in Hfits.
    apply ReadData_of_row_inj in Heq;
      [|exact Hrow | apply Hfits, list_elem_of_In; exact Hrow'].
    subst row'. apply (Hnew row Hrow'). apply list_elem_of_here.
Qed.

(** The rows (2,0,0,0), (1,1,0,0), (2,0,0,0). *)
Lemma GetUniqueReadDataVector_first_occurrences_witness :
  let mat := [mkRow 2 0 0 0; mkRow 1 1 0 0; mkRow 2 0 0 0] in
  NoDup (GetUniqueReadDataVector mat)
  /\ (forall data, data ∈ GetUniqueReadDataVector mat
                   <-> exists row, row ∈ mat /\ data = ReadData_of_row row)
  /\ (forall n : nat,
        GetUniqueReadDataVector (take n mat) `prefix_of` GetUniqueReadDataVector mat)
  /\ (NoDup mat -> GetUniqueReadDataVector mat = map ReadData_of_row mat).
Proof.
  apply (GetUniqueReadDataVector_first_occurrences
           [mkRow 2 0 0 0; mkRow 1 1 0 0; mkRow 2 0 0 0]).
  repeat (apply Forall_cons; [unfold row_fits; cbn [col0 col1 col2 col3]; lia|]).
  apply Forall_nil.
Defined.

Lemma same_counts_out_of_range (data : ReadData) (row : RowVector4i) :
  reads_in_range data -> ~ row_fits row -> same_counts data row = false.
Proof.
  unfold reads_in_range, row_fits, same_counts. intros Hd Hrow.
  destruct (Z.eqb_spec (reads0 data) (col0 row)); [|reflexivity].
  destruct (Z.eqb_spec (reads1 data) (col1 row)); [|reflexivity].
  destruct (Z.eqb_spec (reads2 data) (col2 row)); [|reflexivity].
  destruct (Z.eqb_spec (reads3 data) (col3 row)); [|reflexivity].
  exfalso. apply Hrow. lia.
Qed.

Lemma GetUniqueReadDataVector_fold_out_of_range (mat : list RowVector4i) :
  Forall (fun row => ~ row_fits row) mat ->
  forall acc : ReadDataVector,
    Forall reads_in_range acc ->
    fold_left GetUniqueReadDataVector_step mat acc
    = acc ++ map ReadData_of_row mat.
Proof.
  induction mat as [|row mat IH]; intros Hmat acc Hacc.
  - cbn [fold_left map]. rewrite app_nil_r. reflexivity.
  - apply list.Forall_cons in Hmat. destruct Hmat as [Hrow Hmat].
    cbn [fold_left map].
    assert (Hstep : GetUniqueReadDataVector_step acc row
                    = acc ++ [ReadData_of_row row]).
    { unfold GetUniqueReadDataVector_step.
      rewrite is_in_vec_existsb. cbn [orb].
      replace (existsb (fun data => same_counts data row) acc) with false;
        [reflexivity|].
      symmetry. apply not_true_is_false. intros Hex.
      apply existsb_exists in Hex. destruct Hex as (data & Hin & Hsame).
      rewrite List.Forall_forall in Hacc.
      rewrite (same_counts_out_of_range data row (Hacc data Hin) Hrow) in Hsame.
      discriminate. }
    rewrite Hstep, IH; [rewrite <- app_assoc; reflexivity | exact Hmat |].
    apply list.Forall_app. split; [exact Hacc|].
    apply list.Forall_singleton. apply ReadData_of_row_in_range.
Qed.

(** X6: a row with an entry outside the range of [uint16_t] is never found
    in the vector, since the stored counts are compared after their
    truncation to 16 bits with the entries as they stand: of a matrix of
    such rows every row is appended, repeated rows included, so that the
    result can hold duplicates. *)
Theorem GetUniqueReadDataVector_out_of_range :
  forall mat : list RowVector4i,
    Forall (fun row => ~ row_fits row) mat ->
    GetUniqueReadDataVector mat = map ReadData_of_row mat.
Proof.
  intros mat Hmat. unfold GetUniqueReadDataVector.
  rewrite GetUniqueReadDataVector_fold_out_of_range by (exact Hmat || constructor).
  reflexivity.
Qed.

(** Twice the row (65536,0,0,0): the vector holds (0,0,0,0) twice. *)
Lemma GetUniqueReadDataVector_out_of_range_witness :
  GetUniqueReadDataVector [mkRow 65536 0 0 0; mkRow 65536 0 0 0]
  = map ReadData_of_row [mkRow 65536 0 0 0; mkRow 65536 0 0 0].
Proof.
  apply (GetUniqueReadDataVector_out_of_range
           [mkRow 65536 0 0 0; mkRow 65536 0 0 0]).
  repeat (apply Forall_cons;
            [unfold row_fits; cbn [col0 col1 col2 col3]; lia|]).
  apply Forall_nil.
Defined.

(** ** Further properties of the trio universe and its index *)

Lemma lookup_flat_map_const {A B : Type} (g : A -> list B) (k : nat) :
  (forall x, length (g x) = k) ->
  forall (l : list A) (i j : nat) (x : A),
    l !! i = Some x -> (j < k)%nat ->
    flat_map g l !! (i * k + j)%nat = g x !! j.
Proof.
  intros Hlen l. induction l as [|a l IH]; intros i j x Hi Hj; [discriminate|].
  cbn [flat_map]. destruct i as [|i].
  - injection Hi as ->. cbn [Nat.mul Nat.add].
    apply lookup_app_l. rewrite Hlen. exact Hj.
  - cbn [lookup list_lookup] in Hi.
    rewrite lookup_app_r by (rewrite Hlen; lia).
    rewrite Hlen. replace (S i * k + j - k)%nat with (i * k + j)%nat by lia.
    exact (IH i j x Hi Hj).
Qed.

(** The layout of the cube over a vector without duplicates. *)
Lemma trio_cube_layout (data_vec : ReadDataVector) :
  NoDup data_vec ->
  NoDup (trio_cube data_vec)
  /\ forall (i j k : nat) (data1 data2 data3 : ReadData),
       data_vec !! i = Some data1 -> data_vec !! j = Some data2 ->
       data_vec !! k = Some data3 ->
       trio_cube data_vec
         !! ((i * length data_vec + j) * length data_vec + k)%nat
       = Some [data1; data2; data3].
Proof.
  intros Hnd. split.
  - unfold trio_cube. change (flat_map ?g ?l) with (l ≫= g).
    apply NoDup_bind; [| |exact Hnd].
    + intros x1 x2 trio _ _ H1 H2.
      apply list_elem_of_bind in H1. destruct H1 as (y1 & H1 & _).
      apply list_elem_of_bind in H2. destruct H2 as (y2 & H2 & _).
      apply list_elem_of_fmap in H1. destruct H1 as (z1 & -> & _).
      apply list_elem_of_fmap in H2. destruct H2 as (z2 & Heq & _).
      congruence.
    + intros x _. apply NoDup_bind; [| |exact Hnd].
      * intros y1 y2 trio _ _ H1 H2.
        apply list_elem_of_fmap in H1. destruct H1 as (z1 & -> & _).
        apply list_elem_of_fmap in H2. destruct H2 as (z2 & Heq & _).
        congruence.
      * intros y _. apply NoDup_fmap_2_strong; [|exact Hnd].
        intros z1 z2 _ _ Heq. congruence.
  - intros i j k d1 d2 d3 Hi Hj Hk.
    set (n := length data_vec).
    assert (Hjn : (j < n)%nat) by (eapply lookup_lt_Some; exact Hj).
    assert (Hkn : (k < n)%nat) by (eapply lookup_lt_Some; exact Hk).
    replace ((i * n + j) * n + k)%nat with (i * (n * n) + (j * n + k))%nat by lia.
    unfold trio_cube.
    rewrite (lookup_flat_map_const _ (n * n)%nat) with (x := d1);
      [| intros x; apply length_flat_map_const; intros y; apply length_map
       | exact Hi | nia].
    rewrite (lookup_flat_map_const _ n) with (x := d2);
      [| intros y; apply length_map | exact Hj | exact Hkn].
    change (map ?f ?l) with (f <$> l).
    rewrite list_lookup_fmap, Hk. reflexivity.
Qed.

(** [GetTrioVector] at the coverages that can be enumerated. *)
Lemma GetTrioVector_cube (n : nat) :
  (n < 15)%nat ->
  exists data_vec : ReadDataVector,
    GetTrioVector (Z.of_nat (S n)) = Some (trio_cube data_vec)
    /\ NoDup data_vec
    /\ (forall data, data ∈ data_vec <-> read_counts (Z.of_nat (S n)) data)
    /\ length data_vec = binomial (S n + 3) 3.
Proof.
  intros Hn.
  destruct (GetUniqueReadDataVector_enumerated n Hn) as (Hnd & Hmem & Hlen).
  exists (GetUniqueReadDataVector (enumerated_rows n)).
  split; [|split; [exact Hnd | split; [exact Hmem | exact Hlen]]].
  unfold GetTrioVector. rewrite (EnumerateNucleotideCounts_rows n Hn).
  reflexivity.
Qed.

(** X7: for every coverage from 1 to 15, [GetTrioVector(coverage)] holds
    every triple of count vectors that sum to the coverage exactly once,
    C(coverage + 3, 3)^3 trios in all, laid out with the first member
    varying slowest: with [n] unique count vectors, the trio of the vectors
    number [i], [j] and [k] stands at index [(i * n + j) * n + k].  For any
    other coverage there is no result. *)
Theorem GetTrioVector_layout :
  forall coverage : Z,
    (1 <= coverage <= 15 ->
       exists (data_vec : ReadDataVector) (trio_vec : TrioVector),
         GetTrioVector coverage = Some trio_vec
         /\ NoDup data_vec
         /\ (forall data, data ∈ data_vec <-> read_counts coverage data)
         /\ length data_vec = binomial (Z.to_nat coverage + 3) 3
         /\ Z.of_nat (length trio_vec) = Z.of_nat (length data_vec) ^ 3
         /\ NoDup trio_vec
         /\ (forall trio, trio ∈ trio_vec
                          <-> exists data1 data2 data3,
                                read_counts coverage data1
                                /\ read_counts coverage data2
                                /\ read_counts coverage data3
                                /\ trio = [data1; data2; data3])
         /\ (forall (i j k : nat) (data1 data2 data3 : ReadData),
               data_vec !! i = Some data1 -> data_vec !! j = Some data2 ->
               data_vec !! k = Some data3 ->
               trio_vec !! ((i * length data_vec + j) * length data_vec + k)%nat
               = Some [data1; data2; data3]))
    /\ (coverage < 1 \/ 15 < coverage -> GetTrioVector coverage = None).
Proof.
  intros coverage. split.
  - intros Hc.
    destruct (Z.to_nat coverage) as [|n] eqn:Hn; [lia|].
    assert (Hcov : coverage = Z.of_nat (S n)) by lia.
    assert (Hlt : (n < 15)%nat) by lia.
    destruct (GetTrioVector_cube n Hlt) as (data_vec & Htv & Hnd & Hmem & Hlen).
    destruct (trio_cube_layout data_vec Hnd) as [Hnd3 Hlayout].
    destruct (cube_trios data_vec) as (Hcube & _ & Hin).
    fold (trio_cube data_vec) in Hcube, Hin.
    exists data_vec, (trio_cube data_vec). rewrite Hcov.
    split; [exact Htv|]. split; [exact Hnd|]. split; [exact Hmem|].
    split; [exact Hlen|]. split; [|split; [exact Hnd3 | split; [|exact Hlayout]]].
    + rewrite Hcube, !Nat2Z.inj_mul. ring.
    + intros trio. rewrite list_elem_of_In, Hin. split.
      * intros (d1 & d2 & d3 & H1 & H2 & H3 & ->). exists d1, d2, d3.
        rewrite <- !Hmem, !list_elem_of_In. auto.
      * intros (d1 & d2 & d3 & H1 & H2 & H3 & ->). exists d1, d2, d3.
        rewrite <- !list_elem_of_In, !Hmem. auto.
  - intros Hc. unfold GetTrioVector, EnumerateNucleotideCounts.
    destruct Hc as [Hc | Hc].
    + rewrite EnumerateNucleotideCounts_rec_below by exact Hc. reflexivity.
    + rewrite EnumerateNucleotideCounts_rec_above by exact Hc. reflexivity.
Qed.

(** Coverage 1 has 4 count vectors and 64 trios; coverage 0 has no result. *)
Lemma GetTrioVector_layout_witness :
  (exists (data_vec : ReadDataVector) (trio_vec : TrioVector),
      GetTrioVector 1 = Some trio_vec
      /\ NoDup data_vec
      /\ (forall data, data ∈ data_vec <-> read_counts 1 data)
      /\ length data_vec = binomial (Z.to_nat 1 + 3) 3
      /\ Z.of_nat (length trio_vec) = Z.of_nat (length data_vec) ^ 3
      /\ NoDup trio_vec
      /\ (forall trio, trio ∈ trio_vec
                       <-> exists data1 data2 data3,
                             read_counts 1 data1 /\ read_counts 1 data2
                             /\ read_counts 1 data3
                             /\ trio = [data1; data2; data3])
      /\ (forall (i j k : nat) (data1 data2 data3 : ReadData),
            data_vec !! i = Some data1 -> data_vec !! j = Some data2 ->
            data_vec !! k = Some data3 ->
            trio_vec !! ((i * length data_vec + j) * length data_vec + k)%nat
            = Some [data1; data2; data3]))
  /\ GetTrioVector 0 = None.
Proof.
  split.
  - apply (proj1 (GetTrioVector_layout 1)). lia.
  - apply (proj2 (GetTrioVector_layout 0)). lia.
Defined.

(** ** The order of the enumerated rows *)

Lemma lookup_identity_mat (i : nat) :
  (i < 4)%nat ->
  identity_mat !! i
  = Some (mkRow (digit_count 0 [i]) (digit_count 1 [i])
                (digit_count 2 [i]) (digit_count 3 [i])).
Proof.
  intros Hi.
  destruct i as [|[|[|[|i]]]]; [reflexivity | reflexivity | reflexivity
                               | reflexivity | lia].
Qed.

Lemma digit_count_cons (k d : nat) (digits : list nat) :
  digit_count k (d :: digits) = digit_count k [d] + digit_count k digits.
Proof.
  unfold digit_count. cbn [List.filter]. destruct (Nat.eqb d k); cbn [length]; lia.
Qed.

(** Row [row] of the unrolled matrix counts the digits of [row]. *)
Lemma lookup_enumerated_rows (n : nat) :
  forall row : nat,
    Z.of_nat row < 4 ^ Z.of_nat (S n) ->
    enumerated_rows n !! row
    = Some (mkRow (digit_count 0 (base4_digits (S n) row))
                  (digit_count 1 (base4_digits (S n) row))
                  (digit_count 2 (base4_digits (S n) row))
                  (digit_count 3 (base4_digits (S n) row))).
Proof.
  induction n as [|n IH]; intros row Hrow.
  - assert (Hlt : (row < 4)%nat) by (change (4 ^ Z.of_nat 1) with 4 in Hrow; lia).
    cbn [enumerated_rows base4_digits].
    rewrite (Nat.mod_small row 4) by exact Hlt.
    apply lookup_identity_mat. exact Hlt.
  - pose proof (Nat.div_mod_eq row 4) as Hdiv.
    pose proof (Nat.mod_upper_bound row 4 ltac:(lia)) as Hmod.
    assert (Hquot : Z.of_nat (row / 4) < 4 ^ Z.of_nat (S n)).
    { rewrite (Nat2Z.inj_succ (S n)), Z.pow_succ_r in Hrow by lia. lia. }
    cbn [enumerated_rows].
    replace row with (row / 4 * 4 + row mod 4)%nat at 1 by lia.
    rewrite (lookup_flat_map_const _ 4) with (x := mkRow
               (digit_count 0 (base4_digits (S n) (row / 4)))
               (digit_count 1 (base4_digits (S n) (row / 4)))
               (digit_count 2 (base4_digits (S n) (row / 4)))
               (digit_count 3 (base4_digits (S n) (row / 4))));
      [| intros x; reflexivity | apply IH; exact Hquot | exact Hmod].
    change (map ?f ?l) with (f <$> l).
    rewrite list_lookup_fmap, (lookup_identity_mat _ Hmod).
    cbn [fmap option_fmap option_map]. unfold row_add. cbn [col0 col1 col2 col3].
    change (base4_digits (S (S n)) row)
      with ((row mod 4)%nat :: base4_digits (S n) (row / 4)).
    rewrite !(digit_count_cons _ (row mod 4) (base4_digits (S n) (row / 4))). reflexivity.
Qed.

(** X26: for every coverage from 1 to 15, row [r] of
    [EnumerateNucleotideCounts(coverage)] holds, for each nucleotide [k],
    the number of digits equal to [k] among the [coverage] lowest digits of
    [r] in base 4: the rows go through the 4^coverage sequences of
    [coverage] reads in the order of their numbers, and each holds the
    nucleotide counts of its sequence. *)
Theorem EnumerateNucleotideCounts_row_counts_digits :
  forall (coverage : Z) (r : nat),
    1 <= coverage <= 15 -> Z.of_nat r < 4 ^ coverage ->
    exists mat : list RowVector4i,
      EnumerateNucleotideCounts coverage = Some mat
      /\ mat !! r
         = Some (mkRow (digit_count 0 (base4_digits (Z.to_nat coverage) r))
                       (digit_count 1 (base4_digits (Z.to_nat coverage) r))
                       (digit_count 2 (base4_digits (Z.to_nat coverage) r))
                       (digit_count 3 (base4_digits (Z.to_nat coverage) r))).
Proof.
  intros coverage r Hc Hr.
  destruct (Z.to_nat coverage) as [|n] eqn:Hn; [lia|].
  assert (Hcov : coverage = Z.of_nat (S n)) by lia.
  exists (enumerated_rows n). rewrite Hcov at 1.
  split; [apply EnumerateNucleotideCounts_rows; lia|].
  apply lookup_enumerated_rows. rewrite <- Hcov. exact Hr.
Qed.

(** Coverage 3, row 27: the digits 3, 2, 1 give one C, one G and one T. *)
Lemma EnumerateNucleotideCounts_row_counts_digits_witness :
  exists mat : list RowVector4i,
    EnumerateNucleotideCounts 3 = Some mat
    /\ mat !! 27%nat
       = Some (mkRow (digit_count 0 (base4_digits (Z.to_nat 3) 27))
                     (digit_count 1 (base4_digits (Z.to_nat 3) 27))
                     (digit_count 2 (base4_digits (Z.to_nat 3) 27))
                     (digit_count 3 (base4_digits (Z.to_nat 3) 27))).
Proof.
  apply (EnumerateNucleotideCounts_row_counts_digits 3 27); [lia | reflexivity].
Defined.

Lemma EqualsReadDataVector_take (data_vec trio : ReadDataVector) :
  EqualsReadDataVector (take 3 data_vec) trio = EqualsReadDataVector data_vec trio.
Proof. destruct data_vec as [|a0 [|a1 [|a2 rest]]]; reflexivity. Qed.

Lemma IndexOfReadDataVector_loop_take (data_vec : ReadDataVector)
    (trio_vec : TrioVector) (n : nat) :
  forall i : Z,
    IndexOfReadDataVector_loop n i (take 3 data_vec) trio_vec
    = IndexOfReadDataVector_loop n i data_vec trio_vec.
Proof.
  induction n as [|n IH]; intros i; [reflexivity|].
  cbn [IndexOfReadDataVector_loop].
  destruct (trio_vec !! Z.to_nat i) as [trio|]; [|reflexivity].
  rewrite EqualsReadDataVector_take, IH. reflexivity.
Qed.

(** X8: [IndexOfReadDataVector] inverts the indexing of the reference
    vector [GetTrioVector(4)]: applied to the trio that stands at index
    [i], it returns [i].  It reads the first three entries of its argument
    only, and has no defined result when there are fewer than three. *)
Theorem IndexOfReadDataVector_inverts_lookup :
  exists trio_vec : TrioVector,
    GetTrioVector 4 = Some trio_vec
    /\ (forall (i : nat) (trio : ReadDataVector),
          trio_vec !! i = Some trio ->
          IndexOfReadDataVector trio = Some (Z.of_nat i))
    /\ (forall data_vec : ReadDataVector,
          IndexOfReadDataVector (take 3 data_vec) = IndexOfReadDataVector data_vec)
    /\ (forall data_vec : ReadDataVector,
          (length data_vec < 3)%nat -> IndexOfReadDataVector data_vec = None).
Proof.
  assert (Hlt : (3 < 15)%nat) by lia.
  destruct (GetTrioVector_cube 3 Hlt) as (data_vec & Htv & Hnd & _ & Hlen).
  change (Z.of_nat 4) with 4 in Htv.
  destruct (trio_cube_layout data_vec Hnd) as [Hnd3 _].
  destruct (cube_trios data_vec) as (Hcube & Hthree & _).
  fold (trio_cube data_vec) in Hcube, Hthree.
  assert (Hsize : Z.of_nat (length (trio_cube data_vec)) = kTrioCount).
  { rewrite Hcube, Hlen. change (binomial (4 + 3) 3) with 35%nat.
    rewrite !Nat2Z.inj_mul. reflexivity. }
  revert Htv Hnd3 Hthree Hsize.
  generalize (trio_cube data_vec) as trio_vec.
  intros trio_vec Htv Hnd3 Hthree Hsize.
  exists trio_vec. split; [exact Htv|]. split; [|split].
  - intros i trio Hi.
    assert (Hlen3 : length trio = 3%nat).
    { rewrite List.Forall_forall in Hthree. apply Hthree.
      apply list_elem_of_In. eapply list_elem_of_lookup_2. exact Hi. }
    destruct (IndexOfReadDataVector_loop_spec trio trio_vec Hlen3 Hthree
                (Z.to_nat kTrioCount) 0) as (index & Hloop & Hspec);
      [lia | unfold kTrioCount in *; lia |].
    unfold IndexOfReadDataVector. change kNucleotideCount with 4.
    rewrite Htv, Hloop. f_equal.
    pose proof (lookup_lt_Some _ _ _ Hi) as Hbound.
    destruct Hspec as [(_ & Hnone) | (Hrange & Hat & _)].
    + exfalso. apply (Hnone (Z.of_nat i)); [unfold kTrioCount in *; lia|].
      rewrite Nat2Z.id. exact Hi.
    + pose proof (NoDup_lookup _ _ _ _ Hnd3 Hat Hi). lia.
  - intros dv. unfold IndexOfReadDataVector. change kNucleotideCount with 4.
    rewrite Htv. apply IndexOfReadDataVector_loop_take.
  - intros dv Hshort. unfold IndexOfReadDataVector. change kNucleotideCount with 4.
    rewrite Htv.
    replace (Z.to_nat kTrioCount) with (S (Z.to_nat (kTrioCount - 1)))
      by (unfold kTrioCount; lia).
    cbn [IndexOfReadDataVector_loop].
    destruct (lookup_lt_is_Some_2 trio_vec (Z.to_nat 0)) as [trio Htrio];
      [unfold kTrioCount in *; lia|].
    rewrite Htrio.
    destruct dv as [|a0 [|a1 [|a2 rest]]]; try reflexivity.
    cbn [length] in Hshort. lia.
Qed.

(** ** Further properties of the simulator *)

Lemma rem_2_even (x : Z) :
  0 <= x -> Z.rem x 2 = if Z.even x then 0 else 1.
Proof.
  intros Hx. rewrite Z.rem_mod_nonneg by lia.
  rewrite Zmod_even. reflexivity.
Qed.

(** X9: for parent genotypes in [[0, 16)], [GetChildGenotype] takes the
    next two results [r1] and [r2] of [rand] and nothing else from the
    generators, leaves the parameters as they are, and returns
    [4 * a + b], where [a] is the first allele of the mother when [r1] is
    even and her second allele otherwise, and [b] likewise for the father
    and [r2]. *)
Theorem GetChildGenotype_closed_form :
  forall (D : Type) (s : SimulationModel D)
         (mother_genotype father_genotype r1 r2 : Z) (rest : list Z),
    0 <= mother_genotype < 16 -> 0 <= father_genotype < 16 ->
    0 <= r1 -> 0 <= r2 ->
    rand_draws (r s) = r1 :: r2 :: rest ->
    GetChildGenotype mother_genotype father_genotype s
    = Some (4 * (if Z.even r1 then mother_genotype / 4 else mother_genotype mod 4)
            + (if Z.even r2 then father_genotype / 4 else father_genotype mod 4),
            mkSimulationModel (params_ s) (coverage_ s)
              (mkRandomSource (discrete_draws (r s)) rest
                 (multinomial_draws (r s)))).
Proof.
  intros D s m f r1 r2 rest Hm Hf Hr1 Hr2 Hdraws.
  destruct (kGenotypeNumIndex_in_range m Hm) as [Hm0 Hm1].
  destruct (kGenotypeNumIndex_in_range f Hf) as [Hf0 Hf1].
  set (a := if Z.even r1 then m / 4 else m mod 4).
  set (b := if Z.even r2 then f / 4 else f mod 4).
  assert (Ha : kGenotypeNumIndex m (Z.rem r1 2) = Some a).
  { rewrite rem_2_even by exact Hr1. unfold a. destruct (Z.even r1); assumption. }
  assert (Hb : kGenotypeNumIndex f (Z.rem r2 2) = Some b).
  { rewrite rem_2_even by exact Hr2. unfold b. destruct (Z.even r2); assumption. }
  assert (Harange : 0 <= a < 4).
  { unfold a. pose proof (Z.mod_pos_bound m 4).
    pose proof (Z.div_pos m 4). pose proof (Z.div_lt_upper_bound m 4 4).
    destruct (Z.even r1); lia. }
  assert (Hbrange : 0 <= b < 4).
  { unfold b. pose proof (Z.mod_pos_bound f 4).
    pose proof (Z.div_pos f 4). pose proof (Z.div_lt_upper_bound f 4 4).
    destruct (Z.even r2); lia. }
  destruct (GetChildGenotype_loop_finds a b Harange Hbrange) as (Hloop & _ & _).
  unfold GetChildGenotype, mbind, Sim_bind, rand, lift.
  rewrite Hdraws. cbn [rand_draws r].
  destruct (Z.leb_spec 0 r1) as [_|]; [|lia].
  rewrite Ha. cbn [rand_draws r discrete_draws multinomial_draws params_ coverage_].
  destruct (Z.leb_spec 0 r2) as [_|]; [|lia].
  rewrite Hb, Hloop. do 2 f_equal. lia.
Qed.

(** Mother AC, father GT, [rand] returning 1 then 0: the child is CG. *)
Lemma GetChildGenotype_closed_form_witness :
  GetChildGenotype 1 11
    (mkSimulationModel (params_rate0 [] []) 4 (mkRandomSource [7] [1; 0; 5] []))
  = Some (4 * (if Z.even 1 then 1 / 4 else 1 mod 4)
          + (if Z.even 0 then 11 / 4 else 11 mod 4),
          mkSimulationModel (params_rate0 [] []) 4 (mkRandomSource [7] [5] [])).
Proof.
  apply (GetChildGenotype_closed_form float
           (mkSimulationModel (params_rate0 [] []) 4
              (mkRandomSource [7] [1; 0; 5] []))
           1 11 1 0 [5]); [lia | lia | lia | lia | reflexivity].
Defined.

(** ** The Kronecker products of matrices *)

Lemma fold_left_pointwise {S Q : Type} (f g : S -> Q -> S) (l : list Q) (s : S) :
  (forall s x, f s x = g s x) -> fold_left f l s = fold_left g l s.
Proof.
  intros Hfg. revert s. induction l as [|x l IH]; intros s; [reflexivity|].
  cbn [fold_left]. rewrite Hfg. apply IH.
Qed.

Lemma fold_left_flat_map {S Q P : Type} (f : S -> Q -> S) (g : P -> list Q)
    (l : list P) (s : S) :
  fold_left f (flat_map g l) s = fold_left (fun s x => fold_left f (g x) s) l s.
Proof.
  revert s. induction l as [|x l IH]; intros s; [reflexivity|].
  cbn [flat_map fold_left]. rewrite fold_left_app. apply IH.
Qed.

Lemma fold_left_map {S Q P : Type} (f : S -> Q -> S) (h : P -> Q)
    (l : list P) (s : S) :
  fold_left f (map h l) s = fold_left (fun s x => f s (h x)) l s.
Proof.
  revert s. induction l as [|x l IH]; intros s; [reflexivity|].
  cbn [map fold_left]. apply IH.
Qed.

(** A nest of four [for] loops is one pass over the tuples of [quads]. *)
Lemma for_loop_quads {S : Type} (a b c d : nat)
    (body : nat -> nat -> nat -> nat -> S -> S) (s : S) :
  for_loop a (fun i s =>
    for_loop b (fun j s =>
      for_loop c (fun k s =>
        for_loop d (fun l s => body i j k l s) s) s) s) s
  = fold_left (fun s '(i, j, k, l) => body i j k l s) (quads a b c d) s.
Proof.
  unfold for_loop, quads.
  rewrite fold_left_flat_map. apply fold_left_pointwise. intros s1 i.
  rewrite fold_left_flat_map. apply fold_left_pointwise. intros s2 j.
  rewrite fold_left_flat_map. apply fold_left_pointwise. intros s3 k.
  rewrite fold_left_map. reflexivity.
Qed.

Lemma elem_of_quads (a b c d i j k l : nat) :
  In (i, j, k, l) (quads a b c d)
  <-> (i < a)%nat /\ (j < b)%nat /\ (k < c)%nat /\ (l < d)%nat.
Proof.
  unfold quads. rewrite in_flat_map. split.
  - intros (i' & Hi & H). apply in_flat_map in H. destruct H as (j' & Hj & H).
    apply in_flat_map in H. destruct H as (k' & Hk & H).
    apply in_map_iff in H. destruct H as (l' & Heq & Hl).
    injection Heq as -> -> -> ->.
    apply in_seq in Hi, Hj, Hk, Hl. lia.
  - intros (Hi & Hj & Hk & Hl).
    exists i. split; [apply in_seq; lia|]. apply in_flat_map.
    exists j. split; [apply in_seq; lia|]. apply in_flat_map.
    exists k. split; [apply in_seq; lia|]. apply in_map_iff.
    exists l. split; [reflexivity | apply in_seq; lia].
Qed.

Lemma length_fold_insert {B Q : Type} (idx : Q -> nat) (val : Q -> B)
    (qs : list Q) (s : list B) :
  length (fold_left (fun s q => <[idx q := val q]> s) qs s) = length s.
Proof.
  revert s. induction qs as [|q qs IH]; intros s; [reflexivity|].
  cbn [fold_left]. rewrite IH. apply length_insert.
Qed.

(** After a pass of assignments, a cell holds the value of the assignments
    to it when they all carry the same value. *)
Lemma lookup_fold_insert {B Q : Type} (idx : Q -> nat) (val : Q -> B)
    (qs : list Q) (s : list B) (q : Q) :
  In q qs -> (forall q', In q' qs -> idx q' = idx q -> val q' = val q) ->
  (idx q < length s)%nat ->
  fold_left (fun s q => <[idx q := val q]> s) qs s !! idx q = Some (val q).
Proof.
  intros Hin Hsame Hlen. induction qs as [|q0 qs IH] using rev_ind; [destruct Hin|].
  rewrite fold_left_app. cbn [fold_left].
  destruct (Nat.eq_dec (idx q0) (idx q)) as [Heq | Hne].
  - rewrite Heq, list_lookup_insert_eq by (rewrite length_fold_insert; exact Hlen).
    f_equal. apply Hsame; [apply in_or_app; right; left; reflexivity | exact Heq].
  - rewrite list_lookup_insert_ne by exact Hne.
    apply IH.
    + apply in_app_or in Hin. destruct Hin as [Hin | [-> | []]];
        [exact Hin | congruence].
    + intros q' Hq'. apply Hsame. apply in_or_app. left. exact Hq'.
Qed.

(** A storage whose cells are all written has a content. *)
Lemma defined_tabulate {B : Type} (cells : list (option B)) (f : nat -> B) :
  (forall p, (p < length cells)%nat -> cells !! p = Some (Some (f p))) ->
  defined cells = Some (map f (seq 0 (length cells))).
Proof.
  intros Hcells.
  replace cells with (Some <$> map f (seq 0 (length cells))) at 1;
    [apply defined_Some|].
  apply list_eq. intros p.
  rewrite list_lookup_fmap. change (map f ?l) with (f <$> l).
  rewrite list_lookup_fmap.
  destruct (Nat.lt_ge_cases p (length cells)) as [Hlt | Hge].
  - rewrite lookup_seq_lt by exact Hlt. rewrite Hcells by exact Hlt. reflexivity.
  - rewrite lookup_seq_ge by exact Hge.
    rewrite lookup_ge_None_2 by exact Hge. reflexivity.
Qed.

(** A nest of four loops that assigns one cell at each visit. *)
Lemma for_loop_quads_insert {B : Type} (a b c d : nat)
    (idx : nat -> nat -> nat -> nat -> nat)
    (val : nat -> nat -> nat -> nat -> B) (s : list B) :
  for_loop a (fun i s =>
    for_loop b (fun j s =>
      for_loop c (fun k s =>
        for_loop d (fun l s => <[idx i j k l := val i j k l]> s) s) s) s) s
  = fold_left (fun s q => <[on_quad idx q := on_quad val q]> s) (quads a b c d) s.
Proof.
  rewrite (for_loop_quads a b c d (fun i j k l s => <[idx i j k l := val i j k l]> s)).
  apply fold_left_pointwise. intros s' [[[i j] k] l]. reflexivity.
Qed.

Lemma lookup_for_loop_quads_insert {B : Type} (a b c d : nat)
    (idx : nat -> nat -> nat -> nat -> nat)
    (val : nat -> nat -> nat -> nat -> B) (s : list B) (i j k l : nat) :
  (i < a)%nat -> (j < b)%nat -> (k < c)%nat -> (l < d)%nat ->
  (forall i' j' k' l', (i' < a)%nat -> (j' < b)%nat -> (k' < c)%nat -> (l' < d)%nat ->
     idx i' j' k' l' = idx i j k l -> val i' j' k' l' = val i j k l) ->
  (idx i j k l < length s)%nat ->
  for_loop a (fun i s =>
    for_loop b (fun j s =>
      for_loop c (fun k s =>
        for_loop d (fun l s => <[idx i j k l := val i j k l]> s) s) s) s) s
    !! idx i j k l
  = Some (val i j k l).
Proof.
  intros Hi Hj Hk Hl Hsame Hlen. rewrite for_loop_quads_insert.
  apply (lookup_fold_insert (on_quad idx) (on_quad val) _ s (i, j, k, l)).
  - apply elem_of_quads. auto.
  - intros [[[i' j'] k'] l'] Hin Heq. apply elem_of_quads in Hin.
    destruct Hin as (? & ? & ? & ?). apply Hsame; assumption.
  - exact Hlen.
Qed.

Lemma length_for_loop_quads_insert {B : Type} (a b c d : nat)
    (idx : nat -> nat -> nat -> nat -> nat)
    (val : nat -> nat -> nat -> nat -> B) (s : list B) :
  length
    (for_loop a (fun i s =>
       for_loop b (fun j s =>
         for_loop c (fun k s =>
           for_loop d (fun l s => <[idx i j k l := val i j k l]> s) s) s) s) s)
  = length s.
Proof. rewrite for_loop_quads_insert. apply length_fold_insert. Qed.

Section KroneckerMatrix.
Context `{DA : DoubleArith D}.

Lemma length_KroneckerProduct_Matrix4d (mat : list D) :
  length (KroneckerProduct_Matrix4d mat) = 256%nat.
Proof.
  unfold KroneckerProduct_Matrix4d.
  etransitivity;
    [apply (length_for_loop_quads_insert 4 4 4 4
              (fun i j k l => ((i * 4 + k) * 16 + (j * 4 + l))%nat)
              (fun i j k l =>
                 Some (dmul (mat !!! (i * 4 + j)%nat) (mat !!! (k * 4 + l)%nat))))|].
  reflexivity.
Qed.

Lemma lookup_KroneckerProduct_Matrix4d (mat : list D) (i j k l : nat) :
  (i < 4)%nat -> (j < 4)%nat -> (k < 4)%nat -> (l < 4)%nat ->
  KroneckerProduct_Matrix4d mat !! ((i * 4 + k) * 16 + (j * 4 + l))%nat
  = Some (Some (dmul (mat !!! (i * 4 + j)%nat) (mat !!! (k * 4 + l)%nat))).
Proof.
  intros Hi Hj Hk Hl. unfold KroneckerProduct_Matrix4d.
  apply (lookup_for_loop_quads_insert 4 4 4 4
           (fun i j k l => ((i * 4 + k) * 16 + (j * 4 + l))%nat)
           (fun i j k l =>
              Some (dmul (mat !!! (i * 4 + j)%nat) (mat !!! (k * 4 + l)%nat))));
    try assumption.
  - intros i' j' k' l' Hi' Hj' Hk' Hl' Heq.
    assert (i' = i /\ j' = j /\ k' = k /\ l' = l) as (-> & -> & -> & ->) by lia.
    reflexivity.
  - unfold uninitialized. rewrite length_replicate. lia.
Qed.

Lemma length_KroneckerProduct_Matrix4_16d (mat : list D) :
  length (KroneckerProduct_Matrix4_16d mat) = 4096%nat.
Proof.
  unfold KroneckerProduct_Matrix4_16d.
  etransitivity;
    [apply (length_for_loop_quads_insert 4 16 4 16
              (fun i j k l => ((i * 4 + k) * 256 + (j * 16 + l))%nat)
              (fun i j k l =>
                 Some (dmul (mat !!! (i * 16 + j)%nat) (mat !!! (k * 16 + l)%nat))))|].
  unfold uninitialized. rewrite length_replicate. reflexivity.
Qed.

Lemma lookup_KroneckerProduct_Matrix4_16d (mat : list D) (i j k l : nat) :
  (i < 4)%nat -> (j < 16)%nat -> (k < 4)%nat -> (l < 16)%nat ->
  KroneckerProduct_Matrix4_16d mat !! ((i * 4 + k) * 256 + (j * 16 + l))%nat
  = Some (Some (dmul (mat !!! (i * 16 + j)%nat) (mat !!! (k * 16 + l)%nat))).
Proof.
  intros Hi Hj Hk Hl. unfold KroneckerProduct_Matrix4_16d.
  apply (lookup_for_loop_quads_insert 4 16 4 16
           (fun i j k l => ((i * 4 + k) * 256 + (j * 16 + l))%nat)
           (fun i j k l =>
              Some (dmul (mat !!! (i * 16 + j)%nat) (mat !!! (k * 16 + l)%nat))));
    try assumption.
  - intros i' j' k' l' Hi' Hj' Hk' Hl' Heq.
    assert (i' = i /\ j' = j /\ k' = k /\ l' = l) as (-> & -> & -> & ->) by lia.
    reflexivity.
  - unfold uninitialized. rewrite length_replicate. lia.
Qed.
End KroneckerMatrix.

Lemma defined_content {B : Type} (cells : list (option B)) (l : list B) :
  defined cells = Some l -> cells = Some <$> l.
Proof.
  revert l. induction cells as [|cell cells IH]; intros l H.
  - injection H as <-. reflexivity.
  - cbn [defined] in H. destruct cell as [b|]; [|discriminate].
    destruct (defined cells) as [l'|]; [|discriminate].
    injection H as <-. rewrite (IH l' eq_refl). reflexivity.
Qed.

Lemma defined_is_Some {B : Type} (cells : list (option B)) :
  (forall p, (p < length cells)%nat -> exists v, cells !! p = Some (Some v)) ->
  exists l, defined cells = Some l.
Proof.
  induction cells as [|cell cells IH]; intros Hcells; [eexists; reflexivity|].
  destruct (Hcells 0%nat) as (v & Hv); [cbn [length]; lia|].
  injection Hv as ->.
  destruct IH as (l & Hl).
  { intros p Hp. apply (Hcells (S p)). cbn [length]. lia. }
  exists (v :: l). cbn [defined]. rewrite Hl. reflexivity.
Qed.

Lemma mapM_seq_Some {B : Type} (f : nat -> option B) (g : nat -> B) (n : nat) :
  forall start : nat,
    (forall c, (start <= c < start + n)%nat -> f c = Some (g c)) ->
    mapM f (seq start n) = Some (map g (seq start n)).
Proof.
  induction n as [|n IH]; intros start Hf; [reflexivity|].
  cbn [seq map mapM]. rewrite Hf by lia.
  rewrite (IH (S start)) by (intros c Hc; apply Hf; lia).
  reflexivity.
Qed.

Lemma mat_row_tabulate {B : Type} (rows cols : nat) (m : list B) (i : nat)
    (g : nat -> B) :
  (i < rows)%nat ->
  (forall c, (c < cols)%nat -> m !! (i * cols + c)%nat = Some (g c)) ->
  mat_row rows cols m (Z.of_nat i) = Some (map g (seq 0 cols)).
Proof.
  intros Hi Hm. unfold mat_row.
  destruct (Z.leb_spec 0 (Z.of_nat i)); [|lia].
  destruct (Z.ltb_spec (Z.of_nat i) (Z.of_nat rows)); [|lia].
  cbn [andb]. rewrite Nat2Z.id. apply mapM_seq_Some.
  intros c Hc. unfold coeff. apply Hm. lia.
Qed.

Lemma mat_col_tabulate {B : Type} (rows cols : nat) (m : list B) (j : nat)
    (g : nat -> B) :
  (j < cols)%nat ->
  (forall row, (row < rows)%nat -> m !! (row * cols + j)%nat = Some (g row)) ->
  mat_col rows cols m (Z.of_nat j) = Some (map g (seq 0 rows)).
Proof.
  intros Hj Hm. unfold mat_col.
  destruct (Z.leb_spec 0 (Z.of_nat j)); [|lia].
  destruct (Z.ltb_spec (Z.of_nat j) (Z.of_nat cols)); [|lia].
  cbn [andb]. rewrite Nat2Z.id. apply mapM_seq_Some.
  intros row Hrow. unfold coeff. apply Hm. lia.
Qed.

Lemma lookup_total_Some {B : Type} `{Inhabited B} (l : list B) (i : nat) :
  (i < length l)%nat -> l !! i = Some (l !!! i).
Proof.
  intros Hi. destruct (lookup_lt_is_Some_2 l i Hi) as [x Hx].
  rewrite Hx. f_equal. symmetry. apply list_lookup_total_correct. exact Hx.
Qed.

Section KroneckerMatrixContent.
Context `{DA : DoubleArith D}.

(** The 16 x 16 product has a content, entry by entry the product of two
    entries of the matrix. *)
Lemma KroneckerProduct_Matrix4d_content (mat : list D) :
  exists kp : list D,
    defined (KroneckerProduct_Matrix4d mat) = Some kp
    /\ length kp = 256%nat
    /\ forall i j k l : nat,
         (i < 4)%nat -> (j < 4)%nat -> (k < 4)%nat -> (l < 4)%nat ->
         kp !! ((i * 4 + k) * 16 + (j * 4 + l))%nat
         = Some (dmul (mat !!! (i * 4 + j)%nat) (mat !!! (k * 4 + l)%nat)).
Proof.
  destruct (defined_is_Some (KroneckerProduct_Matrix4d mat)) as (kp & Hkp).
  { rewrite length_KroneckerProduct_Matrix4d. intros p Hp.
    pose proof (Nat.div_mod_eq p 64). pose proof (Nat.mod_upper_bound p 64).
    pose proof (Nat.div_mod_eq (p mod 64) 16).
    pose proof (Nat.mod_upper_bound (p mod 64) 16).
    pose proof (Nat.div_mod_eq ((p mod 64) mod 16) 4).
    pose proof (Nat.mod_upper_bound ((p mod 64) mod 16) 4).
    eexists.
    replace p with (((p / 64) * 4 + (p mod 64) / 16) * 16
                    + (((p mod 64) mod 16 / 4) * 4 + (p mod 64) mod 16 mod 4))%nat
      at 1 by lia.
    apply lookup_KroneckerProduct_Matrix4d; lia. }
  exists kp. split; [exact Hkp|].
  pose proof (defined_content _ _ Hkp) as Hcells.
  split.
  - rewrite <- (length_fmap Some kp), <- Hcells.
    apply length_KroneckerProduct_Matrix4d.
  - intros i j k l Hi Hj Hk Hl.
    pose proof (lookup_KroneckerProduct_Matrix4d mat i j k l Hi Hj Hk Hl) as Hcell.
    rewrite Hcells, list_lookup_fmap in Hcell.
    destruct (kp !! _) as [v|]; [|discriminate].
    injection Hcell as ->. reflexivity.
Qed.

(** The 16 x 256 product likewise. *)
Lemma KroneckerProduct_Matrix4_16d_content (mat : list D) :
  exists kp : list D,
    defined (KroneckerProduct_Matrix4_16d mat) = Some kp
    /\ length kp = 4096%nat
    /\ forall i j k l : nat,
         (i < 4)%nat -> (j < 16)%nat -> (k < 4)%nat -> (l < 16)%nat ->
         kp !! ((i * 4 + k) * 256 + (j * 16 + l))%nat
         = Some (dmul (mat !!! (i * 16 + j)%nat) (mat !!! (k * 16 + l)%nat)).
Proof.
  destruct (defined_is_Some (KroneckerProduct_Matrix4_16d mat)) as (kp & Hkp).
  { rewrite length_KroneckerProduct_Matrix4_16d. intros p Hp.
    pose proof (Nat.div_mod_eq p 1024). pose proof (Nat.mod_upper_bound p 1024).
    pose proof (Nat.div_mod_eq (p mod 1024) 256).
    pose proof (Nat.mod_upper_bound (p mod 1024) 256).
    pose proof (Nat.div_mod_eq ((p mod 1024) mod 256) 16).
    pose proof (Nat.mod_upper_bound ((p mod 1024) mod 256) 16).
    eexists.
    replace p with (((p / 1024) * 4 + (p mod 1024) / 256) * 256
                    + (((p mod 1024) mod 256 / 16) * 16
                       + (p mod 1024) mod 256 mod 16))%nat
      at 1 by lia.
    apply lookup_KroneckerProduct_Matrix4_16d; lia. }
  exists kp. split; [exact Hkp|].
  pose proof (defined_content _ _ Hkp) as Hcells.
  split.
  - rewrite <- (length_fmap Some kp), <- Hcells.
    apply length_KroneckerProduct_Matrix4_16d.
  - intros i j k l Hi Hj Hk Hl.
    pose proof (lookup_KroneckerProduct_Matrix4_16d mat i j k l Hi Hj Hk Hl) as Hcell.
    rewrite Hcells, list_lookup_fmap in Hcell.
    destruct (kp !! _) as [v|]; [|discriminate].
    injection Hcell as ->. reflexivity.
Qed.
End KroneckerMatrixContent.

Lemma mapM_total {A B : Type} (f : A -> option B) (g : A -> B) (l : list A) :
  (forall x y, f x = Some y -> g x = y) ->
  forall k : list B, mapM f l = Some k -> k = map g l.
Proof.
  intros Hfg k Hk. apply mapM_Some_1 in Hk.
  induction Hk as [|x y l k Hxy _ IH]; [reflexivity|].
  cbn [map]. rewrite (Hfg x y Hxy), IH. reflexivity.
Qed.

(** A row that [mat_row] returns lies inside the matrix. *)
Lemma mat_row_inv {B : Type} `{Inhabited B} (rows cols : nat) (m : list B)
    (i : Z) (row : list B) :
  mat_row rows cols m i = Some row ->
  (0 <= i < Z.of_nat rows)
  /\ row = map (fun c => m !!! (Z.to_nat i * cols + c)%nat) (seq 0 cols)
  /\ forall c, (c < cols)%nat -> (Z.to_nat i * cols + c < length m)%nat.
Proof.
  unfold mat_row. intros Hrow.
  destruct (Z.leb_spec 0 i); [|discriminate].
  destruct (Z.ltb_spec i (Z.of_nat rows)); [|discriminate].
  cbn [andb] in Hrow. split; [lia|]. split.
  - apply (mapM_total _ _ _ (fun c y Hc => list_lookup_total_correct m _ y Hc)).
    exact Hrow.
  - intros c Hc. apply mapM_Some_1 in Hrow.
    destruct (Forall2_lookup_l _ _ _ c c Hrow) as (y & _ & Hy);
      [apply lookup_seq_lt; exact Hc|].
    cbn [Nat.add] in Hy. eapply lookup_lt_Some. exact Hy.
Qed.

Lemma mat_col_inv {B : Type} `{Inhabited B} (rows cols : nat) (m : list B)
    (j : Z) (col : list B) :
  mat_col rows cols m j = Some col ->
  (0 <= j < Z.of_nat cols)
  /\ col = map (fun row => m !!! (row * cols + Z.to_nat j)%nat) (seq 0 rows)
  /\ forall row, (row < rows)%nat -> (row * cols + Z.to_nat j < length m)%nat.
Proof.
  unfold mat_col. intros Hcol.
  destruct (Z.leb_spec 0 j); [|discriminate].
  destruct (Z.ltb_spec j (Z.of_nat cols)); [|discriminate].
  cbn [andb] in Hcol. split; [lia|]. split.
  - apply (mapM_total _ _ _ (fun row y Hc => list_lookup_total_correct m _ y Hc)).
    exact Hcol.
  - intros row Hrow. apply mapM_Some_1 in Hcol.
    destruct (Forall2_lookup_l _ _ _ row row Hcol) as (y & _ & Hy);
      [apply lookup_seq_lt; exact Hrow|].
    cbn [Nat.add] in Hy. eapply lookup_lt_Some. exact Hy.
Qed.

(** X10: [KroneckerProduct] of a 4 x 4 matrix assigns all 256 entries of
    the 16 x 16 result, entry [(4i + k, 4j + l)] the product of the entries
    [(i, j)] and [(k, l)] of the matrix, in any arithmetic; and where the
    arithmetic is exact, the sum of row [4i + k] of the result is the
    product of the sums of the rows [i] and [k] of the matrix, and the sum
    of column [4j + l] the product of the sums of the columns [j] and [l],
    so that a matrix whose rows (or columns) sum to 1 has a product whose
    rows (or columns) do. *)
Theorem KroneckerProduct_Matrix4d_correct :
  forall (D : Type) (DA : DoubleArith D) (mat : list D),
  exists kp : list D,
    defined (KroneckerProduct_Matrix4d mat) = Some kp
    /\ length kp = 256%nat
    /\ (forall (i j k l : nat) (a b : D),
          (i < 4)%nat -> (j < 4)%nat -> (k < 4)%nat -> (l < 4)%nat ->
          coeff 4 mat i j = Some a -> coeff 4 mat k l = Some b ->
          coeff 16 kp (i * 4 + k) (j * 4 + l) = Some (dmul a b))
    /\ (ExactArith DA ->
        (forall (i k : Z) (row_i row_k : list D),
            mat_row 4 4 mat i = Some row_i -> mat_row 4 4 mat k = Some row_k ->
            exists row : list D,
              mat_row 16 16 kp (i * 4 + k) = Some row
              /\ vsum row = dmul (vsum row_i) (vsum row_k))
        /\ (forall (j l : Z) (col_j col_l : list D),
              mat_col 4 4 mat j = Some col_j -> mat_col 4 4 mat l = Some col_l ->
              exists col : list D,
                mat_col 16 16 kp (j * 4 + l) = Some col
                /\ vsum col = dmul (vsum col_j) (vsum col_l))).
Proof.
  intros D DA mat.
  destruct (KroneckerProduct_Matrix4d_content mat) as (kp & Hkp & Hlen & Hcontent).
  exists kp. split; [exact Hkp|]. split; [exact Hlen|]. split; [|intros EA; split].
  - intros i j k l a b Hi Hj Hk Hl Ha Hb. unfold coeff in *.
    rewrite (Hcontent i j k l Hi Hj Hk Hl).
    rewrite (list_lookup_total_correct _ _ _ Ha).
    rewrite (list_lookup_total_correct _ _ _ Hb). reflexivity.
  - intros i k row_i row_k Hrow_i Hrow_k.
    apply mat_row_inv in Hrow_i. destruct Hrow_i as (Hi & -> & _).
    apply mat_row_inv in Hrow_k. destruct Hrow_k as (Hk & -> & _).
    set (i' := Z.to_nat i). set (k' := Z.to_nat k).
    assert (Hi' : (i' < 4)%nat) by lia. assert (Hk' : (k' < 4)%nat) by lia.
    eexists. split.
    + replace (i * 4 + k) with (Z.of_nat (i' * 4 + k')) by lia.
      apply (mat_row_tabulate 16 16 kp (i' * 4 + k')
               (fun c => dmul (mat !!! (i' * 4 + c / 4)%nat)
                              (mat !!! (k' * 4 + c mod 4)%nat))); [lia|].
      intros c Hc.
      pose proof (Nat.div_mod_eq c 4). pose proof (Nat.mod_upper_bound c 4).
      replace ((i' * 4 + k') * 16 + c)%nat
        with ((i' * 4 + k') * 16 + (c / 4 * 4 + c mod 4))%nat by lia.
      apply Hcontent; lia.
    + rewrite <- (vsum_outer (EA := EA)). reflexivity.
  - intros j l col_j col_l Hcol_j Hcol_l.
    apply mat_col_inv in Hcol_j. destruct Hcol_j as (Hj & -> & _).
    apply mat_col_inv in Hcol_l. destruct Hcol_l as (Hl & -> & _).
    set (j' := Z.to_nat j). set (l' := Z.to_nat l).
    assert (Hj' : (j' < 4)%nat) by lia. assert (Hl' : (l' < 4)%nat) by lia.
    eexists. split.
    + replace (j * 4 + l) with (Z.of_nat (j' * 4 + l')) by lia.
      apply (mat_col_tabulate 16 16 kp (j' * 4 + l')
               (fun row => dmul (mat !!! (row / 4 * 4 + j')%nat)
                                (mat !!! (row mod 4 * 4 + l')%nat))); [lia|].
      intros row Hrow.
      pose proof (Nat.div_mod_eq row 4). pose proof (Nat.mod_upper_bound row 4).
      replace (row * 16 + (j' * 4 + l'))%nat
        with ((row / 4 * 4 + row mod 4) * 16 + (j' * 4 + l'))%nat by lia.
      apply Hcontent; lia.
    + rewrite <- (vsum_outer (EA := EA)). reflexivity.
Qed.

(** A 4 x 4 matrix of doubles with the entries 1 to 16. *)
Lemma KroneckerProduct_Matrix4d_correct_witness :
  let mat := map (fun z => dof_Z z) [1; 2; 3; 4; 5; 6; 7; 8; 9; 10; 11; 12; 13; 14; 15; 16] in
  exists kp : list float,
    defined (KroneckerProduct_Matrix4d mat) = Some kp
    /\ coeff 16 kp (1 * 4 + 2) (3 * 4 + 0) = Some (dmul 8 9)%float.
Proof.
  intros mat.
  destruct (KroneckerProduct_Matrix4d_correct float binary64 mat)
    as (kp & Hkp & _ & Helem & _).
  exists kp. split; [exact Hkp|].
  apply (Helem 1 3 2 0)%nat; [lia | lia | lia | lia | reflexivity | reflexivity].
Defined.

(** X11: [KroneckerProduct] of a 4 x 16 matrix assigns all 4096 entries of
    the 16 x 256 result, entry [(4i + k, 16j + l)] the product of the
    entries [(i, j)] and [(k, l)] of the matrix, in any arithmetic; row
    [4i + k] of the result is [KroneckerProduct] of the rows [i] and [k] of
    the matrix taken as vectors; and where the arithmetic is exact, the
    sum of column [16j + l] is the product of the sums of the columns [j]
    and [l], so that a matrix whose columns sum to 1 has a product whose
    columns do. *)
Theorem KroneckerProduct_Matrix4_16d_correct :
  forall (D : Type) (DA : DoubleArith D) (mat : list D),
  exists kp : list D,
    defined (KroneckerProduct_Matrix4_16d mat) = Some kp
    /\ length kp = 4096%nat
    /\ (forall (i j k l : nat) (a b : D),
          (i < 4)%nat -> (j < 16)%nat -> (k < 4)%nat -> (l < 16)%nat ->
          coeff 16 mat i j = Some a -> coeff 16 mat k l = Some b ->
          coeff 256 kp (i * 4 + k) (j * 16 + l) = Some (dmul a b))
    /\ (forall (i k : Z) (row_i row_k : list D),
          mat_row 4 16 mat i = Some row_i -> mat_row 4 16 mat k = Some row_k ->
          mat_row 16 256 kp (i * 4 + k)
          = defined (KroneckerProduct_RowVector16d row_i row_k))
    /\ (ExactArith DA ->
        forall (j l : Z) (col_j col_l : list D),
          mat_col 4 16 mat j = Some col_j -> mat_col 4 16 mat l = Some col_l ->
          exists col : list D,
            mat_col 16 256 kp (j * 16 + l) = Some col
            /\ vsum col = dmul (vsum col_j) (vsum col_l)).
Proof.
  intros D DA mat.
  destruct (KroneckerProduct_Matrix4_16d_content mat) as (kp & Hkp & Hlen & Hcontent).
  exists kp. split; [exact Hkp|]. split; [exact Hlen|]. split; [|split].
  - intros i j k l a b Hi Hj Hk Hl Ha Hb. unfold coeff in *.
    rewrite (Hcontent i j k l Hi Hj Hk Hl).
    rewrite (list_lookup_total_correct _ _ _ Ha).
    rewrite (list_lookup_total_correct _ _ _ Hb). reflexivity.
  - intros i k row_i row_k Hrow_i Hrow_k.
    apply mat_row_inv in Hrow_i. destruct Hrow_i as (Hi & -> & _).
    apply mat_row_inv in Hrow_k. destruct Hrow_k as (Hk & -> & _).
    set (i' := Z.to_nat i). set (k' := Z.to_nat k).
    assert (Hi' : (i' < 4)%nat) by lia. assert (Hk' : (k' < 4)%nat) by lia.
    rewrite KroneckerProduct_RowVector16d_blocks, defined_Some.
    replace (i * 4 + k) with (Z.of_nat (i' * 4 + k')) by lia.
    rewrite (mat_row_tabulate 16 256 kp (i' * 4 + k')
               (fun c => dmul (mat !!! (i' * 16 + c / 16)%nat)
                              (mat !!! (k' * 16 + c mod 16)%nat))); [|lia|].
    + reflexivity.
    + intros c Hc.
      pose proof (Nat.div_mod_eq c 16). pose proof (Nat.mod_upper_bound c 16).
      replace ((i' * 4 + k') * 256 + c)%nat
        with ((i' * 4 + k') * 256 + (c / 16 * 16 + c mod 16))%nat by lia.
      apply Hcontent; lia.
  - intros EA j l col_j col_l Hcol_j Hcol_l.
    apply mat_col_inv in Hcol_j. destruct Hcol_j as (Hj & -> & _).
    apply mat_col_inv in Hcol_l. destruct Hcol_l as (Hl & -> & _).
    set (j' := Z.to_nat j). set (l' := Z.to_nat l).
    assert (Hj' : (j' < 16)%nat) by lia. assert (Hl' : (l' < 16)%nat) by lia.
    eexists. split.
    + replace (j * 16 + l) with (Z.of_nat (j' * 16 + l')) by lia.
      apply (mat_col_tabulate 16 256 kp (j' * 16 + l')
               (fun row => dmul (mat !!! (row / 4 * 16 + j')%nat)
                                (mat !!! (row mod 4 * 16 + l')%nat))); [lia|].
      intros row Hrow.
      pose proof (Nat.div_mod_eq row 4). pose proof (Nat.mod_upper_bound row 4).
      replace (row * 256 + (j' * 16 + l'))%nat
        with ((row / 4 * 4 + row mod 4) * 256 + (j' * 16 + l'))%nat by lia.
      apply Hcontent; lia.
    + rewrite <- (vsum_outer (EA := EA)). reflexivity.
Qed.

(** Rows 1 and 2 of a 4 x 16 matrix of doubles with the entries 1 to 64. *)
Lemma KroneckerProduct_Matrix4_16d_correct_witness :
  let mat := map (fun z => dof_Z z) (map Z.of_nat (seq 1 64)) in
  exists kp : list float,
    defined (KroneckerProduct_Matrix4_16d mat) = Some kp
    /\ coeff 256 kp (1 * 4 + 2) (3 * 16 + 0) = Some (dmul 20 33)%float
    /\ mat_row 16 256 kp (1 * 4 + 2)
       = defined (KroneckerProduct_RowVector16d
                    (map (fun z => dof_Z z) (map Z.of_nat (seq 17 16)))
                    (map (fun z => dof_Z z) (map Z.of_nat (seq 33 16)))).
Proof.
  intros mat.
  destruct (KroneckerProduct_Matrix4_16d_correct float binary64 mat)
    as (kp & Hkp & _ & Helem & Hrows & _).
  exists kp. split; [exact Hkp|]. split.
  - apply (Helem 1 3 2 0)%nat; [lia | lia | lia | lia | reflexivity | reflexivity].
  - apply (Hrows 1 2); reflexivity.
Defined.

(** ** The comparison of doubles *)

(** Rounding gives the same magnitude whatever the sign. *)
Lemma binary_round_aux_abs (sx sy : bool) (mx ex : Z) (lx : location) :
  SFabs (binary_round_aux prec emax sx mx ex lx)
  = SFabs (binary_round_aux prec emax sy mx ex lx).
Proof.
  unfold binary_round_aux.
  destruct (shr_fexp prec emax mx ex lx) as [mrs' e'].
  destruct (shr_fexp prec emax _ e' loc_Exact) as [mrs'' e''].
  destruct (shr_m mrs'') as [|m|m]; cbn zeta; try reflexivity.
  destruct (e'' <=? emax - prec); reflexivity.
Qed.

Lemma binary_normalize_abs_opp (m e : Z) :
  SFabs (binary_normalize prec emax (- m) e false)
  = SFabs (binary_normalize prec emax m e false).
Proof.
  destruct m as [|p|p]; [reflexivity| |];
    change (- Z.pos p) with (Z.neg p); change (- Z.neg p) with (Z.pos p);
    unfold binary_normalize, binary_round;
    destruct (shl_align p e _) as [mz ez]; apply binary_round_aux_abs.
Qed.

(** The magnitude of a difference does not depend on the order of its
    operands. *)
Lemma SFsub_abs_comm (x y : spec_float) :
  SFabs (SF64sub x y) = SFabs (SF64sub y x).
Proof.
  unfold SF64sub.
  destruct x as [sx | sx | | sx mx ex], y as [sy | sy | | sy my ey];
    try reflexivity;
    try (destruct sx, sy; reflexivity);
    try (destruct sx; reflexivity);
    try (destruct sy; reflexivity).
  cbn [SFsub]. rewrite (Z.min_comm ey ex).
  rewrite <- binary_normalize_abs_opp. f_equal. f_equal. lia.
Qed.

Lemma SFsub_diag (x : spec_float) :
  SFabs (SF64sub x x)
  = match x with
    | S754_nan | S754_infinity _ => S754_nan
    | _ => S754_zero false
    end.
Proof.
  unfold SF64sub. destruct x as [sx | sx | | sx mx ex];
    try (destruct sx; reflexivity); [reflexivity|].
  cbn [SFsub]. rewrite Z.sub_diag. reflexivity.
Qed.

Lemma is_finite_spec (a : float) :
  is_finite a
  = match Prim2SF a with
    | S754_nan | S754_infinity _ => false
    | _ => true
    end.
Proof.
  unfold is_finite, is_nan, is_infinity.
  rewrite !FloatAxioms.eqb_spec, abs_spec.
  change (Prim2SF infinity) with (S754_infinity false).
  destruct (Prim2SF a) as [s | s | | s m e]; try reflexivity.
  - destruct s; reflexivity.
  - unfold SFeqb. cbn [SFcompare SFabs].
    rewrite Z.compare_refl, Pos.compare_cont_refl.
    destruct s; reflexivity.
Qed.

(** X12: [Equal] does not depend on the order of its arguments, and a
    double is [Equal] to itself exactly when it is finite: an infinity and
    a NaN are not, the difference being a NaN. *)
Theorem Equal_symmetric_reflexive_on_finite :
  forall a b : float,
    Equal a b = Equal b a /\ Equal a a = is_finite a.
Proof.
  intros a b. unfold Equal. rewrite !ltb_spec, !abs_spec, !sub_spec. split.
  - rewrite SFsub_abs_comm. reflexivity.
  - rewrite SFsub_diag, is_finite_spec.
    destruct (Prim2SF a) as [s | s | | s m e]; reflexivity.
Qed.

(** ** Further properties of the simulator: draws and bounds *)

Section SimulatorRuns.
Context `{DA : DoubleArith D}.

Lemma bind_run {A B : Type} (m : Sim D A) (k : A -> Sim D B)
    (s s1 : SimulationModel D) (a : A) :
  m s = Some (a, s1) -> (m ≫= k) s = k a s1.
Proof. intros H. unfold mbind, Sim_bind. rewrite H. reflexivity. Qed.

Lemma RandomDiscreteChoice_draw (K : Z) (probabilities : list D)
    (s s' : SimulationModel D) (random : Z) :
  RandomDiscreteChoice K probabilities s = Some (random, s') ->
  exists rest : list Z,
    discrete_draws (r s) = random :: rest
    /\ s' = with_source s (mkRandomSource rest (rand_draws (r s))
                             (multinomial_draws (r s))).
Proof.
  unfold RandomDiscreteChoice.
  destruct (discrete_draws (r s)) as [|x rest]; [discriminate|].
  match goal with |- (if ?c then _ else _) = _ -> _ => destruct c end;
    [|discriminate].
  intros [= <- <-]. exists rest. split; reflexivity.
Qed.

Lemma RandomDiscreteChoice_run (K : Z) (probabilities : list D)
    (s : SimulationModel D) (random : Z) (rest : list Z) (weight : D) :
  discrete_draws (r s) = random :: rest ->
  K <= Z.of_nat (length probabilities) -> 0 <= random < K ->
  probabilities !! Z.to_nat random = Some weight -> dltb dzero weight = true ->
  RandomDiscreteChoice K probabilities s
  = Some (random, with_source s (mkRandomSource rest (rand_draws (r s))
                                   (multinomial_draws (r s)))).
Proof.
  intros Hdraws HK Hrange Hweight Hpos. unfold RandomDiscreteChoice.
  rewrite Hdraws, Hweight, Hpos.
  destruct (Z.leb_spec K (Z.of_nat (length probabilities))); [|lia].
  destruct (Z.leb_spec 0 random); [|lia].
  destruct (Z.ltb_spec random K); [|lia].
  reflexivity.
Qed.
End SimulatorRuns.

(** X13: the vector form of [RandomDiscreteChoice] returns [size] samples,
    the next [size] results of [gsl_ran_discrete] in the order of the
    calls, each in [[0, K)] and of positive weight; it takes nothing else
    from the generators and leaves parameters and coverage as they are. *)
Theorem RandomDiscreteChoice_samples_in_order :
  forall (D : Type) (DA : DoubleArith D) (K : Z) (probabilities : list D)
         (size : nat) (s s' : SimulationModel D) (random_samples : list Z),
    RandomDiscreteChoice_samples K probabilities size s = Some (random_samples, s') ->
    length random_samples = size
    /\ discrete_draws (r s) = random_samples ++ discrete_draws (r s')
    /\ Forall (fun random =>
                 0 <= random < K
                 /\ exists weight, probabilities !! Z.to_nat random = Some weight
                                   /\ dltb dzero weight = true)
              random_samples
    /\ s' = with_source s (mkRandomSource (discrete_draws (r s'))
                             (rand_draws (r s)) (multinomial_draws (r s))).
Proof.
  intros D DA K probabilities size.
  induction size as [|size IH]; intros s s' samples H.
  - injection H as <- <-. split; [reflexivity|]. split; [reflexivity|].
    split; [constructor|]. destruct s as [p c [d ra mu]]. reflexivity.
  - cbn [RandomDiscreteChoice_samples] in H.
    apply bind_Some in H. destruct H as (x & s1 & Hx & H).
    apply bind_Some in H. destruct H as (xs & s2 & Hxs & H).
    injection H as <- <-.
    pose proof (RandomDiscreteChoice_Some _ _ _ _ _ Hx) as (_ & _ & Hrange & Hweight).
    apply RandomDiscreteChoice_draw in Hx. destruct Hx as (rest & Hdraws & ->).
    apply IH in Hxs. destruct Hxs as (Hlen & Hrest & Hall & Hs2).
    cbn [with_source r discrete_draws rand_draws multinomial_draws params_
         coverage_] in Hrest, Hs2.
    split; [cbn [length]; rewrite Hlen; reflexivity|].
    split; [rewrite Hdraws, Hrest; reflexivity|].
    split; [constructor; [split; assumption | exact Hall]|].
    exact Hs2.
Qed.

(** Three draws with equal weights for 256 parent pairs. *)
Lemma RandomDiscreteChoice_samples_in_order_witness :
  let s := simulator_rate0 [17; 0; 255; 3] [] [] in
  let s' := simulator_rate0 [3] [] [] in
  length [17; 0; 255] = 3%nat
  /\ discrete_draws (r s) = [17; 0; 255] ++ discrete_draws (r s')
  /\ Forall (fun random =>
               0 <= random < 256
               /\ exists weight,
                    replicate 256 1%float !! Z.to_nat random = Some weight
                    /\ dltb dzero weight = true)
            [17; 0; 255]
  /\ s' = with_source s (mkRandomSource (discrete_draws (r s'))
                           (rand_draws (r s)) (multinomial_draws (r s))).
Proof.
  intros s s'.
  apply (RandomDiscreteChoice_samples_in_order float binary64 256
           (replicate 256 1%float) 3 s s' [17; 0; 255]).
  reflexivity.
Defined.

Lemma ReadData_of_row_counts (coverage : Z) (row : RowVector4i) :
  valid_reads coverage row -> coverage < 65536 ->
  ReadData_of_row row = mkReadData (col0 row) (col1 row) (col2 row) (col3 row)
  /\ read_counts coverage (ReadData_of_row row).
Proof.
  intros (H0 & H1 & H2 & H3 & Hsum) Hc.
  assert (Hfits : row_fits row) by (unfold row_fits; lia).
  rewrite (ReadData_of_row_fits row Hfits). split; [reflexivity|].
  unfold read_counts, counts_of. cbn [reads0 reads1 reads2 reads3]. lia.
Qed.

Lemma DirichletMultinomialSample_draw `{DA : DoubleArith D} (genotype_idx : Z)
    (s s' : SimulationModel D) (data : ReadData) :
  DirichletMultinomialSample genotype_idx s = Some (data, s') ->
  exists (reads : RowVector4i) (rest : list RowVector4i),
    multinomial_draws (r s) = reads :: rest
    /\ valid_reads (coverage_ s) reads
    /\ data = ReadData_of_row reads
    /\ 0 <= genotype_idx < 16
    /\ s' = with_source s (mkRandomSource (discrete_draws (r s))
                             (rand_draws (r s)) rest).
Proof.
  unfold DirichletMultinomialSample.
  destruct (mat_row 16 4 (alphas (params_ s)) genotype_idx) as [alpha|] eqn:Halpha;
    [|discriminate].
  destruct (multinomial_draws (r s)) as [|reads rest]; [discriminate|].
  destruct (0 <=? col0 reads) eqn:H0; [|discriminate].
  destruct (0 <=? col1 reads) eqn:H1; [|discriminate].
  destruct (0 <=? col2 reads) eqn:H2; [|discriminate].
  destruct (0 <=? col3 reads) eqn:H3; [|discriminate].
  destruct (_ =? coverage_ s) eqn:Hsum; [|discriminate].
  cbn [andb]. intros [= <- <-]. exists reads, rest.
  apply Z.leb_le in H0, H1, H2, H3. apply Z.eqb_eq in Hsum.
  split; [reflexivity|]. split; [unfold valid_reads; lia|].
  split; [reflexivity|]. split; [|reflexivity].
  apply mat_row_inv in Halpha. destruct Halpha as (Hrange & _). lia.
Qed.

(** X14: [DirichletMultinomialSample] takes one array of reads from the
    multinomial generator and nothing else, stores each count in a
    [uint16_t], and leaves parameters and coverage as they are.  For a
    coverage below 65536 the counts are stored as drawn and sum to the
    coverage; the stored value is the count modulo 65536 in any case. *)
Theorem DirichletMultinomialSample_counts :
  forall (D : Type) (DA : DoubleArith D) (genotype_idx : Z)
         (s s' : SimulationModel D) (data : ReadData),
    DirichletMultinomialSample genotype_idx s = Some (data, s') ->
    exists (reads : RowVector4i) (rest : list RowVector4i),
      multinomial_draws (r s) = reads :: rest
      /\ s' = with_source s (mkRandomSource (discrete_draws (r s))
                               (rand_draws (r s)) rest)
      /\ col0 reads + col1 reads + col2 reads + col3 reads = coverage_ s
      /\ data = mkReadData (col0 reads mod 65536) (col1 reads mod 65536)
                           (col2 reads mod 65536) (col3 reads mod 65536)
      /\ (coverage_ s < 65536 ->
          data = mkReadData (col0 reads) (col1 reads) (col2 reads) (col3 reads)
          /\ read_counts (coverage_ s) data).
Proof.
  intros D DA g s s' data H.
  apply DirichletMultinomialSample_draw in H.
  destruct H as (reads & rest & Hdraws & Hvalid & -> & _ & ->).
  exists reads, rest. split; [exact Hdraws|]. split; [reflexivity|].
  split; [unfold valid_reads in Hvalid; lia|]. split; [reflexivity|].
  intros Hc. apply ReadData_of_row_counts; assumption.
Qed.

(** Coverage 4 and the draw (2,1,0,1); coverage 65536 and the draw
    (65536,0,0,0), which is stored as (0,0,0,0). *)
Lemma DirichletMultinomialSample_counts_witness :
  (let s := simulator_rate0 [] [] [mkRow 2 1 0 1] in
   exists (reads : RowVector4i) (rest : list RowVector4i),
     multinomial_draws (r s) = reads :: rest
     /\ simulator_rate0 [] [] []
        = with_source s (mkRandomSource (discrete_draws (r s))
                           (rand_draws (r s)) rest)
     /\ col0 reads + col1 reads + col2 reads + col3 reads = coverage_ s
     /\ mkReadData 2 1 0 1
        = mkReadData (col0 reads mod 65536) (col1 reads mod 65536)
                     (col2 reads mod 65536) (col3 reads mod 65536)
     /\ (coverage_ s < 65536 ->
         mkReadData 2 1 0 1
         = mkReadData (col0 reads) (col1 reads) (col2 reads) (col3 reads)
         /\ read_counts (coverage_ s) (mkReadData 2 1 0 1)))
  /\ DirichletMultinomialSample 0
       (mkSimulationModel (params_rate0 [] (replicate 64 1%float)) 65536
          (mkRandomSource [] [] [mkRow 65536 0 0 0]))
     = Some (mkReadData 0 0 0 0,
             mkSimulationModel (params_rate0 [] (replicate 64 1%float)) 65536
               (mkRandomSource [] [] [])).
Proof.
  split; [|reflexivity].
  intros s.
  apply (DirichletMultinomialSample_counts float binary64 3 s
           (simulator_rate0 [] [] []) (mkReadData 2 1 0 1)).
  reflexivity.
Defined.

(** X15: at coverage 4, the reads that three calls of
    [DirichletMultinomialSample] return for child, mother and father form
    a trio of the reference vector: [IndexOfReadDataVector] finds it at an
    index in [[0, 42875)], never -1. *)
Theorem simulated_trio_has_index :
  forall (D : Type) (DA : DoubleArith D) (s s1 s2 s3 : SimulationModel D)
         (child_genotype mother_genotype father_genotype : Z)
         (child_read mother_read father_read : ReadData),
    coverage_ s = 4 ->
    DirichletMultinomialSample child_genotype s = Some (child_read, s1) ->
    DirichletMultinomialSample mother_genotype s1 = Some (mother_read, s2) ->
    DirichletMultinomialSample father_genotype s2 = Some (father_read, s3) ->
    exists index : Z,
      IndexOfReadDataVector [child_read; mother_read; father_read] = Some index
      /\ 0 <= index < 42875.
Proof.
  intros D DA s s1 s2 s3 cg mg fg cr mr fr Hcov Hc Hm Hf.
  assert (Hcounts : forall (g : Z) (s0 s0' : SimulationModel D) (data : ReadData),
             coverage_ s0 = 4 ->
             DirichletMultinomialSample g s0 = Some (data, s0') ->
             read_counts 4 data /\ coverage_ s0' = 4).
  { intros g s0 s0' data Hcov0 H.
    pose proof (DirichletMultinomialSample_Some _ _ _ _ H) as [_ Hc'].
    apply DirichletMultinomialSample_draw in H.
    destruct H as (reads & rest & _ & Hvalid & -> & _ & _).
    rewrite Hcov0 in Hvalid.
    split; [apply ReadData_of_row_counts; [exact Hvalid | lia] | congruence]. }
  destruct (Hcounts _ _ _ _ Hcov Hc) as [Hcr Hcov1].
  destruct (Hcounts _ _ _ _ Hcov1 Hm) as [Hmr Hcov2].
  destruct (Hcounts _ _ _ _ Hcov2 Hf) as [Hfr _].
  destruct GetTrioVector_4 as (trio_vec & Htv & Hsize & Hthree & Hmem).
  destruct (IndexOfReadDataVector_loop_spec [cr; mr; fr] trio_vec eq_refl Hthree
              (Z.to_nat kTrioCount) 0) as (index & Hloop & Hspec);
    [lia | unfold kTrioCount in *; lia |].
  exists index. unfold IndexOfReadDataVector. rewrite Htv.
  split; [exact Hloop|].
  destruct Hspec as [(_ & Hnone) | (Hrange & _)];
    [|unfold kTrioCount in *; lia].
  exfalso.
  assert (Hin : [cr; mr; fr] ∈ trio_vec)
    by (apply Hmem; exists cr, mr, fr; auto).
  apply list_elem_of_lookup in Hin. destruct Hin as (k & Hk).
  apply (Hnone (Z.of_nat k)).
  - apply lookup_lt_Some in Hk. lia.
  - rewrite Nat2Z.id. exact Hk.
Qed.

(** The draws (4,0,0,0), (2,2,0,0) and (1,1,1,1). *)
Lemma simulated_trio_has_index_witness :
  exists index : Z,
    IndexOfReadDataVector
      [mkReadData 4 0 0 0; mkReadData 2 2 0 0; mkReadData 1 1 1 1] = Some index
    /\ 0 <= index < 42875.
Proof.
  apply (simulated_trio_has_index float binary64
           (simulator_rate0 [] [] [mkRow 4 0 0 0; mkRow 2 2 0 0; mkRow 1 1 1 1])
           (simulator_rate0 [] [] [mkRow 2 2 0 0; mkRow 1 1 1 1])
           (simulator_rate0 [] [] [mkRow 1 1 1 1])
           (simulator_rate0 [] [] [])
           0 5 10); reflexivity.
Defined.

Section MutateWeights.
Context `{DA : DoubleArith D}.

Lemma lookup_tabulated {B : Type} (g : nat -> B) (n i : nat) (x : B) :
  map g (seq 0 n) !! i = Some x -> (i < n)%nat /\ x = g i.
Proof.
  change (map g (seq 0 n)) with (g <$> seq 0 n).
  rewrite list_lookup_fmap. intros H.
  destruct (seq 0 n !! i) as [c|] eqn:Hc; [|discriminate].
  injection H as <-. apply lookup_seq in Hc. destruct Hc as [-> Hlt].
  split; [exact Hlt | reflexivity].
Qed.

(** The weights that [Mutate] hands to [RandomDiscreteChoice]. *)
Lemma Mutate_weights (genotype_idx parent_genotype_idx : Z) (is_germline : bool)
    (p : TrioModel D) (mat : list D) :
  (if negb is_germline
   then mat_row 16 16 (somatic_probability_mat p) genotype_idx
   else mat_col 16 256 (germline_probability_mat p) parent_genotype_idx)
  = Some mat ->
  (if is_germline then 0 <= parent_genotype_idx < 256 else 0 <= genotype_idx < 16)
  /\ forall (mutated : nat) (w : D),
       mat !! mutated = Some w ->
       (if is_germline
        then coeff 256 (germline_probability_mat p) mutated
               (Z.to_nat parent_genotype_idx)
        else coeff 16 (somatic_probability_mat p) (Z.to_nat genotype_idx) mutated)
       = Some w.
Proof.
  destruct is_germline; cbn [negb]; intros Hmat.
  - apply mat_col_inv in Hmat. destruct Hmat as (Hrange & -> & Hbound).
    split; [lia|]. intros mutated w Hw.
    apply lookup_tabulated in Hw. destruct Hw as [Hlt ->].
    unfold coeff. apply lookup_total_Some. apply Hbound. exact Hlt.
  - apply mat_row_inv in Hmat. destruct Hmat as (Hrange & -> & Hbound).
    split; [lia|]. intros mutated w Hw.
    apply lookup_tabulated in Hw. destruct Hw as [Hlt ->].
    unfold coeff. apply lookup_total_Some. apply Hbound. exact Hlt.
Qed.
End MutateWeights.

(** X16: a call of [Mutate] that returns has read a row or a column inside
    its matrix and has taken exactly one result of [gsl_ran_discrete], the
    genotype it returns, which lies in [[0, 16)].  In somatic mode the
    weight of the outcome is the entry (input genotype, outcome) of the
    somatic matrix, and the input genotype must lie in [[0, 16)]; in
    germline mode it is the entry (outcome, parent pair) of the germline
    matrix, and the parent pair must lie in [[0, 256)], so that a germline
    call with the default parent pair -1 has no defined result. *)
Theorem Mutate_draws_by_weight :
  forall (D : Type) (DA : DoubleArith D)
         (genotype_idx parent_genotype_idx mutated : Z) (is_germline : bool)
         (s s' : SimulationModel D),
    Mutate genotype_idx is_germline parent_genotype_idx s = Some (mutated, s') ->
    0 <= mutated < 16
    /\ (if is_germline then 0 <= parent_genotype_idx < 256
        else 0 <= genotype_idx < 16)
    /\ (exists w : D,
          (if is_germline
           then coeff 256 (germline_probability_mat (params_ s))
                  (Z.to_nat mutated) (Z.to_nat parent_genotype_idx)
           else coeff 16 (somatic_probability_mat (params_ s))
                  (Z.to_nat genotype_idx) (Z.to_nat mutated))
          = Some w
          /\ dltb dzero w = true)
    /\ r s = mkRandomSource (mutated :: discrete_draws (r s'))
               (rand_draws (r s')) (multinomial_draws (r s')).
Proof.
  intros D DA g p mutated isg s s' H. unfold Mutate in H.
  apply bind_Some in H. destruct H as (mat & s1 & Hmat & H).
  apply lift_Some in Hmat. destruct Hmat as [Hmat ->].
  apply bind_Some in H. destruct H as (m & s2 & Hdraw & H).
  pose proof (RandomDiscreteChoice_Some _ _ _ _ _ Hdraw)
    as (_ & _ & Hrange & w & Hw & Hpos).
  apply RandomDiscreteChoice_draw in Hdraw. destruct Hdraw as (rest & Hdraws & ->).
  apply bind_Some in H. destruct H as ([] & s3 & Hset & H).
  injection H as -> <-.
  destruct (Mutate_weights g p isg (params_ s) mat Hmat) as [Hidx Hweight].
  split; [exact Hrange|]. split; [exact Hidx|].
  split; [exists w; split; [apply Hweight; exact Hw | exact Hpos]|].
  assert (Hr : r s3 = mkRandomSource rest (rand_draws (r s)) (multinomial_draws (r s))).
  { destruct (negb (mutated =? g)); injection Hset as <-; reflexivity. }
  rewrite Hr. cbn [discrete_draws rand_draws multinomial_draws].
  rewrite <- Hdraws. destruct (r s). reflexivity.
Qed.

(** A somatic call at rate 0: input CC, draw CC, weight 1. *)
Lemma Mutate_draws_by_weight_witness :
  let s := simulator_rate0 [5; 2] [] [] in
  let s' := simulator_rate0 [2] [] [] in
  0 <= 5 < 16
  /\ 0 <= 5 < 16
  /\ (exists w : float,
        coeff 16 (somatic_probability_mat (params_ s)) (Z.to_nat 5) (Z.to_nat 5)
        = Some w
        /\ dltb dzero w = true)
  /\ r s = mkRandomSource (5 :: discrete_draws (r s'))
             (rand_draws (r s')) (multinomial_draws (r s')).
Proof.
  intros s s'.
  apply (Mutate_draws_by_weight float binary64 5 (-1) 5 false s s').
  reflexivity.
Defined.

(** *** A run of [WriteProbability] stays inside its tables *)

Section SimulatorProgress.
Context `{DA : DoubleArith D}.

Lemma model_ready_unflagged (p p' : TrioModel D) :
  unflagged p' = unflagged p -> model_ready p -> model_ready p'.
Proof.
  unfold unflagged, model_ready. intros [= H1 H2 H3 H4 H5 H6].
  rewrite H3, H4, H5, H6. auto.
Qed.

Lemma Mutate_run (genotype_idx parent_genotype_idx mutated : Z)
    (is_germline : bool) (s : SimulationModel D) (rest : list Z) :
  model_ready (params_ s) ->
  (if is_germline then 0 <= parent_genotype_idx < 256
   else 0 <= genotype_idx < 16) ->
  discrete_draws (r s) = mutated :: rest -> 0 <= mutated < 16 ->
  exists s' : SimulationModel D,
    Mutate genotype_idx is_germline parent_genotype_idx s = Some (mutated, s')
    /\ unflagged (params_ s') = unflagged (params_ s)
    /\ coverage_ s' = coverage_ s
    /\ r s' = mkRandomSource rest (rand_draws (r s)) (multinomial_draws (r s)).
Proof.
  intros (_ & Hgerm & Hsom & _ & _ & Hpos_germ & Hpos_som) Hidx Hdraws Hrange.
  set (weight := fun c : nat =>
         if is_germline
         then germline_probability_mat (params_ s)
                !!! (c * 256 + Z.to_nat parent_genotype_idx)%nat
         else somatic_probability_mat (params_ s)
                !!! (Z.to_nat genotype_idx * 16 + c)%nat).
  assert (Hmat : (if negb is_germline
                  then mat_row 16 16 (somatic_probability_mat (params_ s)) genotype_idx
                  else mat_col 16 256 (germline_probability_mat (params_ s))
                         parent_genotype_idx)
                 = Some (map weight (seq 0 16))).
  { unfold weight. destruct is_germline; cbn [negb].
    - rewrite <- (Z2Nat.id parent_genotype_idx) at 1 by lia.
      apply mat_col_tabulate; [lia|].
      intros row Hrow. apply lookup_total_Some. lia.
    - rewrite <- (Z2Nat.id genotype_idx) at 1 by lia.
      apply mat_row_tabulate; [lia|].
      intros c Hc. apply lookup_total_Some. lia. }
  assert (Hweight : dltb dzero (weight (Z.to_nat mutated)) = true).
  { unfold weight. destruct is_germline.
    - eapply (Forall_lookup_1 _ _ _ _ Hpos_germ). apply lookup_total_Some. lia.
    - eapply (Forall_lookup_1 _ _ _ _ Hpos_som). apply lookup_total_Some. lia. }
  unfold Mutate.
  rewrite (bind_run _ _ s s (map weight (seq 0 16)))
    by (unfold lift; rewrite Hmat; reflexivity).
  assert (Hdraw : RandomDiscreteChoice kGenotypeCount (map weight (seq 0 16)) s
                  = Some (mutated,
                          with_source s (mkRandomSource rest (rand_draws (r s))
                                           (multinomial_draws (r s))))).
  { apply (RandomDiscreteChoice_run _ _ _ _ _ (weight (Z.to_nat mutated)));
      [exact Hdraws | | unfold kGenotypeCount; lia | | exact Hweight].
    - rewrite length_map, length_seq. unfold kGenotypeCount. lia.
    - change (map weight ?l) with (weight <$> l).
      rewrite list_lookup_fmap, lookup_seq_lt by lia. reflexivity. }
  rewrite (bind_run _ _ _ _ _ Hdraw).
  destruct (negb (mutated =? genotype_idx)); eexists; (split; [reflexivity|]);
    repeat split.
Qed.

Lemma GetChildGenotype_run (mother_genotype father_genotype r1 r2 : Z)
    (rest : list Z) (s : SimulationModel D) :
  0 <= mother_genotype < 16 -> 0 <= father_genotype < 16 ->
  0 <= r1 -> 0 <= r2 ->
  rand_draws (r s) = r1 :: r2 :: rest ->
  exists child : Z,
    GetChildGenotype mother_genotype father_genotype s
    = Some (child, with_source s (mkRandomSource (discrete_draws (r s)) rest
                                    (multinomial_draws (r s))))
    /\ 0 <= child < 16.
Proof.
  intros Hm Hf Hr1 Hr2 Hdraws.
  destruct (kGenotypeNumIndex_allele mother_genotype r1 Hm Hr1) as (a & Ha & Harange).
  destruct (kGenotypeNumIndex_allele father_genotype r2 Hf Hr2) as (b & Hb & Hbrange).
  destruct (GetChildGenotype_loop_finds a b Harange Hbrange) as (Hloop & _ & _).
  exists (a * 4 + b). split; [|lia].
  unfold GetChildGenotype, mbind, Sim_bind, rand, lift.
  rewrite Hdraws. cbn [rand_draws r].
  destruct (Z.leb_spec 0 r1) as [_|]; [|lia].
  rewrite Ha. cbn [rand_draws r].
  destruct (Z.leb_spec 0 r2) as [_|]; [|lia].
  rewrite Hb, Hloop. reflexivity.
Qed.

Lemma DirichletMultinomialSample_run (genotype_idx : Z) (s : SimulationModel D)
    (reads : RowVector4i) (rest : list RowVector4i) :
  length (alphas (params_ s)) = 64%nat -> 0 <= genotype_idx < 16 ->
  multinomial_draws (r s) = reads :: rest -> valid_reads (coverage_ s) reads ->
  DirichletMultinomialSample genotype_idx s
  = Some (ReadData_of_row reads,
          with_source s (mkRandomSource (discrete_draws (r s))
                           (rand_draws (r s)) rest)).
Proof.
  intros Halphas Hidx Hdraws (H0 & H1 & H2 & H3 & Hsum).
  unfold DirichletMultinomialSample.
  rewrite <- (Z2Nat.id genotype_idx) at 1 by lia.
  rewrite (mat_row_tabulate 16 4 _ _
             (fun c => alphas (params_ s) !!! (Z.to_nat genotype_idx * 4 + c)%nat))
    by (try lia; intros c Hc; apply lookup_total_Some; lia).
  rewrite Hdraws.
  destruct (Z.leb_spec 0 (col0 reads)); [|lia].
  destruct (Z.leb_spec 0 (col1 reads)); [|lia].
  destruct (Z.leb_spec 0 (col2 reads)); [|lia].
  destruct (Z.leb_spec 0 (col3 reads)); [|lia].
  rewrite (proj2 (Z.eqb_eq _ _) Hsum). reflexivity.
Qed.
End SimulatorProgress.

Section SimulatorSites.
Context `{DA : DoubleArith D}.
Variable MutationProbability : TrioModel D -> ReadDataVector -> D.

(** One site with draws in range: a line is written and the draws of the
    site are used up. *)
Lemma WriteProbability_site_run (parent_genotypes father_genotypes : list Z)
    (i : nat) (fout : list (Line D)) (s : SimulationModel D)
    (parent d1 d2 d3 d4 r1 r2 : Z) (m1 m2 m3 : RowVector4i)
    (discrete rand_rest : list Z) (multinomial : list RowVector4i) :
  model_ready (params_ s) ->
  parent_genotypes !! i = Some parent -> 0 <= parent < 256 ->
  father_genotypes !! i = Some (Z.quot parent kGenotypeCount) ->
  r s = mkRandomSource (d1 :: d2 :: d3 :: d4 :: discrete)
          (r1 :: r2 :: rand_rest) (m1 :: m2 :: m3 :: multinomial) ->
  0 <= d1 < 16 -> 0 <= d2 < 16 -> 0 <= d3 < 16 -> 0 <= d4 < 16 ->
  0 <= r1 -> 0 <= r2 ->
  valid_reads (coverage_ s) m1 -> valid_reads (coverage_ s) m2 ->
  valid_reads (coverage_ s) m3 ->
  exists (line : Line D) (s' : SimulationModel D),
    WriteProbability_site MutationProbability parent_genotypes father_genotypes
      i fout s = Some (fout ++ [line], s')
    /\ unflagged (params_ s') = unflagged (params_ s)
    /\ coverage_ s' = coverage_ s
    /\ r s' = mkRandomSource discrete rand_rest multinomial.
Proof.
  intros Hready Hparent Hrange Hfather Hr Hd1 Hd2 Hd3 Hd4 Hr1 Hr2 Hm1 Hm2 Hm3.
  unfold kGenotypeCount in Hfather.
  assert (Hmother : 0 <= Z.rem parent 16 < 16) by (apply Z.rem_bound_pos; lia).
  assert (Hfa : 0 <= Z.quot parent 16 < 16).
  { split; [apply Z.quot_pos; lia | apply Z.quot_lt_upper_bound; lia]. }
  unfold WriteProbability_site.
  rewrite (bind_run _ _ s s parent) by (unfold lift; rewrite Hparent; reflexivity).
  rewrite (bind_run _ _ s s (Z.quot parent 16))
    by (unfold lift; rewrite Hfather; reflexivity).
  unfold kGenotypeCount.
  destruct (GetChildGenotype_run (Z.rem parent 16) (Z.quot parent 16) r1 r2
              rand_rest s Hmother Hfa Hr1 Hr2) as (child & Hchild & Hcrange);
    [rewrite Hr; reflexivity|].
  rewrite (bind_run _ _ _ _ _ Hchild). clear Hchild.
  rewrite Hr. cbn [discrete_draws multinomial_draws].
  set (s1 := with_source s _).
  destruct (Mutate_run child (Z.rem parent 16 * 16 + Z.quot parent 16) d1 true s1
              (d2 :: d3 :: d4 :: discrete))
    as (s2 & Hgerm & Hu2 & Hc2 & Hr2'); [exact Hready | lia | reflexivity | exact Hd1 |].
  rewrite (bind_run _ _ _ _ _ Hgerm). clear Hgerm.
  assert (Hready2 : model_ready (params_ s2))
    by (apply (model_ready_unflagged (params_ s1)); assumption).
  destruct (Mutate_run d1 (-1) d2 false s2 (d3 :: d4 :: discrete))
    as (s3 & Hcs & Hu3 & Hc3 & Hr3);
    [exact Hready2 | exact Hd1 | rewrite Hr2'; reflexivity | exact Hd2 |].
  rewrite (bind_run _ _ _ _ _ Hcs). clear Hcs.
  assert (Hready3 : model_ready (params_ s3))
    by (apply (model_ready_unflagged (params_ s2)); assumption).
  destruct (Mutate_run (Z.rem parent 16) (-1) d3 false s3 (d4 :: discrete))
    as (s4 & Hms & Hu4 & Hc4 & Hr4);
    [exact Hready3 | exact Hmother | rewrite Hr3; reflexivity | exact Hd3 |].
  rewrite (bind_run _ _ _ _ _ Hms). clear Hms.
  assert (Hready4 : model_ready (params_ s4))
    by (apply (model_ready_unflagged (params_ s3)); assumption).
  destruct (Mutate_run (Z.quot parent 16) (-1) d4 false s4 discrete)
    as (s5 & Hfs & Hu5 & Hc5 & Hr5);
    [exact Hready4 | exact Hfa | rewrite Hr4; reflexivity | exact Hd4 |].
  rewrite (bind_run _ _ _ _ _ Hfs). clear Hfs.
  assert (Hready5 : model_ready (params_ s5))
    by (apply (model_ready_unflagged (params_ s4)); assumption).
  assert (Hc1 : coverage_ s1 = coverage_ s) by reflexivity.
  assert (Hcov5 : coverage_ s5 = coverage_ s) by congruence.
  assert (Hsrc5 : r s5 = mkRandomSource discrete rand_rest
                           (m1 :: m2 :: m3 :: multinomial)).
  { rewrite Hr5, Hr4, Hr3, Hr2'. reflexivity. }
  destruct Hready5 as (_ & _ & _ & Halphas & _).
  pose (s6 := with_source s5 (mkRandomSource discrete rand_rest
                                (m2 :: m3 :: multinomial))).
  pose (s7 := with_source s5 (mkRandomSource discrete rand_rest
                                (m3 :: multinomial))).
  pose (s8 := with_source s5 (mkRandomSource discrete rand_rest multinomial)).
  assert (Hcr : DirichletMultinomialSample d2 s5 = Some (ReadData_of_row m1, s6)).
  { rewrite (DirichletMultinomialSample_run d2 s5 m1 (m2 :: m3 :: multinomial));
      [rewrite Hsrc5; reflexivity | exact Halphas | exact Hd2
       | rewrite Hsrc5; reflexivity | rewrite Hcov5; exact Hm1]. }
  assert (Hmr : DirichletMultinomialSample d3 s6 = Some (ReadData_of_row m2, s7)).
  { apply (DirichletMultinomialSample_run d3 s6 m2 (m3 :: multinomial));
      [exact Halphas | exact Hd3 | reflexivity
       | cbn [s6 with_source coverage_]; rewrite Hcov5; exact Hm2]. }
  assert (Hfr : DirichletMultinomialSample d4 s7 = Some (ReadData_of_row m3, s8)).
  { apply (DirichletMultinomialSample_run d4 s7 m3 multinomial);
      [exact Halphas | exact Hd4 | reflexivity
       | cbn [s7 with_source coverage_]; rewrite Hcov5; exact Hm3]. }
  rewrite (bind_run _ _ _ _ _ Hcr), (bind_run _ _ _ _ _ Hmr),
    (bind_run _ _ _ _ _ Hfr).
  eexists. eexists. split; [reflexivity|].
  split; [|split; [exact Hcov5 | reflexivity]].
  transitivity (unflagged (params_ s5)); [reflexivity|].
  rewrite Hu5, Hu4, Hu3, Hu2. reflexivity.
Qed.
End SimulatorSites.

Section SimulatorTotal.
Context `{DA : DoubleArith D}.
Variable MutationProbability : TrioModel D -> ReadDataVector -> D.

Lemma RandomDiscreteChoice_samples_run (K : Z) (probabilities : list D)
    (random_samples : list Z) :
  K <= Z.of_nat (length probabilities) ->
  positive_weights probabilities ->
  Forall (fun random => 0 <= random < K) random_samples ->
  forall (s : SimulationModel D) (rest : list Z),
    discrete_draws (r s) = random_samples ++ rest ->
    RandomDiscreteChoice_samples K probabilities (length random_samples) s
    = Some (random_samples,
            with_source s (mkRandomSource rest (rand_draws (r s))
                             (multinomial_draws (r s)))).
Proof.
  intros HK Hpos Hall.
  induction Hall as [|x xs Hx _ IH]; intros s rest Hdraws.
  - cbn [length RandomDiscreteChoice_samples app] in *.
    rewrite <- Hdraws. destruct s as [p c [d ra mu]]. reflexivity.
  - cbn [length RandomDiscreteChoice_samples].
    destruct (lookup_lt_is_Some_2 probabilities (Z.to_nat x)) as [w Hw]; [lia|].
    rewrite (bind_run _ _ _ _ _
               (RandomDiscreteChoice_run K probabilities s x (xs ++ rest) w
                  Hdraws HK Hx Hw (Forall_lookup_1 _ _ _ _ Hpos Hw))).
    rewrite (bind_run _ _ _ _ _
               (IH (with_source s (mkRandomSource (xs ++ rest) (rand_draws (r s))
                                     (multinomial_draws (r s))))
                   rest eq_refl)).
    reflexivity.
Qed.

Lemma WriteProbability_loop_run (parent_genotypes father_genotypes : list Z)
    (n : nat) :
  forall (i : nat) (fout : list (Line D)) (s : SimulationModel D)
         (discrete rand_draws' : list Z) (multinomial : list RowVector4i)
         (discrete_rest rand_rest : list Z) (multinomial_rest : list RowVector4i),
    model_ready (params_ s) ->
    (forall k, (i <= k < i + n)%nat ->
       exists parent, parent_genotypes !! k = Some parent /\ 0 <= parent < 256
                      /\ father_genotypes !! k = Some (Z.quot parent kGenotypeCount)) ->
    r s = mkRandomSource (discrete ++ discrete_rest) (rand_draws' ++ rand_rest)
            (multinomial ++ multinomial_rest) ->
    length discrete = (4 * n)%nat -> length rand_draws' = (2 * n)%nat ->
    length multinomial = (3 * n)%nat ->
    Forall (fun d => 0 <= d < 16) discrete -> Forall (fun x => 0 <= x) rand_draws' ->
    Forall (valid_reads (coverage_ s)) multinomial ->
    exists (lines : list (Line D)) (s' : SimulationModel D),
      WriteProbability_loop MutationProbability parent_genotypes father_genotypes
        n i fout s = Some (fout ++ lines, s')
      /\ length lines = n
      /\ r s' = mkRandomSource discrete_rest rand_rest multinomial_rest.
Proof.
  induction n as [|n IH];
    intros i fout s ds rs ms dr rr mr Hready Hparents Hr Hds Hrs Hms Hd Hra Hm.
  - destruct ds; [|discriminate]. destruct rs; [|discriminate].
    destruct ms; [|discriminate].
    exists [], s. cbn [WriteProbability_loop]. rewrite app_nil_r.
    split; [reflexivity|]. split; [reflexivity | exact Hr].
  - destruct ds as [|d1 [|d2 [|d3 [|d4 ds]]]]; try (cbn [length] in Hds; lia).
    destruct rs as [|r1 [|r2 rs]]; try (cbn [length] in Hrs; lia).
    destruct ms as [|m1 [|m2 [|m3 ms]]]; try (cbn [length] in Hms; lia).
    cbn [length] in Hds, Hrs, Hms.
    repeat match goal with
           | H : Forall _ (_ :: _) |- _ =>
               apply list.Forall_cons in H; destruct H as [? H]
           end.
    destruct (Hparents i) as (parent & Hparent & Hrange & Hfather); [lia|].
    destruct (WriteProbability_site_run MutationProbability parent_genotypes
                father_genotypes i fout s parent d1 d2 d3 d4 r1 r2 m1 m2 m3
                (ds ++ dr) (rs ++ rr) (ms ++ mr))
      as (line & s1 & Hsite & Hu & Hc & Hr1); try assumption.
    destruct (IH (S i) (fout ++ [line]) s1 ds rs ms dr rr mr)
      as (lines & s' & Hloop & Hlen & Hr'); try assumption; try lia.
    + apply (model_ready_unflagged (params_ s)); assumption.
    + intros k Hk. apply Hparents. lia.
    + rewrite Hc. assumption.
    + exists (line :: lines), s'. cbn [WriteProbability_loop].
      rewrite (bind_run _ _ _ _ _ Hsite), Hloop, <- app_assoc.
      split; [reflexivity|]. split; [cbn [length]; lia | exact Hr'].
Qed.
End SimulatorTotal.

(** X17: with parameter tables of the right sizes and positive weights
    throughout, [WriteProbability] for [n] sites completes on any results
    of the generators that are in their ranges: [n] discrete draws below
    256 for the parent pairs, then per site four discrete draws below 16,
    two results of [rand] and three arrays of reads that sum to the
    coverage.  It writes [n] lines and takes exactly these draws; no table
    is read outside its bounds and no child genotype is -1. *)
Theorem WriteProbability_total :
  forall (D : Type) (DA : DoubleArith D)
         (MutationProbability : TrioModel D -> ReadDataVector -> D)
         (n : nat) (s : SimulationModel D)
         (parents discrete rand_draws' : list Z) (multinomial : list RowVector4i)
         (discrete_rest rand_rest : list Z) (multinomial_rest : list RowVector4i),
    model_ready (params_ s) ->
    r s = mkRandomSource (parents ++ discrete ++ discrete_rest)
            (rand_draws' ++ rand_rest) (multinomial ++ multinomial_rest) ->
    length parents = n -> Forall (fun parent => 0 <= parent < 256) parents ->
    length discrete = (4 * n)%nat -> Forall (fun d => 0 <= d < 16) discrete ->
    length rand_draws' = (2 * n)%nat -> Forall (fun x => 0 <= x) rand_draws' ->
    length multinomial = (3 * n)%nat ->
    Forall (valid_reads (coverage_ s)) multinomial ->
    exists (fout : list (Line D)) (s' : SimulationModel D),
      WriteProbability MutationProbability (Z.of_nat n) s = Some (fout, s')
      /\ length fout = n
      /\ r s' = mkRandomSource discrete_rest rand_rest multinomial_rest.
Proof.
  intros D DA MP n s parents ds rs ms dr rr mr Hready Hr Hlen Hparents
    Hds Hd Hrs Hra Hms Hm.
  unfold WriteProbability.
  destruct (Z.ltb_spec (Z.of_nat n) 0); [lia|].
  rewrite Nat2Z.id.
  pose proof Hready as (Hpriors & _ & _ & _ & Hpos & _).
  assert (Hsamples :
            RandomDiscreteChoice_samples (kGenotypeCount * kGenotypeCount)
              (population_priors (params_ s)) n s
            = Some (parents,
                    with_source s (mkRandomSource (ds ++ dr) (rs ++ rr) (ms ++ mr)))).
  { rewrite <- Hlen.
    rewrite (RandomDiscreteChoice_samples_run _ _ parents) with (rest := ds ++ dr);
      [rewrite Hr; reflexivity | rewrite Hpriors; unfold kGenotypeCount; lia
       | exact Hpos | exact Hparents | rewrite Hr; reflexivity]. }
  rewrite (bind_run
             (fun s0 => RandomDiscreteChoice_samples
                          (kGenotypeCount * kGenotypeCount)
                          (population_priors (params_ s0)) n s0)
             _ s _ parents Hsamples).
  destruct (WriteProbability_loop_run MP parents
              (map (fun g => Z.quot g kGenotypeCount) parents) n 0 []
              (with_source s (mkRandomSource (ds ++ dr) (rs ++ rr) (ms ++ mr)))
              ds rs ms dr rr mr)
    as (lines & s' & Hloop & Hlines & Hr'); try assumption; try reflexivity.
  - intros k Hk.
    destruct (lookup_lt_is_Some_2 parents k) as [parent Hparent]; [lia|].
    exists parent. split; [exact Hparent|]. split.
    + apply (Forall_lookup_1 _ _ _ _ Hparents Hparent).
    + change (map ?f ?l) with (f <$> l).
      rewrite list_lookup_fmap, Hparent. reflexivity.
  - exists lines, s'. split; [exact Hloop|]. split; [exact Hlines | exact Hr'].
Qed.

(** One site with the parent pair 17 (mother AC, father AC). *)
Lemma WriteProbability_total_witness :
  exists (fout : list (Line float)) (s' : SimulationModel float),
    WriteProbability (fun _ _ => 0%float) (Z.of_nat 1)
      (simulator_uniform [17; 1; 2; 3; 4; 9] [0; 1]
         [mkRow 4 0 0 0; mkRow 2 2 0 0; mkRow 1 1 1 1])
    = Some (fout, s')
    /\ length fout = 1%nat
    /\ r s' = mkRandomSource [9] [] [].
Proof.
  apply (WriteProbability_total float binary64 (fun _ _ => 0%float) 1
           (simulator_uniform [17; 1; 2; 3; 4; 9] [0; 1]
              [mkRow 4 0 0 0; mkRow 2 2 0 0; mkRow 1 1 1 1])
           [17] [1; 2; 3; 4] [0; 1]
           [mkRow 4 0 0 0; mkRow 2 2 0 0; mkRow 1 1 1 1] [9] [] []).
  - unfold model_ready, positive_weights, simulator_uniform.
    cbn [params_ population_priors germline_probability_mat
         somatic_probability_mat alphas].
    rewrite !length_replicate.
    repeat split; try reflexivity; apply Forall_replicate; reflexivity.
  - reflexivity.
  - reflexivity.
  - repeat (apply Forall_cons; [lia|]). apply Forall_nil.
  - reflexivity.
  - repeat (apply Forall_cons; [lia|]). apply Forall_nil.
  - reflexivity.
  - repeat (apply Forall_cons; [lia|]). apply Forall_nil.
  - reflexivity.
  - repeat (apply Forall_cons;
              [unfold valid_reads; cbn [col0 col1 col2 col3 coverage_
                                        simulator_uniform]; lia|]).
    apply Forall_nil.
Defined.

(** ** The lines of a run of [WriteProbability] (C7) *)

Section SimulatorLines.
Context `{DA : DoubleArith D}.


Lemma with_flag_twice (p : TrioModel D) (b b' : bool) :
  with_flag (with_flag p b) b' = with_flag p b'.
Proof. reflexivity. Qed.


Variable MutationProbability : TrioModel D -> ReadDataVector -> D.




End SimulatorLines.




(** ** Further properties of the binning programs *)


Lemma fmin_at_most_9 (x : IntegralDouble) (bin : Z) :
  fmin x 9 = XInt bin -> bin <= 9.
Proof.
  destruct x as [| negative | z]; cbn [fmin].
  - intros [= <-]. lia.
  - destruct negative; [discriminate|]. intros [= <-]. lia.
  - intros [= <-]. lia.
Qed.

(** The conversion to [int] of a bin that is a value of [int]. *)
Lemma bin_of_in_int (p : float) (bin : Z) :
  fmin (floor (PrimFloat.mul p 10)) 9 = XInt bin -> - 2 ^ 31 <= bin ->
  bin_of p = Some bin.
Proof.
  intros Hfmin Hlow. pose proof (fmin_at_most_9 _ _ Hfmin) as Hhigh.
  unfold bin_of.
  replace (dof_Z kNumBins) with 10%float by (vm_compute; reflexivity).
  change (kNumBins - 1) with 9. rewrite Hfmin. unfold to_int.
  destruct (Z.leb_spec (- 2 ^ 31) bin); [|lia].
  destruct (Z.ltb_spec bin (2 ^ 31)); [reflexivity | lia].
Qed.

Lemma bin_of_XInt (p : float) (bin : Z) :
  bin_of p = Some bin -> fmin (floor (PrimFloat.mul p 10)) 9 = XInt bin.
Proof.
  unfold bin_of.
  replace (dof_Z kNumBins) with 10%float by (vm_compute; reflexivity).
  change (kNumBins - 1) with 9.
  destruct (fmin _ 9) as [| negative | z]; cbn [to_int]; try discriminate.
  destruct (_ && _); [|discriminate]. intros [= <-]. reflexivity.
Qed.




Lemma CountBin_read_app (before after : list string)
    (st : float * Z * list Z * list Z) :
  CountBin_read (before ++ after) st
  = match CountBin_read before st with
    | Some st' => CountBin_read after st'
    | None => None
    end.
Proof.
  revert st. induction before as [|line before IH]; intros st; [reflexivity|].
  cbn [app CountBin_read]. destruct (CountBin_line line st); [apply IH | reflexivity].
Qed.

Lemma CountBinTrio_read_app (before after : list string)
    (st : float * Z * Z * list Z) :
  CountBinTrio_read (before ++ after) st
  = match CountBinTrio_read before st with
    | Some (Completed st') => CountBinTrio_read after st'
    | other => other
    end.
Proof.
  revert st. induction before as [|line before IH]; intros st; [reflexivity|].
  cbn [app CountBinTrio_read].
  destruct (CountBinTrio_line line st) as [[st'|msg]|]; [apply IH | |]; reflexivity.
Qed.

(** X19: a line whose probability falls in a bin below 0 is handled in
    three ways.  [CountBin] has no guard: it would count the site in
    [totals[bin]], outside the array, and the run has no defined result.
    [CountBinTrio] ends the run with the error "Negative probability.", the
    first time such a line is met.  The loop of [count_bin_trio.cc] counts
    the site in the bin of the negatives and carries on. *)
Theorem negative_bin_handling :
  forall (before after : list string) (line : string) (rest : stringstream)
         (p : float) (bin : Z),
    extract_double (stringstream_of (remove_newlines line)) = (Stored p, rest) ->
    bin_of p = Some bin -> bin < 0 ->
    CountBin (before ++ line :: after) = None
    /\ (forall (indeterminate : float) (st : float * Z * Z * list Z),
          CountBinTrio_read before (indeterminate, 0, 0, replicate 10 0)
          = Some (Completed st) ->
          CountBinTrio indeterminate (before ++ line :: after)
          = Some (Fatal "Negative probability."))
    /\ (forall (probability : float) (neg_bin total : Z) (counts : list Z)
               (probability_count : option Z),
          exists probability_count' : option Z,
            count_bin_trio_line line
              (probability, neg_bin, total, counts, probability_count)
            = Some (p, neg_bin + 1, total + 1, counts, probability_count')).
Proof.
  intros before after line rest p bin Hparse Hbin Hneg. split; [|split].
  - unfold CountBin. rewrite CountBin_read_app.
    destruct (CountBin_read before _) as [[[[p0 h0] counts] totals]|]; [|reflexivity].
    cbn [CountBin_read]. unfold CountBin_line. rewrite Hparse.
    destruct (extract_int rest) as [read2 rest']. cbn [assigned].
    rewrite Hbin. destruct (Z.leb_spec 0 bin); [lia | reflexivity].
  - intros indeterminate [[[p0 total] probability_count] counts] Hbefore.
    unfold CountBinTrio. rewrite CountBinTrio_read_app, Hbefore.
    cbn [CountBinTrio_read]. unfold CountBinTrio_line. rewrite Hparse.
    cbn [assigned]. rewrite Hbin.
    destruct (Z.ltb_spec bin 0); [reflexivity | lia].
  - intros probability neg_bin total counts probability_count. eexists.
    unfold count_bin_trio_line. rewrite Hparse. cbn [assigned]. rewrite Hbin.
    destruct (Z.ltb_spec bin 0); [reflexivity | lia].
Qed.

(** The line "-0.5 1" after a line in bin 5: its bin is -5. *)
Lemma negative_bin_handling_witness :
  CountBin (["0.5 1"%string] ++ "-0.5 1"%string :: ["0.7 0"%string]) = None
  /\ (forall (indeterminate : float) (st : float * Z * Z * list Z),
        CountBinTrio_read ["0.5 1"%string] (indeterminate, 0, 0, replicate 10 0)
        = Some (Completed st) ->
        CountBinTrio indeterminate
          (["0.5 1"%string] ++ "-0.5 1"%string :: ["0.7 0"%string])
        = Some (Fatal "Negative probability."))
  /\ (forall (probability : float) (neg_bin total : Z) (counts : list Z)
             (probability_count : option Z),
        exists probability_count' : option Z,
          count_bin_trio_line "-0.5 1"
            (probability, neg_bin, total, counts, probability_count)
          = Some ((-0.5)%float, neg_bin + 1, total + 1, counts, probability_count')).
Proof.
  apply (negative_bin_handling ["0.5 1"%string] ["0.7 0"%string] "-0.5 1"
           (mkStream " 1" true) (-0.5)%float (-5)); [reflexivity | reflexivity | lia].
Defined.

Lemma Completed_inj {A : Type} (a b : A) : Completed a = Completed b -> a = b.
Proof. congruence. Qed.

(** The report loop over the bins, entry by entry. *)
Lemma trio_bin_reports_counts (counts : list Z) (total : Z) (sites : nat -> Z) :
  (forall i : nat, (i < 10)%nat -> counts !!! i = sites i) ->
  trio_bin_reports counts total
  = map (fun i : nat =>
           if 0 <? sites i
           then SitesInTrioBin
                  (PrimFloat.mul (PrimFloat.div (dof_Z (sites i)) (dof_Z total))
                                 (dof_Z 100))
                  (sites i) total (Z.of_nat i)
           else NoSitesInTrioBin (Z.of_nat i))
        (seq 0 10).
Proof.
  intros Hsites. unfold trio_bin_reports. change (Z.to_nat kNumBins) with 10%nat.
  apply map_ext_in. intros i Hi. apply in_seq in Hi.
  rewrite Hsites by lia. reflexivity.
Qed.

(** The counters of [CountBinTrio] after a file whose probabilities are
    at least 0. *)
Lemma CountBinTrio_read_values (lines : list string) :
  forall (probability : float) (total probability_count : Z) (counts : list Z),
    let values := probabilities_read lines probability in
    length counts = 10%nat ->
    Forall (fun p => PrimFloat.leb 0 p = true) values ->
    exists (probability' : float) (counts' : list Z),
      CountBinTrio_read lines (probability, total, probability_count, counts)
      = Some (Completed
                (probability', total + Z.of_nat (length lines),
                 probability_count + count_of (fun p => PrimFloat.ltb 0.1 p) values,
                 counts'))
      /\ length counts' = 10%nat
      /\ forall i : nat,
           counts' !!! i
           = counts !!! i + count_of (fun p => in_bin (Z.of_nat i) p) values.
Proof.
  induction lines as [|line lines IH];
    intros probability total pc counts values Hlen Hall.
  - exists probability, counts. cbn [CountBinTrio_read length].
    unfold values, count_of. cbn [probabilities_read List.filter length].
    rewrite !Z.add_0_r. split; [reflexivity|]. split; [exact Hlen|].
    intros i. lia.
  - unfold values in *. clear values.
    cbn [probabilities_read] in Hall |- *. cbn zeta in Hall |- *.
    cbn [CountBinTrio_read]. unfold CountBinTrio_line.
    destruct (extract_double _) as [read str]. cbn [fst] in Hall |- *.
    set (p := assigned read probability) in *.
    apply list.Forall_cons in Hall. destruct Hall as [Hpos Hall].
    destruct (bin_of_nonneg p Hpos) as (bin & Hbin & Hrange & Hfmin).
    rewrite Hbin.
    destruct (Z.ltb_spec bin 0); [lia|].
    destruct (Z.ltb_spec bin kNumBins); [|unfold kNumBins in *; lia].
    destruct (IH p (total + 1)
                (if PrimFloat.ltb 0.1 p then pc + 1 else pc)
                (alter Z.succ (Z.to_nat bin) counts))
      as (p' & counts' & Hread & Hlen' & Hsum).
    { rewrite length_alter. exact Hlen. }
    { exact Hall. }
    set (values := probabilities_read lines p) in *.
    exists p', counts'. rewrite Hread. split; [|split; [exact Hlen'|]].
    + rewrite count_of_cons. cbn [length].
      replace (total + 1 + Z.of_nat (length lines))
        with (total + Z.of_nat (S (length lines))) by lia.
      replace ((if PrimFloat.ltb 0.1 p then pc + 1 else pc)
               + count_of (fun p0 => PrimFloat.ltb 0.1 p0) values)
        with (pc + ((if PrimFloat.ltb 0.1 p then 1 else 0)
                    + count_of (fun p0 => PrimFloat.ltb 0.1 p0) values))
        by (destruct (PrimFloat.ltb 0.1 p); lia).
      reflexivity.
    + intros i. rewrite Hsum, count_of_cons, (in_bin_XInt p bin _ Hfmin).
      rewrite lookup_total_alter_succ by lia. lia.
Qed.

(** X20: [CountBinTrio] on a file whose probabilities are at least 0
    reports the number of lines read as the total, the number of lines
    whose probability is greater than the cut 0.1 with its percentage of
    the total, and for each of the bins 0 to 9, in this order, the number
    of lines whose probability [p] has [min(floor(p * 10), 9)] equal to
    the bin.  A line that holds no number keeps the probability of the
    line before; the variable has no initial value, so that lines without
    number at the start of the file are counted with whatever value it
    holds, and a file that begins with a number does not depend on it.  On
    an empty file the total is 0 and the first percentage is 0/0, a NaN. *)
Theorem CountBinTrio_accounts_for_every_line :
  (forall indeterminate : float,
      CountBinTrio indeterminate []
      = Some (Completed
                (SitesAboveCut (Some nan) (Some 0) 0 0.1%float
                 :: map (fun i => NoSitesInTrioBin (Z.of_nat i)) (seq 0 10))))
  /\ (forall (indeterminate other p : float) (line : string)
             (lines : list string) (rest : stringstream),
        extract_double (stringstream_of (remove_newlines line)) = (Stored p, rest) ->
        CountBinTrio indeterminate (line :: lines)
        = CountBinTrio other (line :: lines))
  /\ forall (indeterminate : float) (lines : list string),
       let values := probabilities_read lines indeterminate in
       Forall (fun p => PrimFloat.leb 0 p = true) values ->
       let total := Z.of_nat (length lines) in
       let above := count_of (fun p => PrimFloat.ltb 0.1 p) values in
       CountBinTrio indeterminate lines
       = Some (Completed
                 (SitesAboveCut
                    (Some (PrimFloat.mul
                             (PrimFloat.div (dof_Z above) (dof_Z total))
                             (dof_Z 100)))
                    (Some above) total 0.1%float
                  :: map (fun i : nat =>
                            let count :=
                              count_of (fun p => in_bin (Z.of_nat i) p) values in
                            if 0 <? count
                            then SitesInTrioBin
                                   (PrimFloat.mul
                                      (PrimFloat.div (dof_Z count) (dof_Z total))
                                      (dof_Z 100))
                                   count total (Z.of_nat i)
                            else NoSitesInTrioBin (Z.of_nat i))
                         (seq 0 10))).
Proof.
  split; [intros indeterminate; vm_compute; reflexivity|]. split.
  - intros indeterminate other p line lines rest Hparse. unfold CountBinTrio.
    cbn [CountBinTrio_read]. unfold CountBinTrio_line. rewrite Hparse.
    reflexivity.
  - intros indeterminate lines values Hall total above. unfold CountBinTrio.
    destruct (CountBinTrio_read_values lines indeterminate 0 0 (replicate 10 0))
      as (p' & counts' & -> & Hlen & Hsum);
      [reflexivity | exact Hall |].
    subst total above values. rewrite !Z.add_0_l. do 3 f_equal.
    apply trio_bin_reports_counts. intros i Hi.
    rewrite Hsum, lookup_total_replicate_2 by lia. lia.
Qed.

(** Four lines, the second in exponent notation and the third blank: two
    sites are above the cut, and the blank line is counted again in the bin
    of the line before. *)
Lemma CountBinTrio_accounts_for_every_line_witness :
  let lines := ["0.95"; "2.5e-01"; ""; "0.05"]%string in
  probabilities_read lines 7 = [0.95; 0.25; 0.25; 0.05]%float
  /\ CountBinTrio 7 lines
  = Some (Completed
            [SitesAboveCut (Some 75%float) (Some 3) 4 0.1%float;
             SitesInTrioBin 25 1 4 0; NoSitesInTrioBin 1;
             SitesInTrioBin 50 2 4 2; NoSitesInTrioBin 3; NoSitesInTrioBin 4;
             NoSitesInTrioBin 5; NoSitesInTrioBin 6; NoSitesInTrioBin 7;
             NoSitesInTrioBin 8; SitesInTrioBin 25 1 4 9]).
Proof.
  intros lines.
  assert (Hvalues : probabilities_read lines 7 = [0.95; 0.25; 0.25; 0.05]%float)
    by (vm_compute; reflexivity).
  split; [exact Hvalues|].
  rewrite (proj2 (proj2 CountBinTrio_accounts_for_every_line) 7%float lines).
  - rewrite Hvalues. vm_compute. reflexivity.
  - rewrite Hvalues.
    repeat (apply list.Forall_cons; split; [vm_compute; reflexivity|]).
    apply Forall_nil.
Defined.

(** The counters of the loop of [count_bin_trio.cc] after a file: the lines
    whose bin is below 0 are counted in [neg_bin], the others in their bin;
    the count of the sites above the cut, never initialised, stays
    indeterminate. *)
Lemma count_bin_trio_read_values (lines : list string) :
  forall (probability : float) (neg_bin total : Z) (counts : list Z),
    let values := probabilities_read lines probability in
    length counts = 10%nat ->
    Forall bin_in_int values ->
    exists (probability' : float) (counts' : list Z),
      count_bin_trio_read lines (probability, neg_bin, total, counts, None)
      = Some (probability', neg_bin + count_of in_negative_bin values,
              total + Z.of_nat (length lines), counts', None)
      /\ length counts' = 10%nat
      /\ forall i : nat,
           counts' !!! i
           = counts !!! i + count_of (fun p => in_bin (Z.of_nat i) p) values.
Proof.
  induction lines as [|line lines IH];
    intros probability neg_bin total counts values Hlen Hall.
  - exists probability, counts. cbn [count_bin_trio_read length].
    unfold values, count_of. cbn [probabilities_read List.filter length].
    rewrite !Z.add_0_r. split; [reflexivity|]. split; [exact Hlen|].
    intros i. lia.
  - unfold values in *. clear values.
    cbn [probabilities_read] in Hall |- *. cbn zeta in Hall |- *.
    cbn [count_bin_trio_read]. unfold count_bin_trio_line.
    destruct (extract_double _) as [read str]. cbn [fst] in Hall |- *.
    set (p := assigned read probability) in *.
    apply list.Forall_cons in Hall. destruct Hall as [(bin & Hfmin & Hlow) Hall].
    rewrite (bin_of_in_int p bin Hfmin Hlow).
    pose proof (fmin_at_most_9 _ _ Hfmin) as Hhigh.
    assert (Hpc : (if PrimFloat.ltb 0.1 p then option_map Z.succ None else None)
                  = (None : option Z)) by (destruct (PrimFloat.ltb 0.1 p); reflexivity).
    rewrite Hpc.
    assert (Hneg : in_negative_bin p = (bin <? 0))
      by (unfold in_negative_bin; rewrite Hfmin; reflexivity).
    destruct (Z.ltb_spec bin 0) as [Hbin | Hbin].
    + destruct (IH p (neg_bin + 1) (total + 1) counts Hlen Hall)
        as (p' & counts' & Hread & Hlen' & Hsum).
      set (values := probabilities_read lines p) in *.
      exists p', counts'. rewrite Hread. split; [|split; [exact Hlen'|]].
      * rewrite count_of_cons, Hneg. cbn [length].
        replace (neg_bin + 1 + count_of in_negative_bin values)
          with (neg_bin + (1 + count_of in_negative_bin values)) by lia.
        replace (total + 1 + Z.of_nat (length lines))
          with (total + Z.of_nat (S (length lines))) by lia.
        reflexivity.
      * intros i. rewrite Hsum, count_of_cons, (in_bin_XInt p bin _ Hfmin).
        destruct (Z.eqb_spec bin (Z.of_nat i)); lia.
    + destruct (IH p neg_bin (total + 1) (alter Z.succ (Z.to_nat bin) counts))
        as (p' & counts' & Hread & Hlen' & Hsum);
        [rewrite length_alter; exact Hlen | exact Hall |].
      set (values := probabilities_read lines p) in *.
      exists p', counts'. rewrite Hread. split; [|split; [exact Hlen'|]].
      * rewrite count_of_cons, Hneg. cbn [length].
        replace (neg_bin + (0 + count_of in_negative_bin values))
          with (neg_bin + count_of in_negative_bin values) by lia.
        replace (total + 1 + Z.of_nat (length lines))
          with (total + Z.of_nat (S (length lines))) by lia.
        reflexivity.
      * intros i. rewrite Hsum, count_of_cons, (in_bin_XInt p bin _ Hfmin).
        rewrite lookup_total_alter_succ by lia. lia.
Qed.

(** X21: [main] of [count_bin_trio.cc] ends with the usage error when no
    file is named and with the error "Input file cannot be read." when the
    file cannot be opened.  On a file it reports the number of lines read
    as the total, but the count of sites above the probability cut and its
    percentage are indeterminate for every input, [probability_count]
    being incremented without ever being initialised.  The entries that
    follow count every line once: the lines whose bin is below 0 in the
    bin -1, reported when it holds sites, and the others in their bin
    [min(floor(p * 10), 9)] from 0 to 9; a line that holds no number counts
    with the probability of the line before, 0.0 at the start. *)
Theorem count_bin_trio_main_report :
  forall (argv : list string) (open_file : string -> option (list string)),
    ((length argv < 2)%nat ->
       count_bin_trio_main argv open_file
       = Some (Fatal "USAGE: count_bin_trio <input.txt>"))
    /\ (forall file_name : string,
          argv !! 1%nat = Some file_name -> open_file file_name = None ->
          count_bin_trio_main argv open_file
          = Some (Fatal "Input file cannot be read."))
    /\ (forall (file_name : string) (lines : list string),
          argv !! 1%nat = Some file_name -> open_file file_name = Some lines ->
          let values := probabilities_read lines 0 in
          Forall bin_in_int values ->
          let total := Z.of_nat (length lines) in
          let negatives := count_of in_negative_bin values in
          count_bin_trio_main argv open_file
          = Some (Completed
                    (SitesAboveCut None None total 0.1%float
                     :: (if 0 <? negatives
                         then [SitesInTrioBin
                                 (PrimFloat.mul
                                    (PrimFloat.div (dof_Z negatives) (dof_Z total))
                                    (dof_Z 100))
                                 negatives total (-1)]
                         else [])
                     ++ map (fun i : nat =>
                               let count :=
                                 count_of (fun p => in_bin (Z.of_nat i) p) values in
                               if 0 <? count
                               then SitesInTrioBin
                                      (PrimFloat.mul
                                         (PrimFloat.div (dof_Z count) (dof_Z total))
                                         (dof_Z 100))
                                      count total (Z.of_nat i)
                               else NoSitesInTrioBin (Z.of_nat i))
                            (seq 0 10)))).
Proof.
  intros argv open_file. split; [|split].
  - intros Hargc. unfold count_bin_trio_main.
    destruct (Nat.ltb_spec (length argv) 2); [reflexivity | lia].
  - intros file_name Hname Hopen. unfold count_bin_trio_main.
    pose proof (lookup_lt_Some _ _ _ Hname).
    destruct (Nat.ltb_spec (length argv) 2); [lia|].
    rewrite Hname, Hopen. reflexivity.
  - intros file_name lines Hname Hopen values Hall total negatives.
    unfold count_bin_trio_main.
    pose proof (lookup_lt_Some _ _ _ Hname).
    destruct (Nat.ltb_spec (length argv) 2); [lia|].
    rewrite Hname, Hopen.
    destruct (count_bin_trio_read_values lines 0%float 0 0 (replicate 10 0))
      as (p' & counts' & -> & Hlen & Hsum);
      [reflexivity | exact Hall |].
    subst total negatives values. rewrite !Z.add_0_l. cbn [option_map].
    do 4 f_equal.
    apply trio_bin_reports_counts. intros i Hi.
    rewrite Hsum, lookup_total_replicate_2 by lia. lia.
Qed.

(** Four lines, one of them negative and one blank. *)
Lemma count_bin_trio_main_report_witness :
  probabilities_read ["5e-2"; "-0.5"; ""; "0.95"]%string 0
  = [0.05; -0.5; -0.5; 0.95]%float
  /\ count_bin_trio_main ["count_bin_trio"; "input.txt"]%string
    (fun _ : string => Some ["5e-2"; "-0.5"; ""; "0.95"]%string)
  = Some (Completed
            [SitesAboveCut None None 4 0.1%float;
             SitesInTrioBin 50 2 4 (-1);
             SitesInTrioBin 25 1 4 0;
             NoSitesInTrioBin 1; NoSitesInTrioBin 2; NoSitesInTrioBin 3;
             NoSitesInTrioBin 4; NoSitesInTrioBin 5; NoSitesInTrioBin 6;
             NoSitesInTrioBin 7; NoSitesInTrioBin 8;
             SitesInTrioBin 25 1 4 9]).
Proof.
  assert (Hvalues : probabilities_read ["5e-2"; "-0.5"; ""; "0.95"]%string 0
                    = [0.05; -0.5; -0.5; 0.95]%float)
    by (vm_compute; reflexivity).
  split; [exact Hvalues|].
  rewrite (proj2 (proj2 (count_bin_trio_main_report
                           ["count_bin_trio"; "input.txt"]%string
                           (fun _ : string => Some ["5e-2"; "-0.5"; ""; "0.95"]%string)))
             "input.txt"%string ["5e-2"; "-0.5"; ""; "0.95"]%string).
  - rewrite Hvalues. vm_compute. reflexivity.
  - reflexivity.
  - reflexivity.
  - rewrite Hvalues.
    repeat (apply list.Forall_cons; split;
            [eexists; split; [vm_compute; reflexivity | lia]|]).
    apply Forall_nil.
Defined.

(** *** Cases 3 and 4 of [bin_driver.cc] *)

(** A line that holds three integers sets the three variables. *)
Lemma extract_counts_holds (line : string) (index m k : Z) (vars : Z * Z * Z) :
  holds_counts line index m k -> extract_counts line vars = (index, m, k).
Proof.
  intros (str1 & str2 & str3 & H1 & H2 & H3).
  destruct vars as [[index0 m0] k0]. unfold extract_counts.
  rewrite H1, H2, H3. reflexivity.
Qed.

(** A blank line leaves the three variables as they are. *)
Lemma extract_counts_blank (line : string) (vars : Z * Z * Z) :
  skip_space (remove_newlines line) = EmptyString ->
  extract_counts line vars = vars.
Proof.
  intros Hblank. destruct vars as [[index m] k].
  unfold extract_counts, extract_int at 1, sentry.
  cbn [stringstream_of good unread]. rewrite Hblank.
  unfold failed_sentry. cbn [good unread]. reflexivity.
Qed.

Lemma length_counts_read (lines : list string) :
  forall vars : Z * Z * Z, length (counts_read lines vars) = length lines.
Proof.
  induction lines as [|line lines IH]; intros vars; [reflexivity|].
  cbn [counts_read length]. rewrite IH. reflexivity.
Qed.

Lemma int_add_in_range (a b : Z) :
  - 2 ^ 31 <= a + b < 2 ^ 31 -> int_add a b = Some (a + b).
Proof.
  intros H. unfold int_add.
  destruct (Z.leb_spec (- 2 ^ 31) (a + b)); [|lia].
  destruct (Z.ltb_spec (a + b) (2 ^ 31)); [reflexivity | lia].
Qed.

(** The probabilities that [CountProbability] has collected after the
    lines: one more for every line, from the values of the variables after
    the line. *)
Lemma CountProbability_read_values (lines : list string) :
  forall (vars : Z * Z * Z) (probabilities : list float),
    Forall (fun v => - 2 ^ 31 <= trios v < 2 ^ 31) (counts_read lines vars) ->
    exists vars' : Z * Z * Z,
      CountProbability_read lines (vars, probabilities)
      = Some (vars',
              probabilities
              ++ map (fun v => if trios v =? 0 then 0%float
                               else PrimFloat.div (dof_Z (with_mutation v))
                                                  (dof_Z (trios v)))
                     (counts_read lines vars)).
Proof.
  induction lines as [|line lines IH]; intros vars probabilities Hall.
  - exists vars. cbn [CountProbability_read counts_read map].
    rewrite app_nil_r. reflexivity.
  - cbn [counts_read CountProbability_read] in *.
    apply list.Forall_cons in Hall. destruct Hall as [Hv Hall].
    unfold CountProbability_line at 1.
    destruct (extract_counts line vars) as [[index m] k] eqn:Hline.
    unfold trios, with_mutation, without_mutation in Hv. cbn [fst snd] in Hv.
    rewrite (int_add_in_range m k Hv).
    destruct (IH (index, m, k)
                (probabilities
                 ++ [if m + k =? 0 then 0%float
                     else PrimFloat.div (dof_Z m) (dof_Z (m + k))]) Hall)
      as (vars' & ->).
    exists vars'. rewrite <- app_assoc. reflexivity.
Qed.

(** X22: [CountProbability] writes one probability for every line it
    reads, in the order of the lines, from the values that the three
    variables hold after the extractions of the line: for [m] trios with a
    mutation and [k] without it is the quotient [m / (m + k)] of doubles,
    and 0 when [m + k] is 0, so that no division by zero occurs; the index
    of the trio plays no part.  A line that holds three integers gives the
    values of the line; a blank line leaves the variables as they are and
    so repeats the probability of the line before. *)
Theorem CountProbability_one_probability_per_line :
  (forall lines : list string,
      let values := counts_read lines (0, 0, 0) in
      Forall (fun v => - 2 ^ 31 <= with_mutation v + without_mutation v < 2 ^ 31)
             values ->
      length values = length lines
      /\ CountProbability lines
         = Some (map (fun v =>
                        if with_mutation v + without_mutation v =? 0 then 0%float
                        else PrimFloat.div
                               (dof_Z (with_mutation v))
                               (dof_Z (with_mutation v + without_mutation v)))
                     values))
  /\ (forall (line : string) (index m k : Z) (vars : Z * Z * Z),
        holds_counts line index m k -> extract_counts line vars = (index, m, k))
  /\ (forall (line : string) (vars : Z * Z * Z),
        skip_space (remove_newlines line) = EmptyString ->
        extract_counts line vars = vars).
Proof.
  split; [|split; [apply extract_counts_holds | apply extract_counts_blank]].
  intros lines values Hall. split; [apply length_counts_read|].
  unfold CountProbability.
  destruct (CountProbability_read_values lines (0, 0, 0) [] Hall) as (vars' & ->).
  reflexivity.
Qed.

(** Four lines: 1 of 4 trios, no trio at all, a blank line and a line
    without its last count, which keeps the 0 of the line before. *)
Lemma CountProbability_one_probability_per_line_witness :
  let lines := ["7 1 3"; "9	0	0"; ""; "8 2"]%string in
  counts_read lines (0, 0, 0) = [(7, 1, 3); (9, 0, 0); (9, 0, 0); (8, 2, 0)]
  /\ CountProbability lines = Some [0.25; 0; 0; 1]%float.
Proof.
  intros lines.
  assert (Hvalues : counts_read lines (0, 0, 0)
                    = [(7, 1, 3); (9, 0, 0); (9, 0, 0); (8, 2, 0)])
    by (vm_compute; reflexivity).
  split; [exact Hvalues|].
  destruct (proj1 CountProbability_one_probability_per_line lines) as [_ Hrun].
  - rewrite Hvalues.
    repeat (apply list.Forall_cons; split;
            [unfold with_mutation, without_mutation; cbn [fst snd]; lia|]).
    apply Forall_nil.
  - rewrite Hrun, Hvalues. vm_compute. reflexivity.
Defined.

Lemma trio_sum_cons (f : Z * Z * Z -> Z) (i : Z) (v : Z * Z * Z)
    (values : list (Z * Z * Z)) :
  trio_sum f i (v :: values)
  = (if trio_index v =? i then f v else 0) + trio_sum f i values.
Proof. reflexivity. Qed.

Lemma lookup_total_insert_at (l : list Z) (index : Z) (i : nat) (x d : Z) :
  0 <= index -> l !! Z.to_nat index = Some x ->
  <[Z.to_nat index := x + d]> l !!! i
  = l !!! i + (if index =? Z.of_nat i then d else 0).
Proof.
  intros Hindex Hx. destruct (Z.eqb_spec index (Z.of_nat i)) as [-> | Hne].
  - rewrite Nat2Z.id in *.
    rewrite list_lookup_total_insert_eq by (eapply lookup_lt_Some; exact Hx).
    rewrite (list_lookup_total_correct _ _ _ Hx). reflexivity.
  - rewrite list_lookup_total_insert_ne by lia. lia.
Qed.

Lemma Forall_insert_bound (l : list Z) (j : nat) (x bound bound' : Z) :
  Forall (fun c => 0 <= c <= bound) l -> bound <= bound' -> 0 <= x <= bound' ->
  Forall (fun c => 0 <= c <= bound') (<[j := x]> l).
Proof.
  intros Hall Hle Hx. apply Forall_insert; [|exact Hx].
  apply (list.Forall_impl _ _ _ Hall). intros c Hc. lia.
Qed.

(** The counters of [CountProbabilityIndex] after the lines: what they
    held before and, for every trio, the sums over the lines read for it.
    [bound] is a bound of the counters, so that no sum leaves [int]. *)
Lemma CountProbabilityIndex_read_values (lines : list string) :
  forall (vars : Z * Z * Z) (has_mutation_totals trio_totals : list Z)
         (bound : Z),
    length has_mutation_totals = Z.to_nat kTrioCount ->
    length trio_totals = Z.to_nat kTrioCount ->
    Forall (fun c => 0 <= c <= bound) has_mutation_totals ->
    Forall (fun c => 0 <= c <= bound) trio_totals ->
    Forall counts_in_range (counts_read lines vars) ->
    0 <= bound ->
    bound + Zsum (map trios (counts_read lines vars)) < 2 ^ 31 ->
    exists (vars' : Z * Z * Z) (has_mutation_totals' trio_totals' : list Z),
      CountProbabilityIndex_read lines (vars, has_mutation_totals, trio_totals)
      = Some (vars', has_mutation_totals', trio_totals')
      /\ length has_mutation_totals' = Z.to_nat kTrioCount
      /\ length trio_totals' = Z.to_nat kTrioCount
      /\ forall i : nat,
           has_mutation_totals' !!! i
           = has_mutation_totals !!! i
             + trio_sum with_mutation (Z.of_nat i) (counts_read lines vars)
           /\ trio_totals' !!! i
              = trio_totals !!! i
                + trio_sum trios (Z.of_nat i) (counts_read lines vars).
Proof.
  induction lines as [|line lines IH];
    intros vars hm tt bound Hlenh Hlent Hh Ht Hall Hbound Hsum.
  - exists vars, hm, tt. split; [reflexivity|]. split; [exact Hlenh|].
    split; [exact Hlent|]. intros i. cbn [counts_read].
    unfold trio_sum. cbn [map Zsum fold_right]. split; lia.
  - cbn [counts_read CountProbabilityIndex_read] in *.
    apply list.Forall_cons in Hall. destruct Hall as [Hv Hall].
    cbn [map Zsum fold_right] in Hsum. fold (Zsum (map trios (counts_read lines
      (extract_counts line vars)))) in Hsum.
    unfold CountProbabilityIndex_line at 1.
    destruct (extract_counts line vars) as [[index m] k] eqn:Hline.
    destruct Hv as (Hindex & Hm & Hk).
    unfold trio_index, with_mutation, without_mutation in Hindex, Hm, Hk.
    cbn [fst snd] in Hindex, Hm, Hk.
    assert (Hrest : 0 <= Zsum (map trios (counts_read lines (index, m, k)))).
    { clear -Hall. induction Hall as [|v l (_ & Hm & Hk) _ IH];
        cbn [map Zsum fold_right]; [lia|].
      fold (Zsum (map trios l)). unfold trios at 1. lia. }
    unfold trios at 1 in Hsum.
    unfold with_mutation, without_mutation in Hsum. cbn [fst snd] in Hsum.
    rewrite (int_add_in_range m k) by lia.
    destruct (Z.leb_spec 0 index); [|lia].
    destruct (Z.ltb_spec index kTrioCount); [|unfold kTrioCount in *; lia].
    cbn [andb].
    assert (Hin : (Z.to_nat index < Z.to_nat kTrioCount)%nat)
      by (unfold kTrioCount; lia).
    destruct (lookup_lt_is_Some_2 hm (Z.to_nat index)) as [x Hx]; [lia|].
    destruct (lookup_lt_is_Some_2 tt (Z.to_nat index)) as [y Hy]; [lia|].
    rewrite Hx, Hy.
    pose proof (Forall_lookup_1 _ _ _ _ Hh Hx) as Hxb.
    pose proof (Forall_lookup_1 _ _ _ _ Ht Hy) as Hyb.
    cbn beta in Hxb, Hyb.
    rewrite (int_add_in_range x m), (int_add_in_range y (m + k)) by lia.
    destruct (IH (index, m, k) (<[Z.to_nat index := x + m]> hm)
                (<[Z.to_nat index := y + (m + k)]> tt) (bound + (m + k)))
      as (vars' & hm' & tt' & Hread & Hlenh' & Hlent' & Hsums).
    { rewrite length_insert. exact Hlenh. }
    { rewrite length_insert. exact Hlent. }
    { apply (Forall_insert_bound _ _ _ bound); [exact Hh | lia | lia]. }
    { apply (Forall_insert_bound _ _ _ bound); [exact Ht | lia | lia]. }
    { exact Hall. }
    { lia. }
    { lia. }
    exists vars', hm', tt'. split; [exact Hread|].
    split; [exact Hlenh'|]. split; [exact Hlent'|].
    intros i. destruct (Hsums i) as [Hhi Hti].
    rewrite !trio_sum_cons.
    change (trio_index (index, m, k)) with index.
    change (with_mutation (index, m, k)) with m.
    change (trios (index, m, k)) with (m + k).
    rewrite Hhi, Hti, (lookup_total_insert_at hm index i x m),
      (lookup_total_insert_at tt index i y (m + k)) by (lia || assumption).
    split; lia.
Qed.

(** The output of [CountProbabilityIndex] on lines whose values can be
    counted. *)
Lemma CountProbabilityIndex_values (lines : list string) :
  Forall counts_in_range (counts_read lines (0, 0, 0)) ->
  Zsum (map trios (counts_read lines (0, 0, 0))) < 2 ^ 31 ->
  exists output : list float,
    CountProbabilityIndex lines = Some output
    /\ Z.of_nat (length output) = 42875
    /\ forall i : nat,
         Z.of_nat i < 42875 ->
         output !! i
         = Some (let m := trio_sum with_mutation (Z.of_nat i)
                            (counts_read lines (0, 0, 0)) in
                 let t := trio_sum trios (Z.of_nat i)
                            (counts_read lines (0, 0, 0)) in
                 if m =? 0 then 0%float
                 else PrimFloat.div (dof_Z m) (dof_Z t)).
Proof.
  intros Hall Hsum. unfold CountProbabilityIndex.
  destruct (CountProbabilityIndex_read_values lines (0, 0, 0)
              (replicate (Z.to_nat kTrioCount) 0)
              (replicate (Z.to_nat kTrioCount) 0) 0)
    as (vars' & hm & tt & -> & Hlenh & Hlent & Hsums).
  { apply length_replicate. }
  { apply length_replicate. }
  { apply Forall_replicate. lia. }
  { apply Forall_replicate. lia. }
  { exact Hall. }
  { lia. }
  { lia. }
  eexists. split; [reflexivity|]. split.
  - rewrite length_zip_with, Hlenh, Hlent. unfold kTrioCount. lia.
  - intros i Hi.
    assert (Hin : (i < Z.to_nat kTrioCount)%nat) by (unfold kTrioCount; lia).
    rewrite lookup_zip_with.
    rewrite (list_lookup_lookup_total_lt hm i) by lia.
    rewrite (list_lookup_lookup_total_lt tt i) by lia.
    cbn [mbind option_bind]. destruct (Hsums i) as [-> ->].
    rewrite !lookup_total_replicate_2 by exact Hin.
    rewrite !Z.add_0_l. reflexivity.
Qed.

(** A line whose index lies outside the counters ends the definition of
    the run. *)
Lemma CountProbabilityIndex_read_outside (lines : list string) :
  forall (vars : Z * Z * Z) (has_mutation_totals trio_totals : list Z),
    Exists (fun v => ~ 0 <= trio_index v < 42875) (counts_read lines vars) ->
    CountProbabilityIndex_read lines (vars, has_mutation_totals, trio_totals)
    = None.
Proof.
  induction lines as [|line lines IH]; intros vars hm tt Hex.
  - cbn [counts_read] in Hex. apply Exists_nil in Hex. contradiction.
  - cbn [counts_read CountProbabilityIndex_read] in *.
    unfold CountProbabilityIndex_line at 1.
    destruct (extract_counts line vars) as [[index m] k] eqn:Hline.
    apply Exists_cons in Hex.
    destruct (int_add m k) as [total|]; [|reflexivity].
    destruct (Z.leb_spec 0 index) as [Hlo|]; cbn [andb].
    + destruct (Z.ltb_spec index kTrioCount) as [Hhi|].
      * destruct (hm !! Z.to_nat index) as [x|]; [|reflexivity].
        destruct (tt !! Z.to_nat index) as [y|]; [|reflexivity].
        destruct (int_add x m) as [x'|]; [|reflexivity].
        destruct (int_add y total) as [y'|]; [|reflexivity].
        destruct Hex as [Hhead | Htail].
        -- unfold trio_index in Hhead. cbn [fst] in Hhead.
           unfold kTrioCount in Hhi. lia.
        -- apply IH. exact Htail.
      * reflexivity.
    + reflexivity.
Qed.

(** X23: the output of [CountProbabilityIndex] has exactly 42875
    probabilities whatever the number of lines.  Entry [i] is computed from
    the sums over all the lines read for trio [i], the values being those
    that the three variables hold after the extractions of a line: with
    [m] trios with a mutation among [t] trios in all, it is 0 when [m] is
    0 and the quotient [m / t] of doubles otherwise; for a trio that no
    line names it is 0.  The index is used without a check: a line that
    leaves an index outside [[0, 42875)] leaves the run no defined
    result. *)
Theorem CountProbabilityIndex_output :
  forall lines : list string,
    let values := counts_read lines (0, 0, 0) in
    (Forall counts_in_range values ->
     Zsum (map (fun v => with_mutation v + without_mutation v) values) < 2 ^ 31 ->
     exists output : list float,
       CountProbabilityIndex lines = Some output
       /\ Z.of_nat (length output) = 42875
       /\ forall i : nat,
            Z.of_nat i < 42875 ->
            output !! i
            = Some (let m := trio_sum with_mutation (Z.of_nat i) values in
                    let t := trio_sum (fun v => with_mutation v + without_mutation v)
                               (Z.of_nat i) values in
                    if m =? 0 then 0%float
                    else PrimFloat.div (dof_Z m) (dof_Z t)))
    /\ (Exists (fun v => ~ 0 <= trio_index v < 42875) values ->
        CountProbabilityIndex lines = None).
Proof.
  intros lines values. split.
  - intros Hall Hsum. apply (CountProbabilityIndex_values lines Hall Hsum).
  - intros Hex. unfold CountProbabilityIndex.
    rewrite (CountProbabilityIndex_read_outside lines _ _ _ Hex). reflexivity.
Qed.

(** Two jobs that report trio 7 and one that reports trio 9, whose line has
    lost its last count and keeps that of the line before. *)
Lemma CountProbabilityIndex_output_witness :
  let lines := ["7 1 3"; "7 2 2"; "9 1"]%string in
  counts_read lines (0, 0, 0) = [(7, 1, 3); (7, 2, 2); (9, 1, 2)]
  /\ exists output : list float,
       CountProbabilityIndex lines = Some output
       /\ Z.of_nat (length output) = 42875
       /\ output !! 7%nat = Some (PrimFloat.div 3 8)
       /\ output !! 8%nat = Some 0%float
       /\ output !! 9%nat = Some (PrimFloat.div 1 3).
Proof.
  intros lines.
  assert (Hvalues : counts_read lines (0, 0, 0) = [(7, 1, 3); (7, 2, 2); (9, 1, 2)])
    by (vm_compute; reflexivity).
  split; [exact Hvalues|].
  destruct (proj1 (CountProbabilityIndex_output lines)) as (output & Hrun & Hlen & Hat).
  - rewrite Hvalues.
    repeat (apply list.Forall_cons; split;
            [unfold counts_in_range, trio_index, with_mutation, without_mutation;
             cbn [fst snd]; lia|]).
    apply Forall_nil.
  - rewrite Hvalues. vm_compute. reflexivity.
  - exists output. split; [exact Hrun|]. split; [exact Hlen|].
    split; [|split]; (rewrite Hat by reflexivity); rewrite Hvalues;
      vm_compute; reflexivity.
Defined.

Lemma counts_read_holds (lines : list string) :
  forall vars : Z * Z * Z,
    Forall (fun line => exists index m k : Z, holds_counts line index m k) lines ->
    counts_read lines vars = map (fun line => extract_counts line (0, 0, 0)) lines.
Proof.
  induction lines as [|line lines IH]; intros vars Hall; [reflexivity|].
  apply list.Forall_cons in Hall. destruct Hall as [(index & m & k & Hline) Hall].
  cbn [counts_read map].
  rewrite (extract_counts_holds line index m k vars Hline),
    (extract_counts_holds line index m k (0, 0, 0) Hline).
  f_equal. apply IH. exact Hall.
Qed.

Lemma Zsum_Permutation (l1 l2 : list Z) : l1 ≡ₚ l2 -> Zsum l1 = Zsum l2.
Proof.
  induction 1 as [|x l1 l2 _ IH|x y l|l1 l2 l3 _ IH1 _ IH2];
    cbn [Zsum fold_right]; [reflexivity | fold (Zsum l1) (Zsum l2); lia | lia
                            | congruence].
Qed.

(** X24: the output of [CountProbabilityIndex] does not depend on the
    order of the input lines when every line holds its three integers: two
    files that hold the same such lines in any order, as the concatenated
    results of parallel jobs do, give the same 42875 probabilities.  It
    does depend on the order when a line has lost a count, which is then
    taken from the line before: the lines "1 1 1" and "2 1" give trio 2
    the probability 1/2 in this order and 1 in the other. *)
Theorem CountProbabilityIndex_order_irrelevant :
  (forall lines lines' : list string,
      let values := counts_read lines (0, 0, 0) in
      lines ≡ₚ lines' ->
      Forall (fun line => exists index m k : Z, holds_counts line index m k) lines ->
      Forall counts_in_range values ->
      Zsum (map (fun v => with_mutation v + without_mutation v) values) < 2 ^ 31 ->
      exists output : list float,
        CountProbabilityIndex lines = Some output
        /\ CountProbabilityIndex lines' = Some output)
  /\ exists output output' : list float,
       CountProbabilityIndex ["1 1 1"; "2 1"]%string = Some output
       /\ CountProbabilityIndex ["2 1"; "1 1 1"]%string = Some output'
       /\ output !! 2%nat = Some 0.5%float
       /\ output' !! 2%nat = Some 1%float.
Proof.
  split.
  - intros lines lines' values Hperm Hholds Hall Hsum. subst values.
    assert (Hholds' : Forall (fun line => exists index m k : Z,
                                holds_counts line index m k) lines')
      by (rewrite <- Hperm; exact Hholds).
    rewrite (counts_read_holds lines _ Hholds) in Hall, Hsum.
    assert (Hvalues : map (fun line => extract_counts line (0, 0, 0)) lines
                      ≡ₚ map (fun line => extract_counts line (0, 0, 0)) lines')
      by (apply Permutation_map; exact Hperm).
    destruct (CountProbabilityIndex_values lines) as (output & Hrun & Hlen & Hat).
    { rewrite (counts_read_holds lines _ Hholds). exact Hall. }
    { rewrite (counts_read_holds lines _ Hholds). exact Hsum. }
    destruct (CountProbabilityIndex_values lines') as (output' & Hrun' & Hlen' & Hat').
    { rewrite (counts_read_holds lines' _ Hholds'), <- Hvalues. exact Hall. }
    { rewrite (counts_read_holds lines' _ Hholds').
      rewrite <- (Zsum_Permutation _ _ (Permutation_map trios Hvalues)).
      exact Hsum. }
    exists output. split; [exact Hrun|]. rewrite Hrun'. f_equal.
    apply list_eq_same_length with (Z.to_nat 42875); [lia | lia |].
    intros i x y Hi Hx Hy.
    rewrite Hat in Hy by lia. rewrite Hat' in Hx by lia.
    rewrite (counts_read_holds lines _ Hholds) in Hy.
    rewrite (counts_read_holds lines' _ Hholds') in Hx.
    unfold trio_sum in Hx, Hy.
    rewrite <- (Zsum_Permutation _ _ (Permutation_map _ Hvalues)) in Hx.
    rewrite <- (Zsum_Permutation _ _ (Permutation_map _ Hvalues)) in Hx.
    congruence.
  - assert (Hvalues : counts_read ["1 1 1"; "2 1"]%string (0, 0, 0)
                      = [(1, 1, 1); (2, 1, 1)]) by (vm_compute; reflexivity).
    assert (Hvalues' : counts_read ["2 1"; "1 1 1"]%string (0, 0, 0)
                       = [(2, 1, 0); (1, 1, 1)]) by (vm_compute; reflexivity).
    destruct (CountProbabilityIndex_values ["1 1 1"; "2 1"]%string)
      as (output & Hrun & _ & Hat).
    { rewrite Hvalues.
      repeat (apply list.Forall_cons; split;
              [unfold counts_in_range, trio_index, with_mutation, without_mutation;
               cbn [fst snd]; lia|]).
      apply Forall_nil. }
    { rewrite Hvalues. vm_compute. reflexivity. }
    destruct (CountProbabilityIndex_values ["2 1"; "1 1 1"]%string)
      as (output' & Hrun' & _ & Hat').
    { rewrite Hvalues'.
      repeat (apply list.Forall_cons; split;
              [unfold counts_in_range, trio_index, with_mutation, without_mutation;
               cbn [fst snd]; lia|]).
      apply Forall_nil. }
    { rewrite Hvalues'. vm_compute. reflexivity. }
    exists output, output'. split; [exact Hrun|]. split; [exact Hrun'|].
    split; [rewrite Hat, Hvalues by reflexivity
           | rewrite Hat', Hvalues' by reflexivity];
      vm_compute; reflexivity.
Qed.

(** Three complete lines, two of them for trio 7, in two orders. *)
Lemma CountProbabilityIndex_order_irrelevant_witness :
  exists output : list float,
    CountProbabilityIndex ["7 1 3"; "5 0 2"; "7 2 2"]%string = Some output
    /\ CountProbabilityIndex ["7 2 2"; "7 1 3"; "5 0 2"]%string = Some output.
Proof.
  assert (Hvalues : counts_read ["7 1 3"; "5 0 2"; "7 2 2"]%string (0, 0, 0)
                    = [(7, 1, 3); (5, 0, 2); (7, 2, 2)]) by (vm_compute; reflexivity).
  apply (proj1 CountProbabilityIndex_order_irrelevant
           ["7 1 3"; "5 0 2"; "7 2 2"]%string ["7 2 2"; "7 1 3"; "5 0 2"]%string).
  - symmetry. apply (Permutation_cons_append ["7 1 3"; "5 0 2"]%string "7 2 2"%string).
  - repeat (apply list.Forall_cons; split;
            [eexists; eexists; eexists; eexists; eexists; eexists;
             repeat split; vm_compute; reflexivity|]).
    apply Forall_nil.
  - rewrite Hvalues.
    repeat (apply list.Forall_cons; split;
            [unfold counts_in_range, trio_index, with_mutation, without_mutation;
             cbn [fst snd]; lia|]).
    apply Forall_nil.
  - rewrite Hvalues. vm_compute. reflexivity.
Defined.

(** ** The part of the parent count table that is assigned *)

Lemma TwoParentCounts_column0 :
  exists mat : list (Cell4 float),
    TwoParentCounts = Some mat
    /\ columns_unassigned mat = true
    /\ column0_holds_allele_counts mat = true.
Proof.
  eexists. split; [reflexivity|]. split; vm_compute; reflexivity.
Qed.

(** X25: of the constant [kTwoParentCounts], the entries of column 0
    (father genotype AA) are assigned, and hold for the mother genotype
    [i] and the nucleotide [k] the number of alleles of [i] and of AA that
    are [k]; every entry of the columns 1 to 15 is left unassigned by
    [ZeroMatrix16_16_4d] and incremented as it stands. *)
Theorem kTwoParentCounts_defined_in_column0 :
  forall i j k : nat,
    (i < 16)%nat -> (j < 16)%nat -> (k < 4)%nat ->
    kTwoParentCounts (D := float) i j k
    = if (j =? 0)%nat
      then Some (dof_Z (allele_count i k + allele_count 0 k))
      else None.
Proof.
  intros i j k Hi Hj Hk.
  destruct TwoParentCounts_column0 as (mat & Hmat & Hrest & Hcol0).
  unfold kTwoParentCounts. rewrite Hmat.
  destruct j as [|j]; cbn [Nat.eqb].
  - unfold column0_holds_allele_counts in Hcol0.
    rewrite forallb_forall in Hcol0.
    specialize (Hcol0 i ltac:(apply in_seq; lia)).
    rewrite forallb_forall in Hcol0.
    specialize (Hcol0 k ltac:(apply in_seq; lia)).
    rewrite Nat.add_0_r.
    destruct (mat !! (i * 16)%nat) as [[v|]|]; try discriminate.
    destruct (v !! k) as [x|]; [|discriminate].
    apply FloatAxioms.Leibniz.eqb_spec in Hcol0. rewrite Hcol0. reflexivity.
  - unfold columns_unassigned in Hrest.
    rewrite forallb_forall in Hrest.
    specialize (Hrest i ltac:(apply in_seq; lia)).
    rewrite forallb_forall in Hrest.
    specialize (Hrest j ltac:(apply in_seq; lia)).
    destruct (mat !! (i * 16 + S j)%nat) as [[v|]|]; try discriminate.
    reflexivity.
Qed.

(** Mother TT and father AA hold two T; mother TT and father AC have no
    count. *)
Lemma kTwoParentCounts_defined_in_column0_witness :
  kTwoParentCounts (D := float) 15 0 3
  = (if (0 =? 0)%nat then Some (dof_Z (allele_count 15 3 + allele_count 0 3))
     else None)
  /\ kTwoParentCounts (D := float) 15 1 3
     = (if (1 =? 0)%nat then Some (dof_Z (allele_count 15 3 + allele_count 0 3))
        else None).
Proof.
  split.
  - apply (kTwoParentCounts_defined_in_column0 15 0 3); lia.
  - apply (kTwoParentCounts_defined_in_column0 15 1 3); lia.
Defined.

